(** * Session Summary Microservice: a shallow embedding of [main.py]

    The service keeps three process-wide tables ([TOKEN_USER], [ACTIVE],
    [FINISHED]) and one durable JSON document.  Every handler is embedded
    as a function in a state-and-exception monad over a [World] record that
    holds the tables, the file system and the clock.

    Conventions.
    - Python [float] is IEEE binary64: Rocq's primitive [float].
    - Python [int] is [Z]; a value that may be either is a [pynum].
    - [str] is [string], read as the UTF-8 bytes of the text, on which the
      lexicographic order is the code-point order of Python; [dict] keyed
      by [str] is stdpp's [gmap string].
    - Exceptions are values of [exn]; a handler that raises keeps the state
      changes it made before.
    - [datetime.fromisoformat] belongs to Python's standard library, so the
      handlers take it as a section variable; [fromisoformat_std] is a
      concrete instance for the grammar that [isoformat()] emits, used to
      run the handlers on concrete requests. *)

From Stdlib Require Import ZArith List String Ascii Bool Lia QArith Sorted.
From Stdlib Require Import PrimFloat FloatOps SpecFloat FloatAxioms.
From stdpp Require Import gmap strings list fin_maps.

Import ListNotations.

(* ===================================================================== *)
(** * Numbers *)
(* ===================================================================== *)

(** A Python number as it appears in a [Summary]: [float | int]. *)
Inductive pynum : Type :=
  | PyInt (z : Z)
  | PyFloat (f : float).

(** [float(i)] for an [int]: round to nearest even. *)
Definition float_of_Z (z : Z) : float :=
  SF2Prim (binary_normalize prec emax z 0 false).

(** [float(x)] *)
Definition to_float (x : pynum) : float :=
  match x with
  | PyInt z => float_of_Z z
  | PyFloat f => f
  end.

(** [x + y] and [x - y]: [int] arithmetic when both sides are [int],
    otherwise the [int] side is converted and the operation is binary64. *)
Definition py_add (x y : pynum) : pynum :=
  match x, y with
  | PyInt a, PyInt b => PyInt (a + b)
  | _, _ => PyFloat (to_float x + to_float y)
  end.

Definition py_sub (x y : pynum) : pynum :=
  match x, y with
  | PyInt a, PyInt b => PyInt (a - b)
  | _, _ => PyFloat (to_float x - to_float y)
  end.

(** [float.is_integer()]: finite and without fractional part. *)
Definition is_integer (f : float) : bool :=
  match Prim2SF f with
  | S754_zero _ => true
  | S754_finite _ m e =>
      if (0 <=? e)%Z then true else (Z.pos m mod 2 ^ (- e) =? 0)%Z
  | S754_infinity _ | S754_nan => false
  end.

(** [int(f)] for a [float]: truncation toward zero; raises on infinities
    and NaN ([None]). *)
Definition int_of_float (f : float) : option Z :=
  match Prim2SF f with
  | S754_zero _ => Some 0%Z
  | S754_finite s m e =>
      let a := if (0 <=? e)%Z then (Z.pos m * 2 ^ e)%Z
               else (Z.pos m / 2 ^ (- e))%Z in
      Some (if s then (- a)%Z else a)
  | S754_infinity _ | S754_nan => None
  end.

(** [_int_if_whole]:
<<
    try:
        return int(x) if float(x).is_integer() else float(x)
    except Exception:
        return x
>>
    On an [int] argument, [float(x)] either overflows (the handler returns
    [x]) or is whole (then [int(x)] is [x]). *)
Definition _int_if_whole (x : pynum) : pynum :=
  match x with
  | PyInt z => PyInt z
  | PyFloat f =>
      if is_integer f then
        match int_of_float f with
        | Some z => PyInt z
        | None => x
        end
      else PyFloat f
  end.






(* ===================================================================== *)
(** * Events and the arithmetic of [compute_summary] *)
(* ===================================================================== *)

(** An event as [record_event] stores it:
    [{"event_type": ..., "amount": float(...), "timestamp": ts}]. *)
Record Event : Type := mkEvent {
  event_type : string;
  amount : float;
  timestamp : string
}.

(** [sum(1 for e in events if e.get('event_type') == 'bet')]: the builtin
    [sum] starts from the [int] 0 and adds each generated item in turn. *)
Fixpoint count_rounds (acc : Z) (events : list Event) : Z :=
  match events with
  | [] => acc
  | e :: rest =>
      if String.eqb (event_type e) "bet"
      then count_rounds (acc + 1) rest
      else count_rounds acc rest
  end.

(** [sum(float(e.get('amount', 0)) for e in events
         if e.get('event_type') == ty)]: the accumulator starts as the
    [int] 0 and becomes a [float] with the first amount added.  The
    additions are plain binary64 additions from left to right; CPython 3.12
    and later compensate the rounding errors of a float sum, which can
    change the last bits of a total and nothing else that is stated below. *)
Fixpoint sum_amounts (ty : string) (acc : pynum) (events : list Event) : pynum :=
  match events with
  | [] => acc
  | e :: rest =>
      if String.eqb (event_type e) ty
      then sum_amounts ty (py_add acc (PyFloat (amount e))) rest
      else sum_amounts ty acc rest
  end.

Definition rounds_of (events : list Event) : Z := count_rounds 0 events.
Definition total_bets_of (events : list Event) : pynum :=
  sum_amounts "bet" (PyInt 0) events.
Definition total_wins_of (events : list Event) : pynum :=
  sum_amounts "win" (PyInt 0) events.
Definition net_change_of (events : list Event) : pynum :=
  py_sub (total_wins_of events) (total_bets_of events).

(** The specification's reading of the same quantities. *)
Definition events_of_type (ty : string) (events : list Event) : list Event :=
  filter (fun e => event_type e = ty) events.






(* ===================================================================== *)
(** * Time codec *)
(* ===================================================================== *)

(** A [datetime]: calendar fields and an optional UTC offset in
    microseconds ([None] for an offset-naive value). *)
Record datetime : Type := mkdatetime {
  year : Z;
  month : Z;
  day : Z;
  hour : Z;
  minute : Z;
  second : Z;
  microsecond : Z;
  tzinfo : option Z
}.

Definition timezone_utc : option Z := Some 0%Z.

Definition is_leap (y : Z) : bool :=
  ((y mod 4 =? 0) && (negb (y mod 100 =? 0) || (y mod 400 =? 0)))%Z.

Definition days_in_month (y m : Z) : Z :=
  (if m =? 2 then (if is_leap y then 29 else 28)
   else if (m =? 4) || (m =? 6) || (m =? 9) || (m =? 11) then 30
   else 31)%Z.

Definition days_before_year (y : Z) : Z :=
  (let p := y - 1 in p * 365 + p / 4 - p / 100 + p / 400)%Z.

Fixpoint days_before_month_aux (y : Z) (k : nat) : Z :=
  match k with
  | O => 0%Z
  | S k' => (days_before_month_aux y k' + days_in_month y (Z.of_nat k))%Z
  end.

Definition days_before_month (y m : Z) : Z :=
  days_before_month_aux y (Z.to_nat (m - 1)).

(** [date.toordinal()]: day 1 is 0001-01-01. *)
Definition ymd2ord (y m d : Z) : Z :=
  (days_before_year y + days_before_month y m + d)%Z.

(** Position of the wall-clock reading on the time line, in microseconds. *)
Definition wall_micros (t : datetime) : Z :=
  ((((ymd2ord (year t) (month t) (day t) * 24 + hour t) * 60 + minute t) * 60
   + second t) * 1000000 + microsecond t)%Z.

(** The instant an offset-aware [datetime] denotes, in microseconds of UTC. *)
Definition utc_micros (t : datetime) : option Z :=
  match tzinfo t with
  | Some off => Some (wall_micros t - off)%Z
  | None => None
  end.

(** [a < b] on [datetime]: naive values compare by wall clock, aware values
    by instant, and comparing a naive with an aware value raises
    [TypeError] ([None]). *)
Definition datetime_lt (a b : datetime) : option bool :=
  match tzinfo a, tzinfo b with
  | None, None => Some (wall_micros a <? wall_micros b)%Z
  | Some oa, Some ob => Some (wall_micros a - oa <? wall_micros b - ob)%Z
  | _, _ => None
  end.

(** [list.sort()] on datetimes: a stable sort that only uses [<]; the first
    failing comparison aborts it. *)
Fixpoint insert_sorted (x : datetime) (l : list datetime) : option (list datetime) :=
  match l with
  | [] => Some [x]
  | y :: rest =>
      match datetime_lt x y with
      | None => None
      | Some true => Some (x :: y :: rest)
      | Some false =>
          match insert_sorted x rest with
          | Some rest' => Some (y :: rest')
          | None => None
          end
      end
  end.

Fixpoint sort_onto (sorted : list datetime) (l : list datetime) : option (list datetime) :=
  match l with
  | [] => Some sorted
  | x :: rest =>
      match insert_sorted x sorted with
      | Some sorted' => sort_onto sorted' rest
      | None => None
      end
  end.

Definition sort_datetimes (l : list datetime) : option (list datetime) :=
  sort_onto [] l.

(** ** Rendering *)

Definition digit_char (d : Z) : ascii :=
  ascii_of_nat (48 + Z.to_nat (d mod 10)).

(** ["%0<width>d" % n] for [0 <= n < 10 ^ width]. *)
Fixpoint zero_pad (width : nat) (n : Z) : string :=
  match width with
  | O => EmptyString
  | S w => String (digit_char (n / 10 ^ Z.of_nat w)) (zero_pad w n)
  end.

Definition format_offset (off : Z) : string :=
  let sign := if (off <? 0)%Z then "-" else "+" in
  let a := Z.abs off in
  let hh := (a / 3600000000)%Z in
  let mm := (a / 60000000 mod 60)%Z in
  let ss := (a / 1000000 mod 60)%Z in
  let us := (a mod 1000000)%Z in
  (sign ++ zero_pad 2 hh ++ ":" ++ zero_pad 2 mm
   ++ (if (ss =? 0)%Z && (us =? 0)%Z then "" else ":" ++ zero_pad 2 ss)
   ++ (if (us =? 0)%Z then "" else "." ++ zero_pad 6 us))%string.

(** [datetime.isoformat()] *)
Definition isoformat (t : datetime) : string :=
  (zero_pad 4 (year t) ++ "-" ++ zero_pad 2 (month t) ++ "-" ++ zero_pad 2 (day t)
   ++ "T" ++ zero_pad 2 (hour t) ++ ":" ++ zero_pad 2 (minute t) ++ ":"
   ++ zero_pad 2 (second t)
   ++ (if (microsecond t =? 0)%Z then "" else "." ++ zero_pad 6 (microsecond t))
   ++ match tzinfo t with
      | Some off => format_offset off
      | None => ""
      end)%string.

(** [t.replace(microsecond=0)] *)
Definition replace_microsecond0 (t : datetime) : datetime :=
  mkdatetime (year t) (month t) (day t) (hour t) (minute t) (second t) 0 (tzinfo t).

(** [t.replace(microsecond=0, tzinfo=timezone.utc)]: the calendar fields are
    kept and the offset is overwritten. *)
Definition replace_microsecond0_utc (t : datetime) : datetime :=
  mkdatetime (year t) (month t) (day t) (hour t) (minute t) (second t) 0 timezone_utc.

(** Two offset-aware datetimes denote the same instant, to the second. *)
Definition same_instant_to_second (a b : datetime) : Prop :=
  match utc_micros a, utc_micros b with
  | Some x, Some y => (x / 1000000 = y / 1000000)%Z
  | _, _ => False
  end.

(** ** Parsing

    [fromisoformat_std] reads the grammar
    [YYYY-MM-DD[*HH[:MM[:SS[.fff[fff]]]][+HH:MM[:SS[.ffffff]]]]], the one
    [datetime.isoformat()] writes and [datetime.fromisoformat] has read
    since CPython 3.7; later versions accept more strings and read these
    the same way. *)

Definition digit_val (c : ascii) : option Z :=
  let n := nat_of_ascii c in
  if (48 <=? n)%nat && (n <=? 57)%nat then Some (Z.of_nat (n - 48)) else None.

Fixpoint parse_digits (acc : Z) (cs : list ascii) : option Z :=
  match cs with
  | [] => Some acc
  | c :: rest =>
      match digit_val c with
      | Some d => parse_digits (acc * 10 + d)%Z rest
      | None => None
      end
  end.

Definition parse_fraction (cs : list ascii) : option Z :=
  match cs with
  | [] => Some 0%Z
  | "."%char :: ds =>
      if (length ds =? 3)%nat then
        match parse_digits 0 ds with Some n => Some (n * 1000)%Z | None => None end
      else if (length ds =? 6)%nat then parse_digits 0 ds
      else None
  | _ => None
  end.

(** [HH[:MM[:SS[.fff[fff]]]]] *)
Definition parse_hh_mm_ss_ff (cs : list ascii) : option (Z * Z * Z * Z) :=
  match cs with
  | [h1; h2] =>
      match parse_digits 0 [h1; h2] with
      | Some h => Some (h, 0, 0, 0)%Z
      | None => None
      end
  | [h1; h2; ":"%char; m1; m2] =>
      match parse_digits 0 [h1; h2], parse_digits 0 [m1; m2] with
      | Some h, Some m => Some (h, m, 0, 0)%Z
      | _, _ => None
      end
  | h1 :: h2 :: ":"%char :: m1 :: m2 :: ":"%char :: s1 :: s2 :: frac =>
      match parse_digits 0 [h1; h2], parse_digits 0 [m1; m2],
            parse_digits 0 [s1; s2], parse_fraction frac with
      | Some h, Some m, Some s, Some us => Some (h, m, s, us)
      | _, _, _, _ => None
      end
  | _ => None
  end.

(** Split the time string at its first ['-'], or else at its first ['+']. *)
Fixpoint split_at (c : ascii) (cs : list ascii) : option (list ascii * list ascii) :=
  match cs with
  | [] => None
  | x :: rest =>
      if Ascii.eqb x c then Some ([], rest)
      else match split_at c rest with
           | Some (pre, post) => Some (x :: pre, post)
           | None => None
           end
  end.

Definition parse_isoformat_time (cs : list ascii) : option (Z * Z * Z * Z * option Z) :=
  let tz_split :=
    match split_at "-"%char cs with
    | Some (pre, post) => Some (true, pre, post)
    | None =>
        match split_at "+"%char cs with
        | Some (pre, post) => Some (false, pre, post)
        | None => None
        end
    end in
  match tz_split with
  | None =>
      match parse_hh_mm_ss_ff cs with
      | Some (h, m, s, us) => Some (h, m, s, us, None)
      | None => None
      end
  | Some (neg, timestr, tzstr) =>
      let n := length tzstr in
      if negb ((n =? 5) || (n =? 8) || (n =? 15))%nat then None else
      match parse_hh_mm_ss_ff timestr, parse_hh_mm_ss_ff tzstr with
      | Some (h, m, s, us), Some (th, tm, ts, tus) =>
          let mag := (((th * 60 + tm) * 60 + ts) * 1000000 + tus)%Z in
          let off := if neg then (- mag)%Z else mag in
          if (mag <? 86400000000)%Z then Some (h, m, s, us, Some off) else None
      | _, _ => None
      end
  end.

(** The constructor's range checks. *)
Definition valid_fields (y mo d h mi s us : Z) : bool :=
  ((1 <=? y) && (y <=? 9999) && (1 <=? mo) && (mo <=? 12)
   && (1 <=? d) && (d <=? days_in_month y mo)
   && (0 <=? h) && (h <=? 23) && (0 <=? mi) && (mi <=? 59)
   && (0 <=? s) && (s <=? 59) && (0 <=? us) && (us <=? 999999))%Z.

Definition fromisoformat_std (date_string : string) : option datetime :=
  let cs := list_ascii_of_string date_string in
  match firstn 10 cs with
  | [y1; y2; y3; y4; "-"%char; m1; m2; "-"%char; d1; d2] =>
      match parse_digits 0 [y1; y2; y3; y4], parse_digits 0 [m1; m2],
            parse_digits 0 [d1; d2] with
      | Some y, Some mo, Some d =>
          let time :=
            match skipn 10 cs with
            | [] => Some (0, 0, 0, 0, None)%Z
            | _separator :: tstr => parse_isoformat_time tstr
            end in
          match time with
          | Some (h, mi, s, us, tz) =>
              if valid_fields y mo d h mi s us
              then Some (mkdatetime y mo d h mi s us tz)
              else None
          | None => None
          end
      | _, _, _ => None
      end
  | _ => None
  end.

(** [ts.endswith('Z')] *)
Fixpoint endswith_Z (ts : string) : bool :=
  match ts with
  | EmptyString => false
  | String c EmptyString => Ascii.eqb c "Z"
  | String _ rest => endswith_Z rest
  end.

(** [ts.replace('Z', '+00:00')]: every occurrence is replaced. *)
Fixpoint replace_Z (ts : string) : string :=
  match ts with
  | EmptyString => EmptyString
  | String c rest =>
      if Ascii.eqb c "Z" then ("+00:00" ++ replace_Z rest)%string
      else String c (replace_Z rest)
  end.

(* ===================================================================== *)
(** * Data model and process state *)
(* ===================================================================== *)

(** [ACTIVE[user_id][session_id]]:
    [{'start_time': str|None, 'end_time': str|None, 'events': [...]}] *)
Record Session : Type := mkSession {
  sess_start_time : option string;
  sess_end_time : option string;
  sess_events : list Event
}.

(** [class Summary(BaseModel)], and the dict that [model_dump()] makes of
    it: the entries of [FINISHED[user_id]]. *)
Record Summary : Type := mkSummary {
  session_id : string;
  user_id : string;
  start_time : string;
  end_time : string;
  rounds : Z;
  total_bets : pynum;
  total_wins : pynum;
  net_change : pynum
}.

Record EventIn : Type := mkEventIn {
  in_session_id : string;
  in_event_type : string;
  in_amount : float;
  in_timestamp : option string
}.

Record LatestResponse : Type := mkLatestResponse {
  ok : bool;
  summary : option Summary;
  message : option string
}.

(** A JSON value as [json.load] returns it: numbers without fraction or
    exponent are [int], the others [float]. *)
#[warnings="-register-all"] Inductive json : Type :=
  | JNull
  | JBool (b : bool)
  | JInt (z : Z)
  | JFloat (f : float)
  | JString (s : string)
  | JArray (l : list json)
  | JObject (l : list (string * json)).

(** What [json.load] makes of a file: a value, or an exception. *)
Inductive file_content : Type :=
  | Unparseable
  | Parsed (j : json).

Inductive exn : Type :=
  | HTTPException (status_code : Z) (detail : string)
  | TypeError
  | IndexError
  | ValueError.

Record World : Type := mkWorld {
  TOKEN_USER : gmap string string;
  ACTIVE : gmap string (gmap string Session);
  FINISHED : gmap string (list Summary);
  files : gmap string file_content;
  clock : nat -> datetime;
  ticks : nat
}.

Definition set_TOKEN_USER (t : gmap string string) (w : World) : World :=
  mkWorld t (ACTIVE w) (FINISHED w) (files w) (clock w) (ticks w).
Definition set_ACTIVE (a : gmap string (gmap string Session)) (w : World) : World :=
  mkWorld (TOKEN_USER w) a (FINISHED w) (files w) (clock w) (ticks w).
Definition set_FINISHED (f : gmap string (list Summary)) (w : World) : World :=
  mkWorld (TOKEN_USER w) (ACTIVE w) f (files w) (clock w) (ticks w).
Definition set_files (fs : gmap string file_content) (w : World) : World :=
  mkWorld (TOKEN_USER w) (ACTIVE w) (FINISHED w) fs (clock w) (ticks w).
Definition tick (w : World) : World :=
  mkWorld (TOKEN_USER w) (ACTIVE w) (FINISHED w) (files w) (clock w) (S (ticks w)).

(** ** The handler monad: state that survives an exception *)

Definition M (A : Type) : Type := World -> (exn + A) * World.

Definition ret {A : Type} (a : A) : M A := fun w => (inr a, w).
Definition raise {A : Type} (e : exn) : M A := fun w => (inl e, w).
Definition bind {A B : Type} (c : M A) (k : A -> M B) : M B :=
  fun w =>
    match c w with
    | (inr a, w') => k a w'
    | (inl e, w') => (inl e, w')
    end.
Definition gets {A : Type} (f : World -> A) : M A := fun w => (inr (f w), w).
Definition modify (f : World -> World) : M unit := fun w => (inr tt, f w).

Declare Scope handler_scope.
Delimit Scope handler_scope with handler.
Notation "x <- c ;; k" := (bind c (fun x => k))
  (at level 100, c at next level, right associativity) : handler_scope.
Notation "c ;; k" := (bind c (fun _ => k))
  (at level 100, right associativity) : handler_scope.
Local Open Scope handler_scope.

(** Python truthiness of a [str] and of an [Optional[str]]. *)
Definition str_truthy (s : string) : bool := negb (String.eqb s "").
Definition opt_truthy (o : option string) : bool :=
  match o with
  | Some s => str_truthy s
  | None => false
  end.

(** [a or b] on [Optional[str]] *)
Definition py_or (a b : option string) : option string :=
  if opt_truthy a then a else b.

(** [datetime.now(timezone.utc)]: one reading of the clock. *)
Definition datetime_now_utc : M datetime :=
  fun w =>
    let t := clock w (ticks w) in
    (inr (mkdatetime (year t) (month t) (day t) (hour t) (minute t) (second t)
                     (microsecond t) timezone_utc),
     tick w).

(** [now_iso] *)
Definition now_iso : M string :=
  t <- datetime_now_utc ;;
  ret (isoformat (replace_microsecond0 t)).

(** ** Persistence of the finished summaries *)

Definition DATA_FILE : string := "summaries.json".

Definition num_to_json (x : pynum) : json :=
  match x with
  | PyInt z => JInt z
  | PyFloat f => JFloat f
  end.

Definition summary_members (s : Summary) : list (string * json) :=
  [("session_id", JString (session_id s));
   ("user_id", JString (user_id s));
   ("start_time", JString (start_time s));
   ("end_time", JString (end_time s));
   ("rounds", JInt (rounds s));
   ("total_bets", num_to_json (total_bets s));
   ("total_wins", num_to_json (total_wins s));
   ("net_change", num_to_json (net_change s))].

Definition summary_to_json (s : Summary) : json :=
  JObject (summary_members s).

(** [json.dump(FINISHED, f, indent=2)]: the document that is written. *)
Definition finished_to_json (fin : gmap string (list Summary)) : json :=
  JObject (map (fun kv => (fst kv, JArray (map summary_to_json (snd kv))))
               (map_to_list fin)).

Definition json_to_num (j : json) : option pynum :=
  match j with
  | JInt z => Some (PyInt z)
  | JFloat f => Some (PyFloat f)
  | _ => None
  end.

(** [d.get(key)] on the [dict] that [json.load] makes of an object: of two
    members with the same key the later one counts. *)
Fixpoint json_get (key : string) (members : list (string * json)) : option json :=
  match members with
  | [] => None
  | (k, v) :: rest =>
      match json_get key rest with
      | Some later => Some later
      | None => if String.eqb k key then Some v else None
      end
  end.

Definition summary_keys : list string :=
  ["session_id"; "user_id"; "start_time"; "end_time"; "rounds"; "total_bets";
   "total_wins"; "net_change"].

(** The typed reading of a loaded entry: an object that has the eight
    members of [model_dump()] and no others, in any order, each of the type
    its field has in [Summary].  [load_finished] keeps whatever JSON object
    it finds; this development follows the archive only while its entries
    have that shape, so any other entry is outside of it ([None]). *)
Definition summary_of_members (members : list (string * json)) : option Summary :=
  if forallb (fun kv => existsb (String.eqb (fst kv)) summary_keys) members then
    match json_get "session_id" members, json_get "user_id" members,
          json_get "start_time" members, json_get "end_time" members,
          json_get "rounds" members with
    | Some (JString sid), Some (JString uid), Some (JString st), Some (JString en),
      Some (JInt r) =>
        match option_bind _ _ json_to_num (json_get "total_bets" members),
              option_bind _ _ json_to_num (json_get "total_wins" members),
              option_bind _ _ json_to_num (json_get "net_change" members) with
        | Some b, Some w, Some n => Some (mkSummary sid uid st en r b w n)
        | _, _, _ => None
        end
    | _, _, _, _, _ => None
    end
  else None.

Definition summary_of_json (j : json) : option Summary :=
  match j with
  | JObject members => summary_of_members members
  | _ => None
  end.

Fixpoint summaries_of_json (l : list json) : option (list Summary) :=
  match l with
  | [] => Some []
  | j :: rest =>
      match summary_of_json j, summaries_of_json rest with
      | Some s, Some ss => Some (s :: ss)
      | _, _ => None
      end
  end.

(** A loaded JSON object becomes a [dict]: a later duplicate key replaces
    an earlier one. *)
Fixpoint finished_of_members (acc : gmap string (list Summary))
         (members : list (string * json)) : option (gmap string (list Summary)) :=
  match members with
  | [] => Some acc
  | (k, JArray l) :: rest =>
      match summaries_of_json l with
      | Some ss => finished_of_members (<[k := ss]> acc) rest
      | None => None
      end
  | _ :: _ => None
  end.

(** [load_finished]: a missing file, an unreadable file and a document that
    is no object all give the empty archive.  The result is [None] when the
    document is an object that holds other things than lists of summaries. *)
Definition load_finished (w : World) : option World :=
  match files w !! DATA_FILE with
  | None => Some (set_FINISHED ∅ w)
  | Some Unparseable => Some (set_FINISHED ∅ w)
  | Some (Parsed (JObject members)) =>
      match finished_of_members ∅ members with
      | Some fin => Some (set_FINISHED fin w)
      | None => None
      end
  | Some (Parsed _) => Some (set_FINISHED ∅ w)
  end.

(** [save_finished]: write the temporary file, then [os.replace] it over
    [DATA_FILE]. *)
Definition save_finished : M unit :=
  modify (fun w =>
    let tmp := (DATA_FILE ++ ".tmp")%string in
    let doc := Parsed (finished_to_json (FINISHED w)) in
    let written := <[tmp := doc]> (files w) in
    set_files (<[DATA_FILE := doc]> (delete tmp written)) w).

(** A fresh process on the same disk: empty tables, then [_startup]. *)
Definition restart (w : World) : option World :=
  load_finished (mkWorld ∅ ∅ ∅ (files w) (clock w) (ticks w)).

(* ===================================================================== *)
(** * The handlers *)
(* ===================================================================== *)

(** [current_user_id]: the dependency that resolves the caller's identity
    from the bearer token and the optional [X-User-Id] header. *)
Definition current_user_id (token : string) (x_user_id : option string) : M string :=
  tokens <- gets TOKEN_USER ;;
  let first_time : M string :=
    match x_user_id with
    | Some hint =>
        if negb (str_truthy hint)
        then raise (HTTPException 401 "Unknown token. Include X-User-Id to bind.")
        else modify (fun w => set_TOKEN_USER (<[token := hint]> (TOKEN_USER w)) w) ;;
             ret hint
    | None => raise (HTTPException 401 "Unknown token. Include X-User-Id to bind.")
    end in
  match tokens !! token with
  | Some bound =>
      if str_truthy bound then
        match x_user_id with
        | Some hint =>
            if str_truthy hint && negb (String.eqb hint bound)
            then raise (HTTPException 403 "Token already bound to a different user")
            else ret bound
        | None => ret bound
        end
      else first_time
  | None => first_time
  end.

(** [for s in items: if s.get('session_id') == session_id: return s] *)
Fixpoint find_summary (sid : string) (items : list Summary) : option Summary :=
  match items with
  | [] => None
  | s :: rest =>
      if String.eqb (session_id s) sid then Some s else find_summary sid rest
  end.

(** [for i, s in enumerate(items): if s.get("session_id") == sid: ...] *)
Fixpoint find_index (sid : string) (i : nat) (items : list Summary) : option nat :=
  match items with
  | [] => None
  | s :: rest =>
      if String.eqb (session_id s) sid then Some i else find_index sid (S i) rest
  end.

(** The replace-or-append loop of [end_session]:
<<
    for i, s in enumerate(items):
        if s.get("session_id") == req.session_id:
            items[i] = summary
            break
    else:
        items.append(summary)
>> *)
Definition upsert (sid : string) (new : Summary) (items : list Summary) : list Summary :=
  match find_index sid 0 items with
  | Some i => <[i := new]> items
  | None => items ++ [new]
  end.

(** [s.get("end_time") or ""] *)
Definition end_time_key (s : Summary) : string :=
  if str_truthy (end_time s) then end_time s else "".

(** [max(items, key=...)]: the first item whose key is greatest. *)
Fixpoint max_from (best : Summary) (items : list Summary) : Summary :=
  match items with
  | [] => best
  | s :: rest =>
      if String.ltb (end_time_key best) (end_time_key s)
      then max_from s rest
      else max_from best rest
  end.

(** [x or now_iso()] *)
Definition or_now (x : option string) : M string :=
  if opt_truthy x then ret (default "" x) else now_iso.

Definition session_lookup (user sid : string) (w : World) : option Session :=
  default ∅ (ACTIVE w !! user) !! sid.

Definition finished_lookup (user : string) (w : World) : list Summary :=
  default [] (FINISHED w !! user).

Section Service.

(** [datetime.fromisoformat] *)
Variable fromisoformat : string -> option datetime.

(** [parse_iso] *)
Definition parse_iso (ts : string) : option datetime :=
  if endswith_Z ts then fromisoformat (replace_Z ts) else fromisoformat ts.

(** The timestamp loop of [compute_summary]: a timestamp that does not
    parse is passed over. *)
Fixpoint collect_timestamps (events : list Event) : list datetime :=
  match events with
  | [] => []
  | e :: rest =>
      match parse_iso (timestamp e) with
      | Some t => t :: collect_timestamps rest
      | None => collect_timestamps rest
      end
  end.

(** The [if ts_list:] block of [compute_summary]. *)
Definition derive_times (session : Session) (ts_list : list datetime)
  : M (option string * option string) :=
  match ts_list with
  | [] => ret (sess_start_time session, sess_end_time session)
  | _ :: _ =>
      match sort_datetimes ts_list with
      | None => raise TypeError
      | Some sorted =>
          match head sorted, last sorted with
          | Some first, Some final =>
              let start := Some (isoformat (replace_microsecond0_utc first)) in
              match sess_end_time session with
              | None => ret (start, Some (isoformat (replace_microsecond0_utc final)))
              | Some e => ret (start, Some e)
              end
          | _, _ => raise IndexError
          end
      end
  end.

(** [compute_summary] *)
Definition compute_summary (user sid : string) : M Summary :=
  found <- gets (session_lookup user sid) ;;
  match found with
  | None =>
      items <- gets (finished_lookup user) ;;
      match find_summary sid items with
      | Some s => ret s
      | None => raise (HTTPException 404 "Session not found")
      end
  | Some session =>
      let events := sess_events session in
      let n_rounds := rounds_of events in
      let bets := total_bets_of events in
      let wins := total_wins_of events in
      let net := py_sub wins bets in
      times <- derive_times session (collect_timestamps events) ;;
      start <- or_now (fst times) ;;
      finish <- or_now (snd times) ;;
      ret (mkSummary sid user start finish n_rounds
                     (_int_if_whole bets) (_int_if_whole wins) (_int_if_whole net))
  end.

(** The store update of [record_event]:
<<
  user_sessions = ACTIVE.setdefault(user_id, {})
  sess = user_sessions.get(req.session_id)
  if sess is None:
      sess = {"start_time": ts, "end_time": None, "events": []}
      user_sessions[req.session_id] = sess
  sess["events"].append({...})
>> *)
Definition append_event (user : string) (req : EventIn) (ts : string)
           (w : World) : World :=
  let user_sessions := default ∅ (ACTIVE w !! user) in
  let sess := default (mkSession (Some ts) None [])
                      (user_sessions !! in_session_id req) in
  let ev := mkEvent (in_event_type req) (in_amount req) ts in
  let sess' := mkSession (sess_start_time sess) (sess_end_time sess)
                         (sess_events sess ++ [ev]) in
  set_ACTIVE (<[user := <[in_session_id req := sess']> user_sessions]> (ACTIVE w)) w.

(** [POST /session/event] *)
Definition record_event (token : string) (x_user_id : option string)
           (req : EventIn) : M string :=
  user <- current_user_id token x_user_id ;;
  ts <- match in_timestamp req with
        | None => now_iso
        | Some ts =>
            match parse_iso ts with
            | Some _ => ret ts
            | None =>
                raise (HTTPException 400
                  "timestamp must be ISO-8601 (e.g., 2026-02-12T14:05:00Z)")
            end
        end ;;
  modify (append_event user req ts) ;;
  ret "Event recorded".

(** [sess["end_time"] = now] on the stored session. *)
Definition set_end_time (user sid : string) (now : string) (w : World) : World :=
  let user_sessions := default ∅ (ACTIVE w !! user) in
  match user_sessions !! sid with
  | Some sess =>
      let sess' := mkSession (sess_start_time sess) (Some now) (sess_events sess) in
      set_ACTIVE (<[user := <[sid := sess']> user_sessions]> (ACTIVE w)) w
  | None => w
  end.

(** The archive update of [end_session]: [FINISHED.setdefault(user_id, [])]
    followed by the replace-or-append loop. *)
Definition store_finished (user sid : string) (new : Summary) (w : World) : World :=
  set_FINISHED (<[user := upsert sid new (finished_lookup user w)]> (FINISHED w)) w.

(** [POST /session/end] *)
Definition end_session (token : string) (x_user_id : option string)
           (sid : string) : M Summary :=
  user <- current_user_id token x_user_id ;;
  found <- gets (session_lookup user sid) ;;
  match found with
  | None => raise (HTTPException 404 "Session not found")
  | Some sess =>
      match sess_end_time sess with
      | None => now <- now_iso ;; modify (set_end_time user sid now)
      | Some _ => ret tt
      end ;;
      new <- compute_summary user sid ;;
      modify (store_finished user sid new) ;;
      save_finished ;;
      ret new
  end.

(** [GET /session/latest] *)
Definition get_latest (token : string) (x_user_id : option string) : M LatestResponse :=
  user <- current_user_id token x_user_id ;;
  items <- gets (finished_lookup user) ;;
  match items with
  | [] => ret (mkLatestResponse false None
                 (Some "No session summary found for this user."))
  | first :: rest => ret (mkLatestResponse true (Some (max_from first rest)) None)
  end.

(** A number that [json.dumps(..., allow_nan=False)] renders: an [int], or
    a [float] that is neither an infinity nor a NaN. *)
Definition is_finite (f : float) : bool :=
  match Prim2SF f with
  | S754_zero _ | S754_finite _ _ _ => true
  | S754_infinity _ | S754_nan => false
  end.

Definition json_number_ok (x : pynum) : bool :=
  match x with
  | PyInt _ => true
  | PyFloat f => is_finite f
  end.

Definition json_compliant (s : Summary) : bool :=
  json_number_ok (total_bets s) && json_number_ok (total_wins s)
  && json_number_ok (net_change s).

(** [JSONResponse(content=...)]: the constructor renders the content at
    once, with [allow_nan=False], and so raises [ValueError] on a summary
    that holds an infinity or a NaN. *)
Definition JSONResponse (content : Summary) : M Summary :=
  if json_compliant content then ret content else raise ValueError.

(** [GET /session/export] *)
Definition export_session (token : string) (x_user_id : option string)
           (session_id legacy_sess_id : option string) : M Summary :=
  user <- current_user_id token x_user_id ;;
  let sid := py_or session_id legacy_sess_id in
  if negb (opt_truthy sid)
  then raise (HTTPException 400 "session_id query param is required")
  else
    let sid := default "" sid in
    items <- gets (finished_lookup user) ;;
    match find_summary sid items with
    | Some s => JSONResponse s
    | None => summary <- compute_summary user sid ;; JSONResponse summary
    end.

(** [POST /ping] *)
Definition ping (msg : string) : M string := ret msg.

(** ** Requests, and the process as a sequence of them *)

Inductive Request : Type :=
  | RecordEvent (token : string) (x_user_id : option string) (req : EventIn)
  | EndSession (token : string) (x_user_id : option string) (sid : string)
  | GetLatest (token : string) (x_user_id : option string)
  | ExportSession (token : string) (x_user_id : option string)
                  (session_id legacy_sess_id : option string)
  | Ping (msg : string).

Inductive Response : Type :=
  | Message (msg : string)
  | WrappedSummary (s : Summary)
  | Latest (r : LatestResponse)
  | Bare (s : Summary).

Definition handle (r : Request) : M Response :=
  match r with
  | RecordEvent token hint req =>
      msg <- record_event token hint req ;; ret (Message msg)
  | EndSession token hint sid =>
      s <- end_session token hint sid ;; ret (WrappedSummary s)
  | GetLatest token hint =>
      r <- get_latest token hint ;; ret (Latest r)
  | ExportSession token hint sid legacy =>
      s <- export_session token hint sid legacy ;; ret (Bare s)
  | Ping msg =>
      m <- ping msg ;; ret (Message m)
  end.

(** The state after serving a list of requests, whatever each returned. *)
Fixpoint serve (requests : list Request) (w : World) : World :=
  match requests with
  | [] => w
  | r :: rest => serve rest (snd (handle r w))
  end.

End Service.

(** The empty process on an empty disk. *)
Definition boot (clk : nat -> datetime) : World := mkWorld ∅ ∅ ∅ ∅ clk 0.

(* ===================================================================== *)
(** * Notions used by the statements *)
(* ===================================================================== *)

(** ** Numbers *)





(** ** Failures *)

Definition unauthenticated : exn :=
  HTTPException 401 "Unknown token. Include X-User-Id to bind.".
Definition forbidden : exn :=
  HTTPException 403 "Token already bound to a different user".
Definition not_found : exn := HTTPException 404 "Session not found".
Definition invalid_argument : exn :=
  HTTPException 400 "session_id query param is required".

(** ** Optional strings and the invariants of the tables *)

(** A header or query parameter that is missing or empty. *)
Definition absent (o : option string) : Prop :=
  o = None \/ o = Some "".

(** Only non-empty user ids are bound. *)
Definition tokens_ok (w : World) : Prop :=
  forall t u, TOKEN_USER w !! t = Some u -> u <> "".

(** No stored session has an empty [end_time]: it is [None] until
    [end_session] writes the clock reading. *)
Definition sessions_ok (w : World) : Prop :=
  forall user sid sess,
    session_lookup user sid w = Some sess -> sess_end_time sess <> Some "".

(** Every user's archive has at most one summary per session id. *)
Definition archive_ok (w : World) : Prop :=
  forall user, NoDup (map session_id (finished_lookup user w)).

(** ** Timestamps with and without an offset *)

Definition aware (t : datetime) : bool :=
  match tzinfo t with Some _ => true | None => false end.

(** All of one kind: all offset-aware ([k = true]) or all naive. *)
Definition uniform (k : bool) (l : list datetime) : Prop :=
  Forall (fun t => aware t = k) l.

(** The position by which [<] orders datetimes of one kind. *)
Definition time_key (t : datetime) : Z :=
  match tzinfo t with
  | Some off => (wall_micros t - off)%Z
  | None => wall_micros t
  end.

Definition key_le (a b : datetime) : Prop := (time_key a <= time_key b)%Z.

(** ** Handler steps and what they preserve *)

(** [keeps part c]: the handler step [c] leaves [part] of the state as it
    found it, whether it returns or raises. *)
Definition keeps {X A : Type} (part : World -> X) (c : M A) : Prop :=
  forall w, part (snd (c w)) = part w.

(** [maintains I c Q]: from a state satisfying [I], [c] ends in a state
    satisfying [I], whether it returns or raises, and a returned value
    satisfies [Q]. *)
Definition maintains {A : Type} (I : World -> Prop) (c : M A) (Q : A -> Prop) : Prop :=
  forall w, I w -> I (snd (c w)) /\ forall a, fst (c w) = inr a -> Q a.

(** An invariant that looks neither at the bindings, nor at the clock, nor
    at the files. *)
Record table_invariant (I : World -> Prop) : Prop := {
  inv_tokens : forall t w, I w -> I (set_TOKEN_USER t w);
  inv_tick : forall w, I w -> I (tick w);
  inv_files : forall fs w, I w -> I (set_files fs w)
}.

(* ===================================================================== *)
(** * Concrete runs *)
(* ===================================================================== *)

(** The clock of the examples: 2026-11-04 12:00:00.000250, one second
    later at every reading. *)
Definition example_clock (n : nat) : datetime :=
  mkdatetime 2026 11 4 12 0 (Z.of_nat n) 250 None.

(** The specification's example: bet 10, win 15, bet 5, loss 3. *)
Definition example_requests : list Request :=
  [RecordEvent "tok" (Some "alice")
     (mkEventIn "s1" "bet" 10 (Some "2026-02-12T14:05:00Z"));
   RecordEvent "tok" None
     (mkEventIn "s1" "win" 15 (Some "2026-02-12T14:06:00Z"));
   RecordEvent "tok" None
     (mkEventIn "s1" "bet" 5 (Some "2026-02-12T14:07:00Z"));
   RecordEvent "tok" None
     (mkEventIn "s1" "loss" 3 (Some "2026-02-12T14:08:00Z"))].

Definition example_world : World :=
  serve fromisoformat_std example_requests (boot example_clock).

Definition example_session : Session :=
  mkSession (Some "2026-02-12T14:05:00Z") None
    [mkEvent "bet" 10 "2026-02-12T14:05:00Z";
     mkEvent "win" 15 "2026-02-12T14:06:00Z";
     mkEvent "bet" 5 "2026-02-12T14:07:00Z";
     mkEvent "loss" 3 "2026-02-12T14:08:00Z"].

(** The running example after [POST /session/end] for session s1, and the
    summary that call returns. *)
Definition example_ended_world : World :=
  snd (end_session fromisoformat_std "tok" None "s1" example_world).

Definition example_summary : Summary :=
  mkSummary "s1" "alice" "2026-02-12T14:05:00+00:00" "2026-11-04T12:00:00+00:00"
            2 (PyInt 15) (PyInt 15) (PyInt 0).

(** Two more summaries, for the archive operations. *)
Definition example_summary_later : Summary :=
  mkSummary "s1" "alice" "2026-02-12T14:05:00+00:00" "2026-11-04T12:00:00+00:00"
            3 (PyFloat 17.5) (PyInt 15) (PyFloat (-2.5)).

Definition example_summary_other : Summary :=
  mkSummary "s2" "alice" "2026-03-01T09:00:00+00:00" "2026-03-01T10:00:00+00:00"
            1 (PyInt 4) (PyInt 0) (PyInt (-4)).

(** One session, two accepted timestamps: one with a [Z], one without. *)
Definition mixed_requests : list Request :=
  [RecordEvent "tok" (Some "alice")
     (mkEventIn "s1" "bet" 10 (Some "2026-02-12T14:05:00Z"));
   RecordEvent "tok" None
     (mkEventIn "s1" "win" 15 (Some "2026-02-12T14:06:00"))].

Definition mixed_world : World :=
  serve fromisoformat_std mixed_requests (boot example_clock).

(** One session, one event stamped with a non-zero offset. *)
Definition offset_requests : list Request :=
  [RecordEvent "tok" (Some "alice")
     (mkEventIn "s1" "bet" 10 (Some "2026-02-12T14:05:00+05:00"))].

Definition offset_world : World :=
  serve fromisoformat_std offset_requests (boot example_clock).

(** The same, followed by an event that happened later but reads earlier
    on the wall clock. *)
Definition offset_requests_two : list Request :=
  offset_requests
  ++ [RecordEvent "tok" None
        (mkEventIn "s1" "win" 15 (Some "2026-02-12T10:00:00+00:00"))].

Definition offset_world_two : World :=
  serve fromisoformat_std offset_requests_two (boot example_clock).



(** One session with two bets of 1e308: each is a finite binary64 number,
    their sum is not. *)
Definition overflow_requests : list Request :=
  [RecordEvent "tok" (Some "alice")
     (mkEventIn "s1" "bet" 1e308 (Some "2026-02-12T14:05:00Z"));
   RecordEvent "tok" None
     (mkEventIn "s1" "bet" 1e308 (Some "2026-02-12T14:06:00Z"))].

Definition overflow_world : World :=
  serve fromisoformat_std overflow_requests (boot example_clock).

Definition overflow_ended_world : World :=
  snd (end_session fromisoformat_std "tok" None "s1" overflow_world).

(* ===================================================================== *)
(** * Notions used by the further properties *)
(* ===================================================================== *)

(** The fields of a [datetime] are in the ranges its constructor accepts. *)
Definition valid_datetime (t : datetime) : bool :=
  valid_fields (year t) (month t) (day t) (hour t) (minute t) (second t)
               (microsecond t).

(** The reading [datetime.now(timezone.utc).replace(microsecond=0)] that
    [now_iso] renders in state [w]. *)
Definition now_reading (w : World) : datetime :=
  let t := clock w (ticks w) in
  mkdatetime (year t) (month t) (day t) (hour t) (minute t) (second t) 0 timezone_utc.

Definition TMP_FILE : string := (DATA_FILE ++ ".tmp")%string.

(** A fresh process started on the disk of [w] finds the archive of [w]. *)
Definition disk_in_sync (w : World) : Prop :=
  option_map FINISHED (restart w) = Some (FINISHED w).

Definition bad_timestamp : exn :=
  HTTPException 400 "timestamp must be ISO-8601 (e.g., 2026-02-12T14:05:00Z)".

(** The user a request acts for in state [w], if identity resolution lets it
    through. *)
Definition request_user (r : Request) (w : World) : option string :=
  match r with
  | RecordEvent token hint _ | EndSession token hint _ | GetLatest token hint
  | ExportSession token hint _ _ =>
      match fst (current_user_id token hint w) with
      | inr user => Some user
      | inl _ => None
      end
  | Ping _ => None
  end.

Definition is_end_session (r : Request) : bool :=
  match r with
  | EndSession _ _ _ => true
  | _ => false
  end.

(** [later] continues [earlier]: same start, the events of [earlier]
    followed by more, and an [end_time] that was set is still the same. *)
Definition continues (earlier later : Session) : Prop :=
  sess_start_time later = sess_start_time earlier
  /\ (exists more, sess_events later = sess_events earlier ++ more)
  /\ (forall e, sess_end_time earlier = Some e -> sess_end_time later = Some e).

(** Every stored session has a first event, and started when it was
    stamped. *)
Definition sessions_started (w : World) : Prop :=
  forall user sid sess,
    session_lookup user sid w = Some sess ->
    exists first rest,
      sess_events sess = first :: rest
      /\ sess_start_time sess = Some (timestamp first).

(** [s] is a summary of the stored session [sess] of [user] under [sid]:
    its numbers are those of the session's events, its times are not
    empty, and its [end_time] is the session's if that is set. *)
Definition summarises (user sid : string) (sess : Session) (s : Summary) : Prop :=
  s = mkSummary sid user (start_time s) (end_time s)
        (rounds_of (sess_events sess))
        (_int_if_whole (total_bets_of (sess_events sess)))
        (_int_if_whole (total_wins_of (sess_events sess)))
        (_int_if_whole (net_change_of (sess_events sess)))
  /\ start_time s <> "" /\ end_time s <> ""
  /\ (forall e, sess_end_time sess = Some e -> e <> "" -> end_time s = e).

(** ** The state changes a request is made of

    [step accepted user w w']: one elementary change of the state, of the
    kinds the handlers perform while they serve a request for [user]:
    binding a token to a non-empty user id, reading the clock, appending an
    event stamped with a timestamp the caller supplied and the service
    [accepted], appending an event stamped with the clock, stamping an open
    session of the user with the clock as [end_time], and upserting a
    summary of an ended session of the user into the user's archive and
    saving it. *)
Inductive step (accepted : string -> Prop) (user : option string)
  : World -> World -> Prop :=
  | step_bind (w : World) (token h : string) :
      h <> "" ->
      step accepted user w (set_TOKEN_USER (<[token := h]> (TOKEN_USER w)) w)
  | step_tick (w : World) :
      step accepted user w (tick w)
  | step_append (w : World) (u : string) (req : EventIn) (ts : string) :
      user = Some u ->
      accepted ts ->
      step accepted user w (append_event u req ts w)
  | step_append_now (w : World) (u : string) (req : EventIn) :
      user = Some u ->
      step accepted user w (append_event u req (isoformat (now_reading w)) (tick w))
  | step_end (w : World) (u sid : string) (sess : Session) :
      user = Some u ->
      session_lookup u sid w = Some sess ->
      sess_end_time sess = None ->
      step accepted user w (set_end_time u sid (isoformat (now_reading w)) (tick w))
  | step_store (w : World) (u sid : string) (sess : Session) (s : Summary) :
      user = Some u ->
      session_lookup u sid w = Some sess ->
      sess_end_time sess <> None ->
      summarises u sid sess s ->
      step accepted user w (snd (save_finished (store_finished u sid s w))).

(** The history of one session: it is still stored and continues [sess]. *)
Definition continued (user sid : string) (sess : Session) (w : World) : Prop :=
  exists later, session_lookup user sid w = Some later /\ continues sess later.

(** Every event of every stored session carries a timestamp that
    [parse_iso] accepts. *)
Definition timestamps_parse (fromisoformat : string -> option datetime)
           (w : World) : Prop :=
  forall user sid sess,
    session_lookup user sid w = Some sess ->
    Forall (fun e => parse_iso fromisoformat (timestamp e) <> None) (sess_events sess).

(** [fromisoformat] reads back what [now_iso] writes for every reading of
    the clock [clk]. *)
Definition reads_back (fromisoformat : string -> option datetime)
           (clk : nat -> datetime) : Prop :=
  forall n,
    parse_iso fromisoformat (isoformat (replace_microsecond0_utc (clk n))) <> None.

(** A clock whose every reading is a date and time that exists. *)
Definition valid_clock (clk : nat -> datetime) : Prop :=
  forall n, valid_datetime (clk n) = true.

(** A clock that starts on 2026-11-04 at noon and advances by one second
    at every reading, within the hour. *)
Definition hour_clock (n : nat) : datetime :=
  mkdatetime 2026 11 4 12 ((Z.of_nat n / 60) mod 60) (Z.of_nat n mod 60) 250 None.

(** Requests that write to the session store. *)
Definition writes_sessions (r : Request) : bool :=
  match r with
  | RecordEvent _ _ _ | EndSession _ _ _ => true
  | _ => false
  end.

(** Two event bodies for the examples: one with a timestamp that parses,
    one with a timestamp that does not. *)
Definition example_event_in : EventIn :=
  mkEventIn "s1" "win" 2 (Some "2026-02-12T14:09:00Z").

Definition bad_event_in : EventIn :=
  mkEventIn "s1" "bet" 1 (Some "yesterday").

(** Every file on disk is [DATA_FILE], holding the document of the archive
    in memory. *)
Definition disk_mirrors (w : World) : Prop :=
  forall path doc,
    files w !! path = Some doc ->
    path = DATA_FILE /\ doc = Parsed (finished_to_json (FINISHED w)).

(** Every archived summary belongs to the user it is filed under, has its
    times, and its session is still stored, ended at the summary's
    [end_time]. *)
Definition archive_matches (w : World) : Prop :=
  forall user s,
    s ∈ finished_lookup user w ->
    user_id s = user /\ start_time s <> "" /\ end_time s <> ""
    /\ exists sess,
         session_lookup user (session_id s) w = Some sess
         /\ sess_end_time sess = Some (end_time s).

(** Comparing by a first criterion and, where it does not decide, by the
    rest. *)
Definition then_compare (first rest : comparison) : comparison :=
  match first with
  | Eq => rest
  | _ => first
  end.

(** The order of two calendar readings, field by field. *)
Definition calendar_compare (a b : datetime) : comparison :=
  then_compare (year a ?= year b)%Z
    (then_compare (month a ?= month b)%Z
       (then_compare (day a ?= day b)%Z
          (then_compare (hour a ?= hour b)%Z
             (then_compare (minute a ?= minute b)%Z
                (second a ?= second b)%Z)))).

(** Every [end_time] in the session store is a reading of the clock the
    process has made, rendered by [now_iso]. *)
Definition ends_stamped (w : World) : Prop :=
  forall user sid sess e,
    session_lookup user sid w = Some sess ->
    sess_end_time sess = Some e ->
    exists n, (n < ticks w)%nat
              /\ e = isoformat (replace_microsecond0_utc (clock w n)).

(* ===================================================================== *)
(** * Summary arithmetic *)
(* ===================================================================== *)

Lemma count_rounds_spec (events : list Event) (acc : Z) :
  count_rounds acc events = (acc + Z.of_nat (length (events_of_type "bet" events)))%Z.
Proof.
  revert acc. induction events as [|e rest IH]; intros acc; simpl.
  - lia.
  - unfold events_of_type in *. rewrite filter_cons.
    destruct (String.eqb_spec (event_type e) "bet") as [Heq|Hne].
    + rewrite decide_True by exact Heq. rewrite IH. simpl length. lia.
    + rewrite decide_False by exact Hne. apply IH.
Qed.







(** ** [compute_summary] on an active session *)

Lemma insert_sorted_length (x : datetime) (l l' : list datetime) :
  insert_sorted x l = Some l' -> length l' = S (length l).
Proof.
  revert l'. induction l as [|y rest IH]; intros l' H; simpl in H.
  - now injection H as <-.
  - destruct (datetime_lt x y) as [[|]|]; try discriminate.
    + now injection H as <-.
    + destruct (insert_sorted x rest) as [r|]; [|discriminate].
      injection H as <-. simpl. f_equal. now apply IH.
Qed.

Lemma sort_onto_length (l sorted r : list datetime) :
  sort_onto sorted l = Some r -> length r = (length sorted + length l)%nat.
Proof.
  revert sorted. induction l as [|x rest IH]; intros sorted H; simpl in H.
  - injection H as <-. simpl. lia.
  - destruct (insert_sorted x sorted) as [s'|] eqn:Hins; [|discriminate].
    apply IH in H. apply insert_sorted_length in Hins. simpl. lia.
Qed.

Lemma sort_datetimes_length (l r : list datetime) :
  sort_datetimes l = Some r -> length r = length l.
Proof. intros H. apply sort_onto_length in H. exact H. Qed.

Lemma isoformat_nonempty (t : datetime) : str_truthy (isoformat t) = true.
Proof. reflexivity. Qed.

(** [now_iso] reads the clock once and always returns a non-empty string. *)
Lemma now_iso_returns (w : World) :
  exists now, now_iso w = (inr now, tick w) /\ str_truthy now = true.
Proof. eexists. split; [reflexivity|]. apply isoformat_nonempty. Qed.

Lemma or_now_returns (x : option string) (w : World) :
  exists s w', or_now x w = (inr s, w') /\ str_truthy s = true
               /\ (opt_truthy x = true -> x = Some s /\ w' = w).
Proof.
  unfold or_now. destruct (opt_truthy x) eqn:Hx.
  - destruct x as [s|]; [|discriminate]. exists s, w. simpl in *. auto.
  - destruct (now_iso_returns w) as (now & Hnow & Hne).
    exists now, (tick w). rewrite Hnow. repeat split; [exact Hne|discriminate|discriminate].
Qed.

Section ServiceFacts.

Variable fromisoformat : string -> option datetime.

(** The [if ts_list:] block fails in one way only: the sort raises. *)
Lemma derive_times_raises (sess : Session) (ts : list datetime) (w w' : World) (e : exn) :
  derive_times sess ts w = (inl e, w') ->
  e = TypeError /\ sort_datetimes ts = None /\ w' = w.
Proof.
  unfold derive_times. destruct ts as [|t rest]; [discriminate|].
  destruct (sort_datetimes (t :: rest)) as [sorted|] eqn:Hsort.
  - apply sort_datetimes_length in Hsort.
    destruct sorted as [|a l]; [discriminate|].
    change (head (a :: l)) with (Some a).
    destruct (last (a :: l)) eqn:Hlast.
    + destruct (sess_end_time sess); discriminate.
    + apply last_None in Hlast. discriminate.
  - intros H. injection H as <- <-. auto.
Qed.

Lemma derive_times_returns (sess : Session) (ts : list datetime) (w w' : World)
      (times : option string * option string) :
  derive_times sess ts w = (inr times, w') ->
  w' = w /\
  match ts with
  | [] => times = (sess_start_time sess, sess_end_time sess)
  | _ :: _ =>
      exists sorted first final,
        sort_datetimes ts = Some sorted /\ head sorted = Some first
        /\ last sorted = Some final
        /\ fst times = Some (isoformat (replace_microsecond0_utc first))
        /\ snd times = match sess_end_time sess with
                       | None => Some (isoformat (replace_microsecond0_utc final))
                       | Some e => Some e
                       end
  end.
Proof.
  unfold derive_times. destruct ts as [|t rest].
  - intros H. injection H as <- <-. auto.
  - destruct (sort_datetimes (t :: rest)) as [sorted|]; [|discriminate].
    destruct (head sorted) as [first|] eqn:Hh; [|discriminate].
    destruct (last sorted) as [final|] eqn:Hl; [|discriminate].
    destruct (sess_end_time sess) as [e|]; intros H; injection H as <- <-;
      (split; [reflexivity|]); exists sorted, first, final; auto.
Qed.

(** What a summary computed from an active session consists of. *)
Lemma compute_summary_active (user sid : string) (sess : Session) (w : World) :
  session_lookup user sid w = Some sess ->
  match compute_summary fromisoformat user sid w with
  | (inr s, w') =>
      exists times w1,
        derive_times sess (collect_timestamps fromisoformat (sess_events sess)) w
        = (inr times, w)
        /\ or_now (fst times) w = (inr (start_time s), w1)
        /\ or_now (snd times) w1 = (inr (end_time s), w')
        /\ s = mkSummary sid user (start_time s) (end_time s)
                 (rounds_of (sess_events sess))
                 (_int_if_whole (total_bets_of (sess_events sess)))
                 (_int_if_whole (total_wins_of (sess_events sess)))
                 (_int_if_whole (net_change_of (sess_events sess)))
  | (inl e, w') =>
      e = TypeError /\ w' = w
      /\ sort_datetimes (collect_timestamps fromisoformat (sess_events sess)) = None
  end.
Proof.
  intros Hlook. unfold compute_summary, bind, gets. rewrite Hlook.
  destruct (derive_times sess _ w) as [[e|times] w0] eqn:Hd.
  - apply derive_times_raises in Hd as (-> & Hs & ->). auto.
  - pose proof (derive_times_returns _ _ _ _ _ Hd) as [-> _].
    destruct (or_now_returns (fst times) w) as (st & w1 & Hst & _).
    rewrite Hst.
    destruct (or_now_returns (snd times) w1) as (en & w2 & Hen & _).
    rewrite Hen. unfold ret.
    exists times, w1. simpl. auto.
Qed.

End ServiceFacts.









(** The specification's example, run: rounds 2, bets 15, wins 15, net 0,
    all rendered as [int]. *)
Example example_summary_numbers :
  exists s w',
    compute_summary fromisoformat_std "alice" "s1" example_world = (inr s, w')
    /\ rounds s = 2%Z /\ total_bets s = PyInt 15 /\ total_wins s = PyInt 15
    /\ net_change s = PyInt 0.
Proof. do 2 eexists. split; [vm_compute; reflexivity|]. repeat split. Qed.

(* ===================================================================== *)
(** * Identity binding *)
(* ===================================================================== *)

Lemma str_truthy_true (s : string) : str_truthy s = true <-> s <> "".
Proof.
  unfold str_truthy. destruct (String.eqb_spec s ""); simpl; split; congruence.
Qed.

Lemma str_truthy_false (s : string) : str_truthy s = false <-> s = "".
Proof.
  unfold str_truthy. destruct (String.eqb_spec s ""); simpl; split; congruence.
Qed.

Lemma current_user_id_unknown_absent (w : World) (token : string) (hint : option string) :
  TOKEN_USER w !! token = None -> absent hint ->
  current_user_id token hint w = (inl unauthenticated, w).
Proof.
  intros Hnone [-> | ->]; unfold current_user_id, bind, gets; rewrite Hnone; reflexivity.
Qed.

Lemma current_user_id_unknown_given (w : World) (token h : string) :
  TOKEN_USER w !! token = None -> h <> "" ->
  current_user_id token (Some h) w
  = (inr h, set_TOKEN_USER (<[token := h]> (TOKEN_USER w)) w).
Proof.
  intros Hnone Hh. apply str_truthy_true in Hh.
  unfold current_user_id, bind, gets. rewrite Hnone, Hh. reflexivity.
Qed.

Lemma current_user_id_known_same (w : World) (token u : string) (hint : option string) :
  TOKEN_USER w !! token = Some u -> u <> "" ->
  absent hint \/ hint = Some u ->
  current_user_id token hint w = (inr u, w).
Proof.
  intros Hsome Hu Hhint. apply str_truthy_true in Hu.
  unfold current_user_id, bind, gets. rewrite Hsome, Hu.
  destruct Hhint as [[-> | ->] | ->]; try reflexivity.
  rewrite String.eqb_refl, andb_false_r. reflexivity.
Qed.

Lemma current_user_id_known_other (w : World) (token u h : string) :
  TOKEN_USER w !! token = Some u -> u <> "" -> h <> "" -> h <> u ->
  current_user_id token (Some h) w = (inl forbidden, w).
Proof.
  intros Hsome Hu Hh Hne.
  apply str_truthy_true in Hu. apply str_truthy_true in Hh.
  apply String.eqb_neq in Hne.
  unfold current_user_id, bind, gets. rewrite Hsome, Hu, Hh, Hne. reflexivity.
Qed.

(** Every outcome of [current_user_id], in one statement. *)
Lemma current_user_id_outcome (w : World) (token : string) (hint : option string) :
  tokens_ok w ->
  (exists e, current_user_id token hint w = (inl e, w))
  \/ (exists u, current_user_id token hint w = (inr u, w)
                /\ TOKEN_USER w !! token = Some u)
  \/ (exists h, current_user_id token hint w
                = (inr h, set_TOKEN_USER (<[token := h]> (TOKEN_USER w)) w)
                /\ TOKEN_USER w !! token = None /\ hint = Some h /\ h <> "").
Proof.
  intros Hok.
  destruct (TOKEN_USER w !! token) as [u|] eqn:Hlook.
  - assert (Hu : u <> "") by (eapply Hok; eassumption).
    destruct hint as [h|].
    + destruct (String.eqb_spec h "") as [->|Hh].
      * right; left. exists u. split; [|reflexivity].
        apply current_user_id_known_same; auto. left. now right.
      * destruct (String.eqb_spec h u) as [->|Hne].
        -- right; left. exists u. split; [|reflexivity].
           apply current_user_id_known_same; auto.
        -- left. eexists. apply (current_user_id_known_other w token u h); auto.
    + right; left. exists u. split; [|reflexivity].
      apply current_user_id_known_same; auto. left. now left.
  - destruct hint as [h|].
    + destruct (String.eqb_spec h "") as [->|Hh].
      * left. eexists. apply current_user_id_unknown_absent; auto. now right.
      * right; right. exists h. split; [|auto].
        apply current_user_id_unknown_given; auto.
    + left. eexists. apply current_user_id_unknown_absent; auto. now left.
Qed.


Lemma current_user_id_tokens_ok (w : World) (token : string) (hint : option string) :
  tokens_ok w -> tokens_ok (snd (current_user_id token hint w)).
Proof.
  intros Hok.
  destruct (current_user_id_outcome w token hint Hok)
    as [(e & ->) | [(v & -> & _) | (h & -> & Hnone & _ & Hh)]]; simpl; try exact Hok.
  intros t u. simpl.
  destruct (decide (token = t)) as [->|Hne].
  - rewrite lookup_insert_eq. congruence.
  - rewrite lookup_insert_ne by exact Hne. apply Hok.
Qed.

(** ** Which handler steps leave a part of the state alone *)

Lemma keeps_ret {X A : Type} (part : World -> X) (a : A) : keeps part (ret a).
Proof. intros w. reflexivity. Qed.

Lemma keeps_raise {X A : Type} (part : World -> X) (e : exn) : keeps part (@raise A e).
Proof. intros w. reflexivity. Qed.

Lemma keeps_gets {X A : Type} (part : World -> X) (f : World -> A) : keeps part (gets f).
Proof. intros w. reflexivity. Qed.

Lemma keeps_modify {X : Type} (part : World -> X) (f : World -> World) :
  (forall w, part (f w) = part w) -> keeps part (modify f).
Proof. intros H w. apply H. Qed.

Lemma keeps_bind {X A B : Type} (part : World -> X) (c : M A) (k : A -> M B) :
  keeps part c -> (forall a, keeps part (k a)) -> keeps part (bind c k).
Proof.
  intros Hc Hk w. unfold bind. specialize (Hc w).
  destruct (c w) as [[e|a] w']; simpl in *; [exact Hc|].
  now rewrite Hk.
Qed.

Lemma keeps_now_iso {X : Type} (part : World -> X) :
  (forall w, part (tick w) = part w) -> keeps part now_iso.
Proof. intros H w. apply H. Qed.

Lemma keeps_or_now {X : Type} (part : World -> X) (x : option string) :
  (forall w, part (tick w) = part w) -> keeps part (or_now x).
Proof.
  intros H. unfold or_now. destruct (opt_truthy x);
    [apply keeps_ret|now apply keeps_now_iso].
Qed.

Lemma keeps_save_finished {X : Type} (part : World -> X) :
  (forall fs w, part (set_files fs w) = part w) -> keeps part save_finished.
Proof. intros H w. apply H. Qed.

Lemma keeps_JSONResponse {X : Type} (part : World -> X) (s : Summary) :
  keeps part (JSONResponse s).
Proof.
  unfold JSONResponse. destruct (json_compliant s); [apply keeps_ret|apply keeps_raise].
Qed.

Ltac keeps_step :=
  match goal with
  | |- keeps _ (JSONResponse _) => apply keeps_JSONResponse
  | |- keeps _ (bind _ _) => apply keeps_bind; [|intros ?]
  | |- keeps _ (modify _) => apply keeps_modify; intros ?
  | |- keeps _ (ret _) => apply keeps_ret
  | |- keeps _ (raise _) => apply keeps_raise
  | |- keeps _ (gets _) => apply keeps_gets
  | |- keeps _ now_iso => apply keeps_now_iso; intros ?; reflexivity
  | |- keeps _ (or_now _) => apply keeps_or_now; intros ?; reflexivity
  | |- keeps _ save_finished => apply keeps_save_finished; intros ? ?; reflexivity
  | |- keeps _ (match ?x with _ => _ end) => destruct x
  end.

Lemma keeps_derive_times {X : Type} (part : World -> X) (sess : Session)
      (ts : list datetime) :
  keeps part (derive_times sess ts).
Proof. unfold derive_times. repeat keeps_step. Qed.

Lemma current_user_id_keeps_active : forall token hint,
  keeps ACTIVE (current_user_id token hint).
Proof. intros. unfold current_user_id. repeat keeps_step; reflexivity. Qed.

Lemma current_user_id_keeps_finished : forall token hint,
  keeps FINISHED (current_user_id token hint).
Proof. intros. unfold current_user_id. repeat keeps_step; reflexivity. Qed.

Section TokensUntouched.

Variable fromisoformat : string -> option datetime.

(** [compute_summary] changes nothing but the clock's tick count. *)
Lemma keeps_compute_summary {X : Type} (part : World -> X) (user sid : string) :
  (forall w, part (tick w) = part w) ->
  keeps part (compute_summary fromisoformat user sid).
Proof.
  intros H. unfold compute_summary. repeat keeps_step.
  - apply keeps_derive_times.
  - now apply keeps_or_now.
  - now apply keeps_or_now.
Qed.

Lemma set_end_time_tokens (user sid now : string) (w : World) :
  TOKEN_USER (set_end_time user sid now w) = TOKEN_USER w.
Proof. unfold set_end_time. destruct (_ !! sid); reflexivity. Qed.

Lemma bind_current_user_tokens {A : Type} (token : string) (hint : option string)
      (k : string -> M A) (w : World) :
  (forall user, keeps TOKEN_USER (k user)) ->
  TOKEN_USER (snd (bind (current_user_id token hint) k w))
  = TOKEN_USER (snd (current_user_id token hint w)).
Proof.
  intros Hk. unfold bind.
  destruct (current_user_id token hint w) as [[e|user] w']; simpl; [reflexivity|].
  apply Hk.
Qed.

Lemma bind_ret_world {A B : Type} (c : M A) (g : A -> B) (w : World) :
  snd (bind c (fun a => ret (g a)) w) = snd (c w).
Proof. unfold bind. destruct (c w) as [[e|a] w']; reflexivity. Qed.

Lemma record_event_tokens (token : string) (hint : option string) (req : EventIn)
      (w : World) :
  TOKEN_USER (snd (record_event fromisoformat token hint req w))
  = TOKEN_USER (snd (current_user_id token hint w)).
Proof.
  unfold record_event. apply bind_current_user_tokens.
  intros user. repeat keeps_step; reflexivity.
Qed.

Lemma end_session_tokens (token : string) (hint : option string) (sid : string)
      (w : World) :
  TOKEN_USER (snd (end_session fromisoformat token hint sid w))
  = TOKEN_USER (snd (current_user_id token hint w)).
Proof.
  unfold end_session. apply bind_current_user_tokens.
  intros user. repeat keeps_step;
    try (apply keeps_compute_summary; reflexivity); try reflexivity.
  apply set_end_time_tokens.
Qed.

Lemma get_latest_tokens (token : string) (hint : option string) (w : World) :
  TOKEN_USER (snd (get_latest token hint w))
  = TOKEN_USER (snd (current_user_id token hint w)).
Proof.
  unfold get_latest. apply bind_current_user_tokens.
  intros user. repeat keeps_step.
Qed.

Lemma export_session_tokens (token : string) (hint sid legacy : option string)
      (w : World) :
  TOKEN_USER (snd (export_session fromisoformat token hint sid legacy w))
  = TOKEN_USER (snd (current_user_id token hint w)).
Proof.
  unfold export_session. apply bind_current_user_tokens.
  intros user. repeat keeps_step; apply keeps_compute_summary; reflexivity.
Qed.

(** Serving a request changes [TOKEN_USER] at most by the binding that
    identity resolution makes. *)
Lemma handle_tokens (r : Request) (w : World) :
  TOKEN_USER (snd (handle fromisoformat r w))
  = match r with
    | RecordEvent token hint _ | EndSession token hint _ | GetLatest token hint
    | ExportSession token hint _ _ =>
        TOKEN_USER (snd (current_user_id token hint w))
    | Ping _ => TOKEN_USER w
    end.
Proof.
  destruct r; simpl handle; rewrite ?bind_ret_world.
  - apply record_event_tokens.
  - apply end_session_tokens.
  - apply get_latest_tokens.
  - apply export_session_tokens.
  - reflexivity.
Qed.


Lemma handle_tokens_ok (r : Request) (w : World) :
  tokens_ok w -> tokens_ok (snd (handle fromisoformat r w)).
Proof.
  intros Hok. unfold tokens_ok. rewrite handle_tokens.
  destruct r; try (now apply current_user_id_tokens_ok). exact Hok.
Qed.


Lemma serve_tokens_ok (requests : list Request) (w : World) :
  tokens_ok w -> tokens_ok (serve fromisoformat requests w).
Proof.
  revert w. induction requests as [|r rest IH]; intros w Hok; simpl.
  - exact Hok.
  - apply IH. now apply handle_tokens_ok.
Qed.

End TokensUntouched.

Lemma boot_tokens_ok (clk : nat -> datetime) : tokens_ok (boot clk).
Proof. intros t u H. unfold boot in H. simpl in H. now rewrite lookup_empty in H. Qed.



(** In the running example the token is bound to alice: bob is refused,
    alice and an anonymous caller are let in. *)
Example example_token_bound :
  TOKEN_USER example_world !! "tok" = Some "alice"
  /\ fst (current_user_id "tok" (Some "bob") example_world) = inl forbidden
  /\ fst (current_user_id "tok" None example_world) = inr "alice"
  /\ fst (current_user_id "tok" (Some "alice") example_world) = inr "alice"
  /\ fst (current_user_id "other" None example_world) = inl unauthenticated
  /\ fst (current_user_id "other" (Some "bob") example_world) = inr "bob".
Proof. repeat split; vm_compute; reflexivity. Qed.

(** C10: an empty [X-User-Id] counts as no hint.  On an unknown token it
    fails with 401 and binds nothing; on a known token the bound user is
    returned with no conflict check; and no sequence of requests ever
    binds the empty string. *)
Theorem empty_hint_is_absent (fromisoformat : string -> option datetime)
        (w : World) (token : string) :
  tokens_ok w ->
  (TOKEN_USER w !! token = None ->
   current_user_id token (Some "") w = (inl unauthenticated, w))
  /\ (forall u, TOKEN_USER w !! token = Some u ->
      current_user_id token (Some "") w = (inr u, w))
  /\ (forall requests t,
      TOKEN_USER (serve fromisoformat requests w) !! t <> Some "").
Proof.
  intros Hok. repeat apply conj.
  - intros Hnone. apply current_user_id_unknown_absent; [exact Hnone|now right].
  - intros u Hsome. apply current_user_id_known_same; [exact Hsome|eauto|].
    left. now right.
  - intros requests t Hbad.
    apply (serve_tokens_ok fromisoformat requests w Hok t "" Hbad). reflexivity.
Qed.

Lemma empty_hint_is_absent_witness :
  tokens_ok example_world
  /\ ((TOKEN_USER example_world !! "tok" = None ->
       current_user_id "tok" (Some "") example_world
       = (inl unauthenticated, example_world))
      /\ (forall u, TOKEN_USER example_world !! "tok" = Some u ->
          current_user_id "tok" (Some "") example_world = (inr u, example_world))
      /\ (forall requests t,
          TOKEN_USER (serve fromisoformat_std requests example_world) !! t <> Some "")).
Proof.
  assert (Hok : tokens_ok example_world)
    by apply serve_tokens_ok, boot_tokens_ok.
  split; [exact Hok|].
  exact (empty_hint_is_absent fromisoformat_std example_world "tok" Hok).
Defined.

Example example_empty_hint :
  fst (current_user_id "tok" (Some "") example_world) = inr "alice"
  /\ current_user_id "new" (Some "") (boot example_clock)
     = (inl unauthenticated, boot example_clock).
Proof. split; vm_compute; reflexivity. Qed.

(* ===================================================================== *)
(** * The finished archive *)
(* ===================================================================== *)

Lemma find_summary_Some (sid : string) (items : list Summary) (s : Summary) :
  find_summary sid items = Some s -> s ∈ items /\ session_id s = sid.
Proof.
  induction items as [|x rest IH]; simpl; [discriminate|].
  destruct (String.eqb_spec (session_id x) sid) as [Heq|Hne].
  - intros H. injection H as <-. split; [left|exact Heq].
  - intros H. destruct (IH H) as [Hin Hs]. split; [now right|exact Hs].
Qed.

Lemma find_summary_None (sid : string) (items : list Summary) :
  find_summary sid items = None <-> (forall s, s ∈ items -> session_id s <> sid).
Proof.
  induction items as [|x rest IH]; simpl.
  - split; [|reflexivity]. intros _ s Hs. inversion Hs.
  - destruct (String.eqb_spec (session_id x) sid) as [Heq|Hne].
    + split; [discriminate|]. intros H. exfalso. apply (H x); [left|exact Heq].
    + rewrite IH. split.
      * intros H s Hs. apply elem_of_cons in Hs as [->|Hs]; auto.
      * intros H s Hs. apply H. now right.
Qed.

Lemma find_index_Some (sid : string) (items : list Summary) (base i : nat) :
  find_index sid base items = Some i ->
  exists old, (base <= i)%nat /\ items !! (i - base)%nat = Some old
              /\ session_id old = sid
              /\ forall j s, (j < i - base)%nat -> items !! j = Some s -> session_id s <> sid.
Proof.
  revert base. induction items as [|x rest IH]; intros base; simpl; [discriminate|].
  destruct (String.eqb_spec (session_id x) sid) as [Heq|Hne].
  - intros H. injection H as <-. exists x. rewrite Nat.sub_diag.
    repeat split; auto. intros j s Hj. lia.
  - intros H. destruct (IH _ H) as (old & Hle & Hold & Hsid & Hbefore).
    exists old. split; [lia|].
    replace (i - base)%nat with (S (i - S base)) by lia.
    repeat split; auto.
    intros [|j] s Hj Hs; simpl in Hs.
    + injection Hs as <-. exact Hne.
    + apply (Hbefore j); [lia|exact Hs].
Qed.

Lemma find_index_None (sid : string) (items : list Summary) (base : nat) :
  find_index sid base items = None <-> (forall s, s ∈ items -> session_id s <> sid).
Proof.
  revert base. induction items as [|x rest IH]; intros base; simpl.
  - split; [|reflexivity]. intros _ s Hs. inversion Hs.
  - destruct (String.eqb_spec (session_id x) sid) as [Heq|Hne].
    + split; [discriminate|]. intros H. exfalso. apply (H x); [left|exact Heq].
    + rewrite IH. split.
      * intros H s Hs. apply elem_of_cons in Hs as [->|Hs]; auto.
      * intros H s Hs. apply H. now right.
Qed.

(** Replacing an entry by one with the same id leaves the ids as they were. *)
Lemma insert_same_id (items : list Summary) (i : nat) (old new : Summary) :
  items !! i = Some old -> session_id new = session_id old ->
  map session_id (<[i := new]> items) = map session_id items.
Proof.
  revert i. induction items as [|x rest IH]; intros [|i] Hold Hid; simpl in *;
    try discriminate.
  - injection Hold as ->. now rewrite Hid.
  - f_equal. now apply IH.
Qed.

Lemma upsert_existing (sid : string) (new : Summary) (items : list Summary) :
  session_id new = sid ->
  (exists old, old ∈ items /\ session_id old = sid) ->
  exists i old, items !! i = Some old /\ session_id old = sid
    /\ (forall j s, (j < i)%nat -> items !! j = Some s -> session_id s <> sid)
    /\ upsert sid new items = <[i := new]> items
    /\ length (upsert sid new items) = length items
    /\ map session_id (upsert sid new items) = map session_id items.
Proof.
  intros Hnew (old & Hin & Hold). unfold upsert.
  destruct (find_index sid 0 items) as [i|] eqn:Hfind.
  - destruct (find_index_Some _ _ _ _ Hfind) as (o & _ & Ho & Hsid & Hbefore).
    rewrite Nat.sub_0_r in *.
    exists i, o. repeat split; auto.
    + apply length_insert.
    + apply (insert_same_id _ _ o); congruence.
  - exfalso. rewrite find_index_None in Hfind. now apply (Hfind old).
Qed.

Lemma upsert_fresh (sid : string) (new : Summary) (items : list Summary) :
  (forall old, old ∈ items -> session_id old <> sid) ->
  upsert sid new items = items ++ [new].
Proof.
  intros Hnone. unfold upsert.
  apply find_index_None with (base := 0%nat) in Hnone. now rewrite Hnone.
Qed.

Lemma upsert_NoDup (sid : string) (new : Summary) (items : list Summary) :
  session_id new = sid ->
  NoDup (map session_id items) -> NoDup (map session_id (upsert sid new items)).
Proof.
  intros Hnew Hnd.
  destruct (find_summary sid items) as [old|] eqn:Hfind.
  - apply find_summary_Some in Hfind.
    destruct (upsert_existing sid new items Hnew) as (i & o & _ & _ & _ & _ & _ & ->);
      [now exists old|exact Hnd].
  - rewrite find_summary_None in Hfind.
    rewrite upsert_fresh by exact Hfind.
    rewrite map_app. simpl. apply NoDup_app. repeat split.
    + exact Hnd.
    + intros x Hx Hx'. apply list_elem_of_singleton in Hx'. subst x.
      apply list_elem_of_fmap in Hx as (s & Hs & Hin).
      apply (Hfind s Hin). congruence.
    + apply NoDup_singleton.
Qed.

(** After an upsert the archive answers a lookup for [sid] with the new
    entry. *)
Lemma find_summary_upsert (sid : string) (new : Summary) (items : list Summary) :
  session_id new = sid -> find_summary sid (upsert sid new items) = Some new.
Proof.
  intros Hnew. unfold upsert.
  assert (Hgen : forall base,
             find_summary sid
               (match find_index sid base items with
                | Some i => <[(i - base)%nat := new]> items
                | None => items ++ [new]
                end) = Some new).
  { induction items as [|x rest IH]; intros base; simpl.
    - rewrite <- Hnew, String.eqb_refl. reflexivity.
    - destruct (String.eqb_spec (session_id x) sid) as [Heq|Hne].
      + rewrite Nat.sub_diag. simpl. rewrite <- Hnew, String.eqb_refl. reflexivity.
      + specialize (IH (S base)).
        destruct (find_index sid (S base) rest) as [i|] eqn:Hfind.
        * apply find_index_Some in Hfind as (_ & Hle & _).
          replace (i - base)%nat with (S (i - S base)) by lia.
          simpl. apply String.eqb_neq in Hne. rewrite Hne. exact IH.
        * simpl. apply String.eqb_neq in Hne. rewrite Hne. exact IH. }
  specialize (Hgen 0%nat).
  destruct (find_index sid 0 items); [now rewrite Nat.sub_0_r in Hgen|exact Hgen].
Qed.

(** C6: upserting a summary for session [sid].  If the archive already has
    an entry for [sid], the first such entry is overwritten in place: same
    length, same ids at the same positions.  If it has none, the summary is
    appended.  An archive with at most one entry per session id stays so. *)
Theorem upsert_replaces_or_appends (sid : string) (new : Summary)
        (items : list Summary) :
  session_id new = sid ->
  ((exists old, old ∈ items /\ session_id old = sid) ->
   exists i old, items !! i = Some old /\ session_id old = sid
     /\ upsert sid new items = <[i := new]> items
     /\ length (upsert sid new items) = length items
     /\ map session_id (upsert sid new items) = map session_id items)
  /\ ((forall old, old ∈ items -> session_id old <> sid) ->
      upsert sid new items = items ++ [new]
      /\ length (upsert sid new items) = S (length items))
  /\ (NoDup (map session_id items) ->
      NoDup (map session_id (upsert sid new items)))
  /\ find_summary sid (upsert sid new items) = Some new.
Proof.
  intros Hnew. repeat apply conj.
  - intros Hex.
    destruct (upsert_existing sid new items Hnew Hex)
      as (i & old & H1 & H2 & _ & H3 & H4 & H5).
    exists i, old. auto.
  - intros Hnone. rewrite (upsert_fresh sid new items Hnone).
    split; [reflexivity|]. rewrite length_app. simpl. lia.
  - now apply upsert_NoDup.
  - now apply find_summary_upsert.
Qed.

Lemma upsert_replaces_or_appends_witness :
  session_id example_summary_later = "s1"
  /\ (((exists old, old ∈ [example_summary_other; example_summary]
                    /\ session_id old = "s1") ->
       exists i old, [example_summary_other; example_summary] !! i = Some old
         /\ session_id old = "s1"
         /\ upsert "s1" example_summary_later [example_summary_other; example_summary]
            = <[i := example_summary_later]> [example_summary_other; example_summary]
         /\ length (upsert "s1" example_summary_later
                           [example_summary_other; example_summary])
            = length [example_summary_other; example_summary]
         /\ map session_id (upsert "s1" example_summary_later
                                   [example_summary_other; example_summary])
            = map session_id [example_summary_other; example_summary])
      /\ ((forall old, old ∈ [example_summary_other; example_summary] ->
           session_id old <> "s1") ->
          upsert "s1" example_summary_later [example_summary_other; example_summary]
          = [example_summary_other; example_summary] ++ [example_summary_later]
          /\ length (upsert "s1" example_summary_later
                            [example_summary_other; example_summary])
             = S (length [example_summary_other; example_summary]))
      /\ (NoDup (map session_id [example_summary_other; example_summary]) ->
          NoDup (map session_id (upsert "s1" example_summary_later
                                        [example_summary_other; example_summary])))
      /\ find_summary "s1" (upsert "s1" example_summary_later
                                   [example_summary_other; example_summary])
         = Some example_summary_later).
Proof.
  split; [reflexivity|].
  apply (upsert_replaces_or_appends "s1" example_summary_later
           [example_summary_other; example_summary]).
  reflexivity.
Defined.

Example example_upsert :
  upsert "s1" example_summary_later [example_summary_other; example_summary]
  = [example_summary_other; example_summary_later]
  /\ upsert "s1" example_summary [example_summary_other]
     = [example_summary_other; example_summary].
Proof. split; reflexivity. Qed.

(** ** The order on strings *)

Lemma ascii_compare_trans (a b c : ascii) :
  Ascii.compare a b = Lt -> Ascii.compare b c = Lt -> Ascii.compare a c = Lt.
Proof.
  unfold Ascii.compare. rewrite !N.compare_lt_iff. apply N.lt_trans.
Qed.

Lemma string_compare_trans (a b c : string) :
  String.compare a b = Lt -> String.compare b c = Lt -> String.compare a c = Lt.
Proof.
  revert b c. induction a as [|x a IH]; intros [|y b] [|z c]; simpl;
    try discriminate; try reflexivity.
  destruct (Ascii.compare x y) eqn:Hxy; try discriminate.
  - apply Ascii.compare_eq_iff in Hxy. subst y.
    destruct (Ascii.compare x z) eqn:Hxz; try discriminate; auto.
    apply IH.
  - intros _. destruct (Ascii.compare y z) eqn:Hyz; try discriminate.
    + apply Ascii.compare_eq_iff in Hyz. subst z. now rewrite Hxy.
    + intros _. now rewrite (ascii_compare_trans x y z).
Qed.

Lemma string_leb_refl (a : string) : String.leb a a = true.
Proof.
  unfold String.leb.
  assert (H : String.compare a a = Eq).
  { induction a as [|x a IH]; simpl; [reflexivity|].
    assert (Hx : Ascii.compare x x = Eq) by (unfold Ascii.compare; apply N.compare_refl).
    now rewrite Hx. }
  now rewrite H.
Qed.

Lemma string_ltb_false_leb (a b : string) :
  String.ltb a b = false -> String.leb b a = true.
Proof.
  unfold String.ltb, String.leb. rewrite (String.compare_antisym b a).
  destruct (String.compare a b); simpl; congruence.
Qed.

Lemma string_ltb_leb (a b : string) : String.ltb a b = true -> String.leb a b = true.
Proof. unfold String.ltb, String.leb. destruct (String.compare a b); congruence. Qed.

Lemma string_leb_trans (a b c : string) :
  String.leb a b = true -> String.leb b c = true -> String.leb a c = true.
Proof.
  unfold String.leb.
  destruct (String.compare a b) eqn:Hab; try discriminate; intros _.
  - apply String.compare_eq_iff in Hab. now subst b.
  - destruct (String.compare b c) eqn:Hbc; try discriminate; intros _.
    + apply String.compare_eq_iff in Hbc. subst c. now rewrite Hab.
    + now rewrite (string_compare_trans a b c).
Qed.

Lemma end_time_key_eq (s : Summary) : end_time_key s = end_time s.
Proof.
  unfold end_time_key. destruct (str_truthy (end_time s)) eqn:H; [reflexivity|].
  apply str_truthy_false in H. now rewrite H.
Qed.

(** [max] returns an item of the list whose key no other item exceeds. *)
Lemma max_from_greatest (items : list Summary) (best : Summary) :
  max_from best items ∈ best :: items
  /\ String.leb (end_time best) (end_time (max_from best items)) = true
  /\ forall s, s ∈ items ->
       String.leb (end_time s) (end_time (max_from best items)) = true.
Proof.
  revert best. induction items as [|x rest IH]; intros best; simpl.
  - repeat split; [left|apply string_leb_refl|]. intros s Hs. inversion Hs.
  - rewrite !end_time_key_eq.
    destruct (String.ltb (end_time best) (end_time x)) eqn:Hlt.
    + destruct (IH x) as (Hin & Hx & Hall). repeat split.
      * now right.
      * apply string_ltb_leb in Hlt. eapply string_leb_trans; eassumption.
      * intros s Hs. apply elem_of_cons in Hs as [->|Hs]; auto.
    + destruct (IH best) as (Hin & Hb & Hall). repeat split.
      * apply elem_of_cons in Hin as [->|Hin]; [left|right; now right].
      * exact Hb.
      * intros s Hs. apply elem_of_cons in Hs as [->|Hs]; auto.
        apply string_ltb_false_leb in Hlt. eapply string_leb_trans; eassumption.
Qed.

(** C8: once the caller is identified, [get_latest] never fails.  On an
    empty archive for that user it answers [ok = false] with no summary;
    otherwise it answers with an archived summary whose [end_time] is
    lexicographically greatest among that user's summaries. *)
Theorem get_latest_contract (w w1 : World) (token : string) (hint : option string)
        (user : string) :
  current_user_id token hint w = (inr user, w1) ->
  exists r, get_latest token hint w = (inr r, w1)
    /\ match finished_lookup user w1 with
       | [] =>
           r = mkLatestResponse false None
                 (Some "No session summary found for this user.")
       | _ :: _ =>
           exists best, r = mkLatestResponse true (Some best) None
             /\ best ∈ finished_lookup user w1
             /\ forall s, s ∈ finished_lookup user w1 ->
                  String.leb (end_time s) (end_time best) = true
       end.
Proof.
  intros Hid. unfold get_latest, bind, gets. rewrite Hid.
  destruct (finished_lookup user w1) as [|first rest] eqn:Hitems.
  - eexists. split; reflexivity.
  - eexists. split; [reflexivity|].
    exists (max_from first rest).
    destruct (max_from_greatest rest first) as (Hin & Hfirst & Hall).
    repeat split; [exact Hin|].
    intros s Hs. apply elem_of_cons in Hs as [->|Hs]; auto.
Qed.

Lemma get_latest_contract_witness :
  current_user_id "tok" None example_ended_world = (inr "alice", example_ended_world)
  /\ exists r, get_latest "tok" None example_ended_world = (inr r, example_ended_world)
       /\ match finished_lookup "alice" example_ended_world with
          | [] =>
              r = mkLatestResponse false None
                    (Some "No session summary found for this user.")
          | _ :: _ =>
              exists best, r = mkLatestResponse true (Some best) None
                /\ best ∈ finished_lookup "alice" example_ended_world
                /\ forall s, s ∈ finished_lookup "alice" example_ended_world ->
                     String.leb (end_time s) (end_time best) = true
          end.
Proof.
  split.
  - vm_compute. reflexivity.
  - apply (get_latest_contract example_ended_world example_ended_world "tok" None "alice").
    vm_compute. reflexivity.
Defined.

Example example_latest :
  fst (get_latest "tok" None example_ended_world)
  = inr (mkLatestResponse true (Some example_summary) None)
  /\ fst (get_latest "tok" None example_world)
     = inr (mkLatestResponse false None (Some "No session summary found for this user.")).
Proof. split; vm_compute; reflexivity. Qed.

Example example_latest_picks_greatest :
  max_from example_summary_other [example_summary; example_summary_later]
  = example_summary.
Proof. vm_compute. reflexivity. Qed.

(* ===================================================================== *)
(** * Export *)
(* ===================================================================== *)

Lemma opt_truthy_Some (o : option string) :
  opt_truthy o = true <-> exists s, o = Some s /\ s <> "".
Proof.
  destruct o as [s|]; simpl.
  - rewrite str_truthy_true. split; [eauto|]. intros (x & [= <-] & H). exact H.
  - split; [discriminate|]. intros (x & H & _). discriminate.
Qed.

(** [session_id or legacy_sess_id]: the first non-empty one. *)
Lemma py_or_first_nonempty (a b : option string) :
  (forall s, a = Some s -> s <> "" -> py_or a b = Some s)
  /\ (absent a -> py_or a b = b).
Proof.
  unfold py_or. split.
  - intros s -> Hs. apply str_truthy_true in Hs. simpl. now rewrite Hs.
  - intros [-> | ->]; reflexivity.
Qed.

Lemma export_session_identified (fromisoformat : string -> option datetime)
      (w w1 : World) (token : string) (hint sid legacy : option string) (user : string) :
  current_user_id token hint w = (inr user, w1) ->
  export_session fromisoformat token hint sid legacy w
  = if opt_truthy (py_or sid legacy) then
      match find_summary (default "" (py_or sid legacy)) (finished_lookup user w1) with
      | Some s => JSONResponse s w1
      | None =>
          bind (compute_summary fromisoformat user (default "" (py_or sid legacy)))
               JSONResponse w1
      end
    else (inl invalid_argument, w1).
Proof.
  intros Hid. unfold export_session, bind. rewrite Hid.
  destruct (opt_truthy (py_or sid legacy)); simpl; [|reflexivity].
  unfold gets. destruct (find_summary _ _); reflexivity.
Qed.

(** C7, on the code: two bets of 1e308 are accepted, and their sum is
    infinite.  [compute_summary] returns a summary for the session and
    [end_session] archives one, but [export_session] raises [ValueError]
    from [JSONResponse] instead of returning it, both while the session is
    only active and after it is archived. *)
Theorem export_session_fails_on_overflow :
  fst (handle fromisoformat_std
         (RecordEvent "tok" (Some "alice")
            (mkEventIn "s1" "bet" 1e308 (Some "2026-02-12T14:05:00Z")))
         (boot example_clock))
  = inr (Message "Event recorded")
  /\ fst (handle fromisoformat_std
            (RecordEvent "tok" None
               (mkEventIn "s1" "bet" 1e308 (Some "2026-02-12T14:06:00Z")))
            (serve fromisoformat_std (firstn 1 overflow_requests) (boot example_clock)))
     = inr (Message "Event recorded")
  /\ (exists s,
        fst (compute_summary fromisoformat_std "alice" "s1" overflow_world) = inr s
        /\ total_bets s = PyFloat infinity)
  /\ fst (export_session fromisoformat_std "tok" None (Some "s1") None overflow_world)
     = inl ValueError
  /\ (exists s,
        fst (end_session fromisoformat_std "tok" None "s1" overflow_world) = inr s
        /\ find_summary "s1" (finished_lookup "alice" overflow_ended_world) = Some s
        /\ total_bets s = PyFloat infinity)
  /\ fst (export_session fromisoformat_std "tok" None (Some "s1") None
            overflow_ended_world)
     = inl ValueError.
Proof.
  split; [vm_compute; reflexivity|].
  split; [vm_compute; reflexivity|].
  split; [eexists; split; [vm_compute; reflexivity|reflexivity]|].
  split; [vm_compute; reflexivity|].
  split; [|vm_compute; reflexivity].
  eexists. split; [vm_compute; reflexivity|].
  split; [vm_compute; reflexivity|reflexivity].
Qed.

(** X28: what [export_session] answers once the caller is identified.  It
    takes the session id from [session_id] if that is non-empty and else
    from [sess_id]; with no non-empty id it fails with 400.  If the user's
    archive has a summary with that id, that summary goes to
    [JSONResponse], whatever the active sessions are; if not, what
    [compute_summary] returns goes there, and its failure is the answer,
    which is 404 when there is no active session with that id either.
    [JSONResponse] returns a summary whose three numbers are finite as it
    is, and raises [ValueError] on any other. *)
Theorem export_session_contract (fromisoformat : string -> option datetime)
        (w w1 : World) (token : string) (hint sid legacy : option string)
        (user : string) :
  current_user_id token hint w = (inr user, w1) ->
  let export := export_session fromisoformat token hint sid legacy w in
  (forall s, sid = Some s -> s <> "" -> py_or sid legacy = Some s)
  /\ (absent sid -> py_or sid legacy = legacy)
  /\ (absent (py_or sid legacy) -> export = (inl invalid_argument, w1))
  /\ (forall id, py_or sid legacy = Some id -> id <> "" ->
      ((exists s, s ∈ finished_lookup user w1 /\ session_id s = id) ->
       exists s, s ∈ finished_lookup user w1 /\ session_id s = id
                 /\ export = (if json_compliant s then inr s else inl ValueError, w1))
      /\ ((forall s, s ∈ finished_lookup user w1 -> session_id s <> id) ->
          (session_lookup user id w1 = None -> export = (inl not_found, w1))
          /\ (forall e w', compute_summary fromisoformat user id w1 = (inl e, w') ->
                export = (inl e, w'))
          /\ (forall s w', compute_summary fromisoformat user id w1 = (inr s, w') ->
                export = (if json_compliant s then inr s else inl ValueError, w')))).
Proof.
  intros Hid export.
  destruct (py_or_first_nonempty sid legacy) as [Hfirst Hsecond].
  split; [exact Hfirst|]. split; [exact Hsecond|].
  subst export. rewrite (export_session_identified _ _ _ _ _ _ _ _ Hid).
  assert (Hjson : forall s w0,
            JSONResponse s w0 = (if json_compliant s then inr s else inl ValueError, w0)).
  { intros s w0. unfold JSONResponse. now destruct (json_compliant s). }
  split.
  - intros [-> | ->]; reflexivity.
  - intros id -> Hne. apply str_truthy_true in Hne as Htruthy.
    change (opt_truthy (Some id)) with (str_truthy id). rewrite Htruthy.
    change (default "" (Some id)) with id. split.
    + intros (s & Hin & Hs).
      destruct (find_summary id (finished_lookup user w1)) as [found|] eqn:Hfind.
      * apply find_summary_Some in Hfind as [Hin' Hid'].
        exists found. split; [exact Hin'|]. split; [exact Hid'|apply Hjson].
      * exfalso. rewrite find_summary_None in Hfind. now apply (Hfind s).
    + intros Hnone. apply find_summary_None in Hnone as Hfind. rewrite Hfind.
      split; [|split].
      * intros Hnoact. unfold compute_summary, bind, gets. rewrite Hnoact, Hfind.
        reflexivity.
      * intros e w' Hc. unfold bind. now rewrite Hc.
      * intros s w' Hc. unfold bind. rewrite Hc. apply Hjson.
Qed.

Lemma export_session_contract_witness :
  current_user_id "tok" None example_ended_world = (inr "alice", example_ended_world)
  /\ let export :=
       export_session fromisoformat_std "tok" None (Some "") (Some "s1")
                      example_ended_world in
     (forall s, Some "" = Some s -> s <> "" -> py_or (Some "") (Some "s1") = Some s)
     /\ (absent (Some "") -> py_or (Some "") (Some "s1") = Some "s1")
     /\ (absent (py_or (Some "") (Some "s1")) ->
         export = (inl invalid_argument, example_ended_world))
     /\ (forall id, py_or (Some "") (Some "s1") = Some id -> id <> "" ->
         ((exists s, s ∈ finished_lookup "alice" example_ended_world
                     /\ session_id s = id) ->
          exists s, s ∈ finished_lookup "alice" example_ended_world
                    /\ session_id s = id
                    /\ export = (if json_compliant s then inr s else inl ValueError,
                                 example_ended_world))
         /\ ((forall s, s ∈ finished_lookup "alice" example_ended_world ->
              session_id s <> id) ->
             (session_lookup "alice" id example_ended_world = None ->
              export = (inl not_found, example_ended_world))
             /\ (forall e w',
                   compute_summary fromisoformat_std "alice" id example_ended_world
                   = (inl e, w') ->
                   export = (inl e, w'))
             /\ (forall s w',
                   compute_summary fromisoformat_std "alice" id example_ended_world
                   = (inr s, w') ->
                   export = (if json_compliant s then inr s else inl ValueError, w')))).
Proof.
  assert (Hid : current_user_id "tok" None example_ended_world
                = (inr "alice", example_ended_world)) by (vm_compute; reflexivity).
  split; [exact Hid|].
  exact (export_session_contract fromisoformat_std example_ended_world
           example_ended_world "tok" None (Some "") (Some "s1") "alice" Hid).
Defined.

(** The specification's examples: an unknown session id gives 404, a
    missing id gives 400, a finished session is returned as archived, and
    an active one is computed. *)
Example example_export :
  fst (export_session fromisoformat_std "tok" None (Some "nope") None example_ended_world)
  = inl not_found
  /\ fst (export_session fromisoformat_std "tok" None None (Some "") example_ended_world)
     = inl invalid_argument
  /\ fst (export_session fromisoformat_std "tok" None None (Some "s1") example_ended_world)
     = inr example_summary
  /\ fst (export_session fromisoformat_std "tok" None (Some "s1") (Some "zz") example_world)
     = fst (compute_summary fromisoformat_std "alice" "s1" example_world).
Proof. repeat split; vm_compute; reflexivity. Qed.

(* ===================================================================== *)
(** * Persistence *)
(* ===================================================================== *)

Lemma json_to_num_to_json (x : pynum) : json_to_num (num_to_json x) = Some x.
Proof. destruct x; reflexivity. Qed.

Lemma summary_of_json_to_json (s : Summary) :
  summary_of_json (summary_to_json s) = Some s.
Proof.
  destruct s as [sid uid st en r tb tw nc]. destruct tb, tw, nc; reflexivity.
Qed.

Lemma summaries_of_json_to_json (l : list Summary) :
  summaries_of_json (map summary_to_json l) = Some l.
Proof.
  induction l as [|s rest IH]; [reflexivity|].
  cbn [map summaries_of_json]. now rewrite summary_of_json_to_json, IH.
Qed.

(** Reading back the members written for an association list inserts them
    one after the other. *)
Lemma finished_of_members_encoded (l : list (string * list Summary))
      (acc : gmap string (list Summary)) :
  finished_of_members acc
    (map (fun kv => (fst kv, JArray (map summary_to_json (snd kv)))) l)
  = Some (fold_left (fun m kv => <[fst kv := snd kv]> m) l acc).
Proof.
  revert acc. induction l as [|[k v] rest IH]; intros acc; [reflexivity|].
  cbn [map fold_left finished_of_members fst snd].
  rewrite summaries_of_json_to_json. apply IH.
Qed.

Lemma fold_left_insert_list_to_map (l : list (string * list Summary)) :
  fold_left (fun m kv => <[fst kv := snd kv]> m) l (∅ : gmap string (list Summary))
  = list_to_map (reverse l).
Proof.
  induction l as [|[k v] rest IH] using rev_ind; [reflexivity|].
  rewrite fold_left_app, reverse_snoc. simpl. now rewrite IH.
Qed.

Lemma finished_of_json_to_json (fin : gmap string (list Summary)) :
  match finished_to_json fin with
  | JObject members => finished_of_members ∅ members
  | _ => None
  end = Some fin.
Proof.
  unfold finished_to_json. rewrite finished_of_members_encoded.
  rewrite fold_left_insert_list_to_map. f_equal.
  rewrite <- (list_to_map_to_list fin) at 2.
  apply list_to_map_proper.
  - rewrite fmap_reverse, reverse_Permutation. apply NoDup_fst_map_to_list.
  - apply reverse_Permutation.
Qed.

Lemma load_finished_written (w : World) (fin : gmap string (list Summary)) :
  files w !! DATA_FILE = Some (Parsed (finished_to_json fin)) ->
  load_finished w = Some (set_FINISHED fin w).
Proof.
  intros Hfile. unfold load_finished. rewrite Hfile.
  pose proof (finished_of_json_to_json fin) as Hdec.
  destruct (finished_to_json fin); try discriminate.
  now rewrite Hdec.
Qed.

(** C9: saving the archive and loading it back, in the same process or in
    a fresh one started on the same disk, gives the archive that was saved:
    the same summaries for the same users, every field equal, an [int]
    still an [int] and a [float] still the same [float]. *)
Theorem save_then_load_roundtrip (w : World) :
  files (snd (save_finished w)) !! DATA_FILE
  = Some (Parsed (finished_to_json (FINISHED w)))
  /\ (exists w', load_finished (snd (save_finished w)) = Some w'
                 /\ FINISHED w' = FINISHED w)
  /\ (exists w', restart (snd (save_finished w)) = Some w'
                 /\ FINISHED w' = FINISHED w).
Proof.
  assert (Hfile : files (snd (save_finished w)) !! DATA_FILE
                  = Some (Parsed (finished_to_json (FINISHED w)))).
  { unfold save_finished, modify. simpl. apply lookup_insert_eq. }
  split; [exact Hfile|]. split.
  - eexists. split; [apply load_finished_written, Hfile|reflexivity].
  - eexists. split; [apply load_finished_written, Hfile|reflexivity].
Qed.

(** Beside the round trip: what [load_finished] does with a missing file,
    an unreadable one, and a document that is no object. *)
Lemma load_finished_degrades (w : World) :
  (files w !! DATA_FILE = None \/ files w !! DATA_FILE = Some Unparseable
   \/ exists j, files w !! DATA_FILE = Some (Parsed j)
                /\ forall members, j <> JObject members) ->
  load_finished w = Some (set_FINISHED ∅ w).
Proof.
  unfold load_finished. intros [-> | [-> | (j & -> & Hj)]]; try reflexivity.
  destruct j; try reflexivity. exfalso. now apply (Hj l).
Qed.

Example example_roundtrip :
  option_map FINISHED (restart example_ended_world)
  = Some (FINISHED example_ended_world)
  /\ FINISHED example_ended_world !! "alice" = Some [example_summary].
Proof. split; vm_compute; reflexivity. Qed.

Example example_roundtrip_keeps_number_kinds :
  summary_of_json (summary_to_json example_summary_later) = Some example_summary_later
  /\ total_bets example_summary_later = PyFloat 17.5
  /\ total_wins example_summary_later = PyInt 15.
Proof. repeat split. Qed.

(* ===================================================================== *)
(** * Ending a session *)
(* ===================================================================== *)

(** [current_user_id], run. *)
Lemma current_user_id_run (w : World) (token : string) (hint : option string) :
  current_user_id token hint w
  = let first_time :=
      match hint with
      | Some h =>
          if str_truthy h
          then (inr h, set_TOKEN_USER (<[token := h]> (TOKEN_USER w)) w)
          else (inl unauthenticated, w)
      | None => (inl unauthenticated, w)
      end in
    match TOKEN_USER w !! token with
    | Some bound =>
        if str_truthy bound then
          match hint with
          | Some h =>
              if str_truthy h && negb (String.eqb h bound)
              then (inl forbidden, w) else (inr bound, w)
          | None => (inr bound, w)
          end
        else first_time
    | None => first_time
    end.
Proof.
  unfold current_user_id, bind, gets. cbv zeta.
  destruct (TOKEN_USER w !! token) as [bound|].
  - destruct (str_truthy bound).
    + destruct hint as [h|]; [|reflexivity].
      destruct (str_truthy h && negb (String.eqb h bound)); reflexivity.
    + destruct hint as [h|]; [|reflexivity]. destruct (str_truthy h); reflexivity.
  - destruct hint as [h|]; [|reflexivity]. destruct (str_truthy h); reflexivity.
Qed.

(** What a successful identity resolution establishes. *)
Lemma current_user_id_returns (w w' : World) (token : string) (hint : option string)
      (user : string) :
  current_user_id token hint w = (inr user, w') ->
  TOKEN_USER w' !! token = Some user /\ user <> ""
  /\ (absent hint \/ hint = Some user)
  /\ ACTIVE w' = ACTIVE w /\ FINISHED w' = FINISHED w /\ files w' = files w
  /\ clock w' = clock w /\ ticks w' = ticks w.
Proof.
  rewrite current_user_id_run. cbv zeta.
  assert (Hfirst :
    match hint with
    | Some h =>
        if str_truthy h
        then (inr h, set_TOKEN_USER (<[token := h]> (TOKEN_USER w)) w)
        else (inl unauthenticated, w)
    | None => (inl unauthenticated, w)
    end = (inr user, w') ->
    TOKEN_USER w' !! token = Some user /\ user <> ""
    /\ (absent hint \/ hint = Some user)
    /\ ACTIVE w' = ACTIVE w /\ FINISHED w' = FINISHED w /\ files w' = files w
    /\ clock w' = clock w /\ ticks w' = ticks w).
  { destruct hint as [h|]; [|discriminate].
    destruct (str_truthy h) eqn:Hh; [|discriminate].
    apply str_truthy_true in Hh. intros H. injection H as <- <-.
    repeat split; auto. apply lookup_insert_eq. }
  destruct (TOKEN_USER w !! token) as [bound|] eqn:Hlook; [|exact Hfirst].
  destruct (str_truthy bound) eqn:Hb; [|exact Hfirst].
  apply str_truthy_true in Hb.
  destruct hint as [h|].
  - destruct (str_truthy h && negb (String.eqb h bound)) eqn:Hc; [discriminate|].
    intros H. injection H as <- <-. repeat split; auto.
    apply andb_false_iff in Hc as [Hc|Hc].
    + apply str_truthy_false in Hc. subst h. left. now right.
    + apply negb_false_iff, String.eqb_eq in Hc. subst h. now right.
  - intros H. injection H as <- <-. repeat split; auto. left. now left.
Qed.

(** The same caller, once identified, is identified again and the state is
    left alone. *)
Lemma current_user_id_again (w : World) (token : string) (hint : option string)
      (user : string) :
  TOKEN_USER w !! token = Some user -> user <> "" ->
  absent hint \/ hint = Some user ->
  current_user_id token hint w = (inr user, w).
Proof. apply current_user_id_known_same. Qed.

Lemma derive_times_any_world (sess : Session) (ts : list datetime) (w w2 : World) :
  fst (derive_times sess ts w2) = fst (derive_times sess ts w)
  /\ snd (derive_times sess ts w2) = w2.
Proof.
  unfold derive_times. destruct ts as [|t rest]; [split; reflexivity|].
  destruct (sort_datetimes (t :: rest)) as [sorted|]; [|split; reflexivity].
  destruct (head sorted), (last sorted), (sess_end_time sess); split; reflexivity.
Qed.

(** With a stored [end_time], the summary's [end_time] is the stored one. *)
Lemma derive_times_stored_end (sess : Session) (ts : list datetime) (w w' : World)
      (times : option string * option string) (e : string) :
  sess_end_time sess = Some e ->
  derive_times sess ts w = (inr times, w') -> snd times = Some e.
Proof.
  intros He. unfold derive_times. destruct ts as [|t rest].
  - intros H. injection H as <- <-. exact He.
  - destruct (sort_datetimes (t :: rest)) as [sorted|]; [|discriminate].
    destruct (head sorted), (last sorted); try discriminate.
    rewrite He. intros H. injection H as <- <-. reflexivity.
Qed.

Lemma or_now_stored (e : string) (w : World) :
  e <> "" -> or_now (Some e) w = (inr e, w).
Proof.
  intros He. apply str_truthy_true in He. unfold or_now. simpl. now rewrite He.
Qed.

Lemma set_end_time_lookup (user sid now : string) (sess : Session) (w : World) :
  session_lookup user sid w = Some sess ->
  session_lookup user sid (set_end_time user sid now w)
  = Some (mkSession (sess_start_time sess) (Some now) (sess_events sess)).
Proof.
  unfold session_lookup, set_end_time. intros H. rewrite H. simpl.
  rewrite lookup_insert_eq. simpl. apply lookup_insert_eq.
Qed.

Lemma store_finished_lookup (user sid : string) (new : Summary) (w : World) :
  finished_lookup user (store_finished user sid new w)
  = upsert sid new (finished_lookup user w).
Proof.
  unfold finished_lookup at 1, store_finished. simpl. now rewrite lookup_insert_eq.
Qed.

Lemma store_finished_other (user other sid : string) (new : Summary) (w : World) :
  other <> user ->
  finished_lookup other (store_finished user sid new w) = finished_lookup other w.
Proof.
  intros Hne. unfold finished_lookup, store_finished. simpl.
  now rewrite lookup_insert_ne.
Qed.

Section EndSession.

Variable fromisoformat : string -> option datetime.

(** The steps of a successful [end_session]. *)
Lemma end_session_returns (token : string) (hint : option string) (sid : string)
      (w w' : World) (s : Summary) :
  end_session fromisoformat token hint sid w = (inr s, w') ->
  exists user wa sess wb wc,
    current_user_id token hint w = (inr user, wa)
    /\ session_lookup user sid wa = Some sess
    /\ match sess_end_time sess with
       | None => exists now, now <> ""
                   /\ wb = set_end_time user sid now (tick wa)
       | Some _ => wb = wa
       end
    /\ compute_summary fromisoformat user sid wb = (inr s, wc)
    /\ w' = snd (save_finished (store_finished user sid s wc)).
Proof.
  unfold end_session. unfold bind at 1.
  destruct (current_user_id token hint w) as [[e|user] wa] eqn:Hid; [discriminate|].
  unfold bind at 1. unfold gets at 1.
  destruct (session_lookup user sid wa) as [sess|] eqn:Hsess; [|discriminate].
  intros H. exists user, wa, sess.
  unfold bind at 1 in H.
  destruct (sess_end_time sess) as [e|] eqn:Hend.
  - unfold ret at 1 in H. unfold bind at 1 in H.
    destruct (compute_summary fromisoformat user sid wa) as [[e'|new] wc] eqn:Hc;
      [discriminate|].
    exists wa, wc. unfold bind, modify, ret in H. simpl in H.
    injection H as <- <-. repeat split; try reflexivity; try assumption.
  - destruct (now_iso_returns wa) as (now & Hnow & Hne).
    unfold bind at 1 in H. rewrite Hnow in H. unfold modify at 1 in H.
    unfold bind at 1 in H.
    destruct (compute_summary fromisoformat user sid _) as [[e'|new] wc] eqn:Hc;
      [discriminate|].
    exists (set_end_time user sid now (tick wa)), wc.
    unfold bind, modify, ret in H. simpl in H.
    injection H as <- <-. repeat split; try reflexivity; try assumption.
    exists now. split; [now apply str_truthy_true|reflexivity].
Qed.

(** Conversely: the steps, when they succeed, make up the call. *)
Lemma end_session_ended (token : string) (hint : option string) (sid user e : string)
      (sess : Session) (w wc : World) (s : Summary) :
  current_user_id token hint w = (inr user, w) ->
  session_lookup user sid w = Some sess ->
  sess_end_time sess = Some e ->
  compute_summary fromisoformat user sid w = (inr s, wc) ->
  end_session fromisoformat token hint sid w
  = (inr s, snd (save_finished (store_finished user sid s wc))).
Proof.
  intros Hid Hsess Hend Hc. unfold end_session.
  unfold bind at 1. rewrite Hid. unfold bind at 1. unfold gets at 1.
  rewrite Hsess. unfold bind at 1. rewrite Hend. unfold ret at 1.
  unfold bind at 1. rewrite Hc. reflexivity.
Qed.

End EndSession.

Lemma session_lookup_ACTIVE (user sid : string) (w w' : World) :
  ACTIVE w' = ACTIVE w -> session_lookup user sid w' = session_lookup user sid w.
Proof. unfold session_lookup. now intros ->. Qed.

Lemma finished_lookup_FINISHED (user : string) (w w' : World) :
  FINISHED w' = FINISHED w -> finished_lookup user w' = finished_lookup user w.
Proof. unfold finished_lookup. now intros ->. Qed.

Lemma set_end_time_ACTIVE_tick (user sid now : string) (w : World) :
  ACTIVE (set_end_time user sid now (tick w)) = ACTIVE (set_end_time user sid now w).
Proof. unfold set_end_time. simpl. destruct (_ !! sid); reflexivity. Qed.

Section EndTwice.

Variable fromisoformat : string -> option datetime.

(** After its first steps, [end_session] works on a session that has a
    non-empty [end_time]. *)
Lemma end_session_stamps (user sid : string) (sess : Session) (wa wb : World) :
  sessions_ok wa ->
  session_lookup user sid wa = Some sess ->
  match sess_end_time sess with
  | None => exists now, now <> "" /\ wb = set_end_time user sid now (tick wa)
  | Some _ => wb = wa
  end ->
  exists stored e,
    session_lookup user sid wb = Some stored
    /\ sess_end_time stored = Some e /\ e <> ""
    /\ sess_events stored = sess_events sess
    /\ TOKEN_USER wb = TOKEN_USER wa /\ FINISHED wb = FINISHED wa.
Proof.
  intros Hok Hsess Hwb.
  destruct (sess_end_time sess) as [e|] eqn:Hend.
  - subst wb. exists sess, e. repeat split; auto.
    intros ->. apply (Hok user sid sess Hsess). exact Hend.
  - destruct Hwb as (now & Hnow & ->).
    exists (mkSession (sess_start_time sess) (Some now) (sess_events sess)), now.
    repeat split; auto.
    + apply (set_end_time_lookup user sid now sess (tick wa)). exact Hsess.
    + rewrite set_end_time_tokens. reflexivity.
    + unfold set_end_time. simpl. destruct (_ !! sid); reflexivity.
Qed.

(** A summary computed from a session that carries an [end_time]. *)
Lemma compute_summary_ended (user sid e : string) (stored : Session) (w : World) :
  session_lookup user sid w = Some stored ->
  sess_end_time stored = Some e -> e <> "" ->
  match compute_summary fromisoformat user sid w with
  | (inr s, w') =>
      s = mkSummary sid user (start_time s) e
            (rounds_of (sess_events stored))
            (_int_if_whole (total_bets_of (sess_events stored)))
            (_int_if_whole (total_wins_of (sess_events stored)))
            (_int_if_whole (net_change_of (sess_events stored)))
      /\ exists times, derive_times stored
                         (collect_timestamps fromisoformat (sess_events stored)) w
                       = (inr times, w)
  | (inl _, _) =>
      sort_datetimes (collect_timestamps fromisoformat (sess_events stored)) = None
  end.
Proof.
  intros Hlook Hend He.
  pose proof (compute_summary_active fromisoformat user sid stored w Hlook) as H.
  destruct (compute_summary fromisoformat user sid w) as [[x|s] w'].
  - now destruct H as (_ & _ & H).
  - destruct H as (times & w1 & Hd & Hst & Hen & Hs).
    rewrite (derive_times_stored_end _ _ _ _ _ _ Hend Hd) in Hen.
    rewrite (or_now_stored e w1 He) in Hen. injection Hen as Hen _.
    split; [|now exists times]. rewrite Hs at 1. now rewrite <- Hen.
Qed.

End EndTwice.

(** C5: ending a session a second time, with no request in between.
    If the first call returned summary [s1], the second call returns a
    summary [s2] as well, with the same session id, rounds, totals and
    net change; the stored session, whose [end_time] is the one reported
    in [s1], is not changed by the second call, so [s2] reports the same
    [end_time]; and the second call writes [s2] over the archive entry
    that the first call made, without lengthening the archive, and saves
    the archive again. *)
Theorem end_session_twice (fromisoformat : string -> option datetime)
        (w w1 : World) (token : string) (hint : option string)
        (sid : string) (s1 : Summary) :
  sessions_ok w ->
  end_session fromisoformat token hint sid w = (inr s1, w1) ->
  exists user s2 w2 stored,
    end_session fromisoformat token hint sid w1 = (inr s2, w2)
    /\ session_id s1 = sid /\ user_id s1 = user
    /\ session_id s2 = session_id s1
    /\ rounds s2 = rounds s1
    /\ total_bets s2 = total_bets s1
    /\ total_wins s2 = total_wins s1
    /\ net_change s2 = net_change s1
    /\ end_time s2 = end_time s1
    /\ session_lookup user sid w1 = Some stored
    /\ sess_end_time stored = Some (end_time s1)
    /\ session_lookup user sid w2 = Some stored
    /\ find_summary sid (finished_lookup user w1) = Some s1
    /\ finished_lookup user w2 = upsert sid s2 (finished_lookup user w1)
    /\ find_summary sid (finished_lookup user w2) = Some s2
    /\ length (finished_lookup user w2) = length (finished_lookup user w1)
    /\ files w2 !! DATA_FILE = Some (Parsed (finished_to_json (FINISHED w2))).
Proof.
  intros Hok Hfirst.
  destruct (end_session_returns fromisoformat _ _ _ _ _ _ Hfirst)
    as (user & wa & sess & wb & wc & Hid & Hsess & Hwb & Hc1 & Hw1).
  destruct (current_user_id_returns _ _ _ _ _ Hid)
    as (Htok & Huser & Hhint & Hact & _).
  assert (Hoka : sessions_ok wa).
  { intros u i x Hx. apply (Hok u i x).
    now rewrite <- (session_lookup_ACTIVE u i w wa Hact). }
  destruct (end_session_stamps user sid sess wa wb Hoka Hsess Hwb)
    as (stored & e & Hstored & Hend & He & Hevents & Htokb & _).
  (* the first computation *)
  pose proof (compute_summary_ended fromisoformat user sid e stored wb Hstored Hend He)
  as H1.
  rewrite Hc1 in H1. destruct H1 as (Hs1 & times & Hd1).
  assert (Hactc : ACTIVE wc = ACTIVE wb).
  { rewrite <- (keeps_compute_summary fromisoformat ACTIVE user sid
                  ltac:(reflexivity) wb).
    now rewrite Hc1. }
  assert (Htokc : TOKEN_USER wc = TOKEN_USER wb).
  { rewrite <- (keeps_compute_summary fromisoformat TOKEN_USER user sid
                  ltac:(reflexivity) wb).
    now rewrite Hc1. }
  (* the state the second call starts from *)
  assert (Hact1 : ACTIVE w1 = ACTIVE wb) by (subst w1; exact Hactc).
  assert (Htok1 : TOKEN_USER w1 !! token = Some user).
  { subst w1. simpl. now rewrite Htokc, Htokb. }
  assert (Hstored1 : session_lookup user sid w1 = Some stored).
  { now rewrite (session_lookup_ACTIVE user sid wb w1 Hact1). }
  assert (Hfin1 : finished_lookup user w1 = upsert sid s1 (finished_lookup user wc)).
  { subst w1. apply store_finished_lookup. }
  assert (Hsid1 : session_id s1 = sid) by (rewrite Hs1; reflexivity).
  (* the second computation *)
  pose proof (compute_summary_ended fromisoformat user sid e stored w1 Hstored1 Hend He)
  as H2.
  destruct (compute_summary fromisoformat user sid w1) as [[x|s2] wc2] eqn:Hc2.
  { exfalso. apply derive_times_returns in Hd1 as [_ Hd1].
    destruct (collect_timestamps fromisoformat (sess_events stored));
      [discriminate|].
    destruct Hd1 as (sorted & _ & _ & Hsort & _). congruence. }
  destruct H2 as (Hs2 & _).
  assert (Hfinc2 : FINISHED wc2 = FINISHED w1).
  { rewrite <- (keeps_compute_summary fromisoformat FINISHED user sid
                  ltac:(reflexivity) w1).
    now rewrite Hc2. }
  assert (Hactc2 : ACTIVE wc2 = ACTIVE w1).
  { rewrite <- (keeps_compute_summary fromisoformat ACTIVE user sid
                  ltac:(reflexivity) w1).
    now rewrite Hc2. }
  assert (Hsid2 : session_id s2 = sid) by (rewrite Hs2; reflexivity).
  exists user, s2, (snd (save_finished (store_finished user sid s2 wc2))), stored.
  assert (Hfin2 : finished_lookup user (snd (save_finished (store_finished user sid s2 wc2)))
                  = upsert sid s2 (finished_lookup user w1)).
  { rewrite <- (finished_lookup_FINISHED user w1 wc2 Hfinc2).
    apply store_finished_lookup. }
  split.
  { apply (end_session_ended fromisoformat token hint sid user e stored); auto.
    apply current_user_id_again; auto. }
  split; [exact Hsid1|].
  split; [rewrite Hs1; reflexivity|].
  split; [congruence|].
  split; [rewrite Hs1, Hs2; reflexivity|].
  split; [rewrite Hs1, Hs2; reflexivity|].
  split; [rewrite Hs1, Hs2; reflexivity|].
  split; [rewrite Hs1, Hs2; reflexivity|].
  split; [rewrite Hs1, Hs2; reflexivity|].
  split; [exact Hstored1|].
  split; [rewrite Hs1; exact Hend|].
  split.
  { rewrite <- Hstored1. apply session_lookup_ACTIVE. exact Hactc2. }
  split; [rewrite Hfin1; now apply find_summary_upsert|].
  split; [exact Hfin2|].
  split; [rewrite Hfin2; now apply find_summary_upsert|].
  split.
  { rewrite Hfin2.
    destruct (upsert_existing sid s2 (finished_lookup user w1) Hsid2)
      as (i & old & _ & _ & _ & _ & Hlen & _); [|exact Hlen].
    exists s1. split; [|exact Hsid1].
    assert (Hf : find_summary sid (finished_lookup user w1) = Some s1)
      by (rewrite Hfin1; now apply find_summary_upsert).
    now apply find_summary_Some in Hf as [Hin _]. }
  unfold save_finished, modify. simpl. apply lookup_insert_eq.
Qed.


(* ===================================================================== *)
(** * Invariants of the running service *)
(* ===================================================================== *)

Lemma maintains_ret {A : Type} (I : World -> Prop) (a : A) (Q : A -> Prop) :
  Q a -> maintains I (ret a) Q.
Proof. intros HQ w HI. split; [exact HI|]. intros x [= <-]. exact HQ. Qed.

Lemma maintains_raise {A : Type} (I : World -> Prop) (e : exn) (Q : A -> Prop) :
  maintains I (raise e) Q.
Proof. intros w HI. split; [exact HI|]. intros x H. discriminate. Qed.

Lemma maintains_gets {A : Type} (I : World -> Prop) (f : World -> A) :
  maintains I (gets f) (fun _ => True).
Proof. intros w HI. split; [exact HI|]. auto. Qed.

Lemma maintains_modify (I : World -> Prop) (f : World -> World) :
  (forall w, I w -> I (f w)) -> maintains I (modify f) (fun _ => True).
Proof. intros H w HI. split; [now apply H|]. auto. Qed.

Lemma maintains_bind {A B : Type} (I : World -> Prop) (c : M A) (k : A -> M B)
      (Q : A -> Prop) (R : B -> Prop) :
  maintains I c Q -> (forall a, Q a -> maintains I (k a) R) ->
  maintains I (bind c k) R.
Proof.
  intros Hc Hk w HI. unfold bind. destruct (Hc w HI) as [HI' HQ].
  destruct (c w) as [[e|a] w']; simpl in *.
  - split; [exact HI'|]. intros b H. discriminate.
  - apply (Hk a); auto.
Qed.

Lemma maintains_weaken {A : Type} (I : World -> Prop) (c : M A) (Q Q' : A -> Prop) :
  maintains I c Q -> (forall a, Q a -> Q' a) -> maintains I c Q'.
Proof. intros Hc HQ w HI. destruct (Hc w HI) as [HI' H]. split; auto. Qed.

Lemma maintains_now_iso (I : World -> Prop) :
  (forall w, I w -> I (tick w)) -> maintains I now_iso (fun now => now <> "").
Proof.
  intros Htick w HI. destruct (now_iso_returns w) as (now & -> & Hne). simpl.
  split; [now apply Htick|]. intros a [= <-]. now apply str_truthy_true.
Qed.

Lemma maintains_or_now (I : World -> Prop) (x : option string) :
  (forall w, I w -> I (tick w)) -> maintains I (or_now x) (fun _ => True).
Proof.
  intros Htick. unfold or_now. destruct (opt_truthy x).
  - now apply maintains_ret.
  - eapply maintains_weaken; [now apply maintains_now_iso|auto].
Qed.

Lemma maintains_current_user_id (I : World -> Prop) (token : string)
      (hint : option string) :
  (forall t w, I w -> I (set_TOKEN_USER t w)) ->
  maintains I (current_user_id token hint) (fun _ => True).
Proof.
  intros Hset w HI. split; [|auto].
  rewrite current_user_id_run. cbv zeta.
  destruct (TOKEN_USER w !! token) as [bound|].
  - destruct (str_truthy bound).
    + destruct hint as [h|]; [|exact HI].
      destruct (str_truthy h && negb (String.eqb h bound)); exact HI.
    + destruct hint as [h|]; [|exact HI].
      destruct (str_truthy h); [now apply Hset|exact HI].
  - destruct hint as [h|]; [|exact HI].
    destruct (str_truthy h); [now apply Hset|exact HI].
Qed.

Lemma maintains_derive_times (I : World -> Prop) (sess : Session) (ts : list datetime) :
  maintains I (derive_times sess ts) (fun _ => True).
Proof.
  intros w HI. destruct (derive_times_any_world sess ts w w) as [_ ->]. auto.
Qed.

Lemma maintains_save_finished (I : World -> Prop) :
  (forall fs w, I w -> I (set_files fs w)) -> maintains I save_finished (fun _ => True).
Proof. intros H. apply maintains_modify. intros w HI. now apply H. Qed.

Lemma JSONResponse_world (s : Summary) (w : World) : snd (JSONResponse s w) = w.
Proof. unfold JSONResponse. now destruct (json_compliant s). Qed.

Lemma maintains_JSONResponse (I : World -> Prop) (s : Summary) :
  maintains I (JSONResponse s) (fun _ => True).
Proof.
  unfold JSONResponse. destruct (json_compliant s);
    [now apply maintains_ret|apply maintains_raise].
Qed.

Section Invariants.

Variable fromisoformat : string -> option datetime.

Lemma maintains_compute_summary (I : World -> Prop) (user sid : string) :
  (forall w, I w -> I (tick w)) ->
  maintains I (compute_summary fromisoformat user sid) (fun s => session_id s = sid).
Proof.
  intros Htick. unfold compute_summary.
  eapply maintains_bind; [apply maintains_gets|]. intros [session|] _.
  - eapply maintains_bind; [apply maintains_derive_times|]. intros times _.
    eapply maintains_bind; [now apply maintains_or_now|]. intros start _.
    eapply maintains_bind; [now apply maintains_or_now|]. intros finish _.
    now apply maintains_ret.
  - intros w HI. unfold bind, gets.
    destruct (find_summary sid (finished_lookup user w)) as [s|] eqn:Hfind; simpl.
    + split; [exact HI|]. intros a [= <-]. now apply find_summary_Some in Hfind.
    + split; [exact HI|]. intros a H. discriminate.
Qed.

(** The handlers maintain an invariant of the tables as soon as the three
    store updates do. *)
Lemma handle_maintains (I : World -> Prop) (r : Request) :
  table_invariant I ->
  (forall user req ts w, I w -> I (append_event user req ts w)) ->
  (forall user sid now w, now <> "" -> I w -> I (set_end_time user sid now w)) ->
  (forall user sid new w, session_id new = sid -> I w ->
                          I (store_finished user sid new w)) ->
  forall w, I w -> I (snd (handle fromisoformat r w)).
Proof.
  intros [Htok Htick Hfiles] Happend Hend Hstore w HI.
  assert (Hmain : maintains I (handle fromisoformat r) (fun _ => True));
    [|now apply Hmain].
  clear w HI.
  destruct r as [token hint req|token hint sid|token hint|token hint sid legacy|msg];
    simpl handle.
  - eapply maintains_bind with (Q := fun _ => True);
      [|intros; now apply maintains_ret].
    unfold record_event.
    eapply maintains_bind; [now apply maintains_current_user_id|]. intros user _.
    eapply maintains_bind with (Q := fun _ => True).
    + destruct (in_timestamp req) as [ts|].
      * destruct (parse_iso fromisoformat ts);
          [now apply maintains_ret|apply maintains_raise].
      * eapply maintains_weaken; [now apply maintains_now_iso|auto].
    + intros ts _.
      eapply maintains_bind; [apply maintains_modify; intros; now apply Happend|].
      intros; now apply maintains_ret.
  - eapply maintains_bind with (Q := fun _ => True);
      [|intros; now apply maintains_ret].
    unfold end_session.
    eapply maintains_bind; [now apply maintains_current_user_id|]. intros user _.
    eapply maintains_bind; [apply maintains_gets|]. intros [sess|] _;
      [|apply maintains_raise].
    eapply maintains_bind with (Q := fun _ => True).
    + destruct (sess_end_time sess).
      * now apply maintains_ret.
      * eapply maintains_bind; [now apply maintains_now_iso|].
        intros now Hnow. apply maintains_modify. intros; now apply Hend.
    + intros _ _.
      eapply maintains_bind; [now apply maintains_compute_summary|].
      intros new Hnew.
      eapply maintains_bind; [apply maintains_modify; intros; now apply Hstore|].
      intros _ _.
      eapply maintains_bind; [now apply maintains_save_finished|].
      intros; now apply maintains_ret.
  - eapply maintains_bind with (Q := fun _ => True);
      [|intros; now apply maintains_ret].
    unfold get_latest.
    eapply maintains_bind; [now apply maintains_current_user_id|]. intros user _.
    eapply maintains_bind; [apply maintains_gets|]. intros [|first rest] _;
      now apply maintains_ret.
  - eapply maintains_bind with (Q := fun _ => True);
      [|intros; now apply maintains_ret].
    unfold export_session.
    eapply maintains_bind; [now apply maintains_current_user_id|]. intros user _.
    destruct (negb (opt_truthy (py_or sid legacy))); [apply maintains_raise|].
    eapply maintains_bind; [apply maintains_gets|]. intros items _.
    destruct (find_summary _ items); [apply maintains_JSONResponse|].
    eapply maintains_bind; [now apply maintains_compute_summary|].
    intros; apply maintains_JSONResponse.
  - eapply maintains_bind with (Q := fun _ => True); [now apply maintains_ret|].
    intros; now apply maintains_ret.
Qed.

Lemma sessions_ok_table : table_invariant sessions_ok.
Proof. split; intros; assumption. Qed.

Lemma archive_ok_table : table_invariant archive_ok.
Proof. split; intros; assumption. Qed.

Lemma append_event_sessions_ok (user : string) (req : EventIn) (ts : string)
      (w : World) :
  sessions_ok w -> sessions_ok (append_event user req ts w).
Proof.
  intros Hok u i x. unfold session_lookup, append_event. simpl.
  destruct (decide (user = u)) as [<-|Hu].
  - rewrite lookup_insert_eq. simpl.
    destruct (decide (in_session_id req = i)) as [<-|Hi].
    + rewrite lookup_insert_eq. intros [= <-]. simpl.
      destruct (default ∅ (ACTIVE w !! user) !! in_session_id req) as [old|] eqn:Hold.
      * simpl. now apply (Hok user (in_session_id req) old).
      * simpl. discriminate.
    + rewrite lookup_insert_ne by exact Hi. apply (Hok user i x).
  - rewrite lookup_insert_ne by exact Hu. apply (Hok u i x).
Qed.

Lemma set_end_time_sessions_ok (user sid now : string) (w : World) :
  now <> "" -> sessions_ok w -> sessions_ok (set_end_time user sid now w).
Proof.
  intros Hnow Hok u i x. unfold set_end_time.
  destruct (default ∅ (ACTIVE w !! user) !! sid) as [old|] eqn:Hold;
    [|apply (Hok u i x)].
  unfold session_lookup. simpl.
  destruct (decide (user = u)) as [<-|Hu].
  - rewrite lookup_insert_eq. simpl.
    destruct (decide (sid = i)) as [<-|Hi].
    + rewrite lookup_insert_eq. intros [= <-]. simpl. congruence.
    + rewrite lookup_insert_ne by exact Hi. apply (Hok user i x).
  - rewrite lookup_insert_ne by exact Hu. apply (Hok u i x).
Qed.

Lemma store_finished_archive_ok (user sid : string) (new : Summary) (w : World) :
  session_id new = sid -> archive_ok w -> archive_ok (store_finished user sid new w).
Proof.
  intros Hnew Hok u.
  destruct (decide (u = user)) as [->|Hu].
  - rewrite store_finished_lookup. apply upsert_NoDup; [exact Hnew|apply Hok].
  - rewrite store_finished_other by exact Hu. apply Hok.
Qed.

Lemma handle_sessions_ok (r : Request) (w : World) :
  sessions_ok w -> sessions_ok (snd (handle fromisoformat r w)).
Proof.
  apply handle_maintains.
  - apply sessions_ok_table.
  - intros. now apply append_event_sessions_ok.
  - intros. now apply set_end_time_sessions_ok.
  - intros; assumption.
Qed.

Lemma handle_archive_ok (r : Request) (w : World) :
  archive_ok w -> archive_ok (snd (handle fromisoformat r w)).
Proof.
  apply handle_maintains.
  - apply archive_ok_table.
  - intros; assumption.
  - intros user sid now w0 _ H u. unfold set_end_time.
    destruct (_ !! sid); apply H.
  - intros. now apply store_finished_archive_ok.
Qed.

Lemma serve_sessions_ok (requests : list Request) (w : World) :
  sessions_ok w -> sessions_ok (serve fromisoformat requests w).
Proof.
  revert w. induction requests as [|r rest IH]; intros w Hok; simpl; [exact Hok|].
  apply IH. now apply handle_sessions_ok.
Qed.

Lemma serve_archive_ok (requests : list Request) (w : World) :
  archive_ok w -> archive_ok (serve fromisoformat requests w).
Proof.
  revert w. induction requests as [|r rest IH]; intros w Hok; simpl; [exact Hok|].
  apply IH. now apply handle_archive_ok.
Qed.

End Invariants.

(** A successful [end_session] changes the archive by one upsert, into the
    caller's list. *)
Lemma end_session_archive (fromisoformat : string -> option datetime)
      (token : string) (hint : option string) (sid : string) (w w' : World)
      (s : Summary) :
  end_session fromisoformat token hint sid w = (inr s, w') ->
  exists user,
    fst (current_user_id token hint w) = inr user
    /\ session_id s = sid
    /\ finished_lookup user w' = upsert sid s (finished_lookup user w)
    /\ forall other, other <> user ->
         finished_lookup other w' = finished_lookup other w.
Proof.
  intros Hend.
  destruct (end_session_returns fromisoformat _ _ _ _ _ _ Hend)
    as (user & wa & sess & wb & wc & Hid & Hsess & Hwb & Hc & ->).
  destruct (current_user_id_returns _ _ _ _ _ Hid) as (_ & _ & _ & _ & Hfa & _).
  assert (Hfb : FINISHED wb = FINISHED wa).
  { destruct (sess_end_time sess); [now subst wb|].
    destruct Hwb as (now & _ & ->). unfold set_end_time. simpl.
    destruct (_ !! sid); reflexivity. }
  assert (Hfc : FINISHED wc = FINISHED wb).
  { rewrite <- (keeps_compute_summary fromisoformat FINISHED user sid
                  ltac:(reflexivity) wb).
    now rewrite Hc. }
  assert (Hfin : FINISHED wc = FINISHED w) by congruence.
  exists user. split; [now rewrite Hid|]. split.
  - destruct (maintains_compute_summary fromisoformat (fun _ => True) user sid
                ltac:(auto) wb I) as [_ Hq].
    apply Hq. now rewrite Hc.
  - split.
    + rewrite <- (finished_lookup_FINISHED user w wc Hfin).
      apply store_finished_lookup.
    + intros other Hne.
      rewrite <- (finished_lookup_FINISHED other w wc Hfin).
      now apply store_finished_other.
Qed.

Lemma boot_sessions_ok (clk : nat -> datetime) : sessions_ok (boot clk).
Proof.
  intros u i x. unfold session_lookup, boot. simpl.
  rewrite lookup_empty. simpl. now rewrite lookup_empty.
Qed.

Lemma boot_archive_ok (clk : nat -> datetime) : archive_ok (boot clk).
Proof.
  intros u. unfold finished_lookup, boot. simpl. rewrite lookup_empty. simpl.
  apply NoDup_nil_2.
Qed.

(** A saved archive that is loaded back satisfies the archive invariant
    again: the service can be stopped and started. *)
Lemma restart_archive_ok (w w' : World) :
  archive_ok w -> restart (snd (save_finished w)) = Some w' -> archive_ok w'.
Proof.
  intros Hok Hre u. unfold restart in Hre.
  rewrite (load_finished_written _ (FINISHED w)) in Hre.
  - injection Hre as <-. apply Hok.
  - unfold save_finished, modify. simpl. apply lookup_insert_eq.
Qed.

Lemma end_session_twice_witness :
  sessions_ok example_world
  /\ end_session fromisoformat_std "tok" None "s1" example_world
     = (inr example_summary, example_ended_world)
  /\ exists user s2 w2 stored,
       end_session fromisoformat_std "tok" None "s1" example_ended_world = (inr s2, w2)
       /\ session_id example_summary = "s1" /\ user_id example_summary = user
       /\ session_id s2 = session_id example_summary
       /\ rounds s2 = rounds example_summary
       /\ total_bets s2 = total_bets example_summary
       /\ total_wins s2 = total_wins example_summary
       /\ net_change s2 = net_change example_summary
       /\ end_time s2 = end_time example_summary
       /\ session_lookup user "s1" example_ended_world = Some stored
       /\ sess_end_time stored = Some (end_time example_summary)
       /\ session_lookup user "s1" w2 = Some stored
       /\ find_summary "s1" (finished_lookup user example_ended_world)
          = Some example_summary
       /\ finished_lookup user w2
          = upsert "s1" s2 (finished_lookup user example_ended_world)
       /\ find_summary "s1" (finished_lookup user w2) = Some s2
       /\ length (finished_lookup user w2)
          = length (finished_lookup user example_ended_world)
       /\ files w2 !! DATA_FILE = Some (Parsed (finished_to_json (FINISHED w2))).
Proof.
  assert (Hok : sessions_ok example_world)
    by apply serve_sessions_ok, boot_sessions_ok.
  assert (Hend : end_session fromisoformat_std "tok" None "s1" example_world
                 = (inr example_summary, example_ended_world))
    by (vm_compute; reflexivity).
  split; [exact Hok|]. split; [exact Hend|].
  exact (end_session_twice fromisoformat_std example_world example_ended_world
           "tok" None "s1" example_summary Hok Hend).
Defined.

(** The clock moved between the two calls of the example, the reported
    [end_time] did not. *)
Example example_end_twice :
  let second := end_session fromisoformat_std "tok" None "s1" example_ended_world in
  fst second = inr example_summary
  /\ ticks example_world = 0%nat /\ ticks example_ended_world = 1%nat
  /\ ticks (snd second) = 1%nat
  /\ finished_lookup "alice" (snd second) = [example_summary].
Proof. repeat split; vm_compute; reflexivity. Qed.

(* ===================================================================== *)
(** * The timestamps of a summary *)
(* ===================================================================== *)

Lemma datetime_lt_uniform (k : bool) (a b : datetime) :
  aware a = k -> aware b = k ->
  datetime_lt a b = Some (time_key a <? time_key b)%Z.
Proof.
  unfold aware, datetime_lt, time_key.
  destruct (tzinfo a), (tzinfo b); intros <-; intros H; try discriminate; reflexivity.
Qed.

Lemma datetime_lt_mixed (a b : datetime) :
  aware a <> aware b -> datetime_lt a b = None.
Proof.
  unfold aware, datetime_lt. destruct (tzinfo a), (tzinfo b); congruence.
Qed.

Lemma insert_sorted_uniform (k : bool) (x : datetime) (l : list datetime) :
  aware x = k -> uniform k l ->
  exists l', insert_sorted x l = Some l' /\ uniform k l' /\ l' ≡ₚ x :: l.
Proof.
  intros Hx Hl. induction Hl as [|y rest Hy Hrest IH]; simpl.
  - exists [x]. repeat split; [now constructor|reflexivity].
  - rewrite (datetime_lt_uniform k x y Hx Hy).
    destruct (time_key x <? time_key y)%Z.
    + exists (x :: y :: rest). repeat split; [|reflexivity].
      constructor; [exact Hx|]. now constructor.
    + destruct IH as (l' & -> & Hu & Hp). exists (y :: l'). repeat split.
      * now constructor.
      * rewrite Hp. apply Permutation_swap.
  Qed.

Lemma insert_sorted_mixed (k : bool) (x y : datetime) (l : list datetime) :
  aware x <> k -> uniform k (y :: l) -> insert_sorted x (y :: l) = None.
Proof.
  intros Hx Hl. revert y Hl. induction l as [|z rest IH]; intros y Hl; simpl.
  - inversion Hl; subst. rewrite datetime_lt_mixed; [reflexivity|congruence].
  - inversion Hl; subst. rewrite datetime_lt_mixed; [reflexivity|congruence].
Qed.

Lemma sort_onto_uniform (k : bool) (l sorted : list datetime) :
  uniform k sorted -> uniform k l ->
  exists r, sort_onto sorted l = Some r /\ uniform k r /\ r ≡ₚ sorted ++ l.
Proof.
  intros Hs Hl. revert sorted Hs.
  induction Hl as [|x rest Hx Hrest IH]; intros sorted Hs; simpl.
  - exists sorted. rewrite app_nil_r. auto.
  - destruct (insert_sorted_uniform k x sorted Hx Hs) as (s' & -> & Hu & Hp).
    destruct (IH s' Hu) as (r & -> & Hur & Hpr).
    exists r. repeat split; auto.
    rewrite Hpr, Hp. simpl. apply Permutation_middle.
Qed.

Lemma sort_onto_mixed (k : bool) (l sorted : list datetime) (y : datetime) :
  uniform k (y :: sorted) -> ~ uniform k l -> sort_onto (y :: sorted) l = None.
Proof.
  revert y sorted. induction l as [|x rest IH]; intros y sorted Hs Hl;
    cbn [sort_onto].
  - exfalso. apply Hl. constructor.
  - destruct (bool_decide (aware x = k)) eqn:Hx.
    + apply bool_decide_eq_true in Hx.
      destruct (insert_sorted_uniform k x (y :: sorted) Hx Hs) as (s' & Hins & Hu & Hp).
      rewrite Hins. destruct s' as [|z s'].
      * apply Permutation_nil_l in Hp. discriminate.
      * apply IH; [exact Hu|]. intros Hrest. apply Hl. now constructor.
    + apply bool_decide_eq_false in Hx.
      now rewrite (insert_sorted_mixed k x y sorted Hx Hs).
Qed.

(** The sort raises exactly on a list that mixes the two kinds. *)
Lemma sort_datetimes_raises (l : list datetime) :
  sort_datetimes l = None <-> ~ (uniform true l \/ uniform false l).
Proof.
  unfold sort_datetimes. destruct l as [|x rest].
  - split; [discriminate|]. intros H. exfalso. apply H. left. constructor.
  - split.
    + intros Hnone [Hu|Hu];
        destruct (sort_onto_uniform _ (x :: rest) [] ltac:(constructor) Hu)
          as (r & Hr & _); congruence.
    + intros Hmix. change (sort_onto [x] rest = None).
      apply (sort_onto_mixed (aware x)).
      * constructor; [reflexivity|constructor].
      * intros Hrest. apply Hmix.
        destruct (aware x) eqn:Hk; [left|right]; now constructor.
Qed.

Lemma classic_uniform (l : list datetime) :
  (uniform true l \/ uniform false l) \/ ~ (uniform true l \/ uniform false l).
Proof.
  unfold uniform.
  destruct (decide (Forall (fun t => aware t = true) l)) as [H|Ht]; [left; now left|].
  destruct (decide (Forall (fun t => aware t = false) l)) as [H|Hf]; [left; now right|].
  right. intros [H|H]; contradiction.
Qed.

(** ** What the sort delivers when it does not raise *)

Lemma insert_sorted_sorted (k : bool) (x : datetime) (l l' : list datetime) :
  aware x = k -> uniform k l -> StronglySorted key_le l ->
  insert_sorted x l = Some l' -> StronglySorted key_le l'.
Proof.
  intros Hx Hl Hs. revert l'.
  induction Hs as [|y rest Hs IH Hy]; intros l' Hins; simpl in Hins.
  - injection Hins as <-. repeat constructor.
  - inversion Hl as [|? ? Hky Hrest]; subst.
    rewrite (datetime_lt_uniform (aware x) x y eq_refl Hky) in Hins.
    destruct (Z.ltb_spec (time_key x) (time_key y)) as [Hlt|Hge].
    + injection Hins as <-. constructor; [now constructor|].
      constructor; [unfold key_le; lia|].
      eapply Forall_impl; [exact Hy|]. unfold key_le. intros; simpl in *; lia.
    + destruct (insert_sorted_uniform (aware x) x rest eq_refl Hrest)
        as (r & Hr & _ & Hp).
      rewrite Hr in Hins. injection Hins as <-.
      constructor; [apply IH; auto|].
      rewrite Hp. constructor; [unfold key_le; lia|exact Hy].
Qed.

Lemma sort_onto_sorted (k : bool) (l sorted r : list datetime) :
  uniform k sorted -> uniform k l -> StronglySorted key_le sorted ->
  sort_onto sorted l = Some r -> StronglySorted key_le r.
Proof.
  intros Hu Hl. revert sorted Hu.
  induction Hl as [|x rest Hx Hrest IH]; intros sorted Hu Hs Hr; simpl in Hr.
  - now injection Hr as <-.
  - destruct (insert_sorted_uniform k x sorted Hx Hu) as (s' & Hins & Hu' & _).
    rewrite Hins in Hr.
    apply (IH s' Hu'); [|exact Hr].
    now apply (insert_sorted_sorted k x sorted).
Qed.

Lemma strongly_sorted_head (l : list datetime) (first : datetime) :
  StronglySorted key_le l -> head l = Some first ->
  forall t, t ∈ l -> key_le first t.
Proof.
  intros Hs Hh t Ht. destruct Hs as [|y rest Hs Hy]; [discriminate|].
  injection Hh as ->. apply elem_of_cons in Ht as [->|Ht].
  - unfold key_le. lia.
  - rewrite Forall_forall in Hy. now apply Hy.
Qed.

Lemma strongly_sorted_last (l : list datetime) (final : datetime) :
  StronglySorted key_le l -> last l = Some final ->
  forall t, t ∈ l -> key_le t final.
Proof.
  intros Hs. induction Hs as [|y rest Hs IH Hy]; intros Hl t Ht; [discriminate|].
  destruct rest as [|z rest'].
  - injection Hl as <-. apply elem_of_cons in Ht as [->|Ht];
      [unfold key_le; lia|inversion Ht].
  - change (last (y :: z :: rest')) with (last (z :: rest')) in Hl.
    apply elem_of_cons in Ht as [->|Ht]; [|now apply IH].
    rewrite Forall_forall in Hy. apply Hy.
    rewrite last_Some in Hl. destruct Hl as (l0 & ->).
    apply elem_of_app. right. left.
Qed.

(** The sorted list holds the same datetimes, first the earliest and last
    the latest. *)
Lemma sort_datetimes_sorted (l r : list datetime) :
  sort_datetimes l = Some r ->
  r ≡ₚ l
  /\ (forall first, head r = Some first -> forall t, t ∈ l -> key_le first t)
  /\ (forall final, last r = Some final -> forall t, t ∈ l -> key_le t final).
Proof.
  intros Hr.
  assert (Hu : uniform true l \/ uniform false l).
  { destruct (classic_uniform l) as [H|H]; [exact H|].
    apply sort_datetimes_raises in H. congruence. }
  assert (Hk : exists k, uniform k l) by (destruct Hu; eauto).
  destruct Hk as (k & Hk).
  destruct (sort_onto_uniform k l [] ltac:(constructor) Hk) as (r' & Hr' & _ & Hp).
  unfold sort_datetimes in Hr. rewrite Hr in Hr'. injection Hr' as <-.
  assert (Hs : StronglySorted key_le r).
  { apply (sort_onto_sorted k l [] r); auto; constructor. }
  simpl in Hp. repeat split; [exact Hp| |].
  - intros first Hh t Ht. apply (strongly_sorted_head r); auto. now rewrite Hp.
  - intros final Hl t Ht. apply (strongly_sorted_last r); auto. now rewrite Hp.
Qed.

(** Overwriting the offset moves the instant by the offset (and drops the
    microseconds). *)
Lemma replace_utc_instant (t : datetime) (off : Z) :
  tzinfo t = Some off ->
  utc_micros t = Some (wall_micros t - off)%Z
  /\ utc_micros (replace_microsecond0_utc t)
     = Some (wall_micros t - microsecond t)%Z.
Proof.
  intros Htz. unfold utc_micros. rewrite Htz. split; [reflexivity|].
  unfold replace_microsecond0_utc, timezone_utc, wall_micros. simpl. f_equal. lia.
Qed.

(** For a timestamp already in UTC the rendering denotes the same second. *)
Lemma replace_utc_same_second (t : datetime) :
  tzinfo t = Some 0%Z -> (0 <= microsecond t < 1000000)%Z ->
  same_instant_to_second t (replace_microsecond0_utc t).
Proof.
  intros Htz Hus. destruct (replace_utc_instant t 0 Htz) as [H1 H2].
  unfold same_instant_to_second. rewrite H1, H2.
  rewrite Z.sub_0_r.
  assert (Hw : exists q, wall_micros t = (q * 1000000 + microsecond t)%Z)
    by (unfold wall_micros; eauto).
  destruct Hw as (q & ->).
  replace (q * 1000000 + microsecond t - microsecond t)%Z with (q * 1000000)%Z by lia.
  rewrite Z.div_mul by lia. rewrite Z.div_add_l by lia.
  rewrite Z.div_small by lia. lia.
Qed.

Section SummaryTimes.

Variable fromisoformat : string -> option datetime.

(** What [compute_summary] reports as times when some timestamp parses:
    the wall-clock fields of the earliest and of the latest parsed
    timestamp, each relabelled as UTC. *)
Lemma compute_summary_times (user sid : string) (sess : Session) (w w' : World)
      (s : Summary) :
  session_lookup user sid w = Some sess ->
  collect_timestamps fromisoformat (sess_events sess) <> [] ->
  compute_summary fromisoformat user sid w = (inr s, w') ->
  exists first final,
    first ∈ collect_timestamps fromisoformat (sess_events sess)
    /\ final ∈ collect_timestamps fromisoformat (sess_events sess)
    /\ (forall t, t ∈ collect_timestamps fromisoformat (sess_events sess) ->
          key_le first t /\ key_le t final)
    /\ start_time s = isoformat (replace_microsecond0_utc first)
    /\ (sess_end_time sess = None ->
        end_time s = isoformat (replace_microsecond0_utc final)).
Proof.
  intros Hlook Hne Hc.
  pose proof (compute_summary_active fromisoformat user sid sess w Hlook) as H.
  rewrite Hc in H. destruct H as (times & w1 & Hd & Hst & Hen & _).
  apply derive_times_returns in Hd as [_ Hd].
  destruct (collect_timestamps fromisoformat (sess_events sess)) as [|t0 ts] eqn:Hts;
    [contradiction|].
  destruct Hd as (sorted & first & final & Hsort & Hh & Hl & Hfst & Hsnd).
  destruct (sort_datetimes_sorted _ _ Hsort) as (Hp & Hmin & Hmax).
  exists first, final.
  assert (Hfirst_in : first ∈ t0 :: ts).
  { rewrite <- Hp. destruct sorted; [discriminate|]. injection Hh as ->. left. }
  assert (Hfinal_in : final ∈ t0 :: ts).
  { rewrite <- Hp. apply last_Some in Hl as (l0 & ->).
    apply elem_of_app. right. left. }
  split; [exact Hfirst_in|]. split; [exact Hfinal_in|].
  split; [intros t Ht; split; [now apply (Hmin first)|now apply (Hmax final)]|].
  split.
  - rewrite Hfst in Hst. unfold or_now in Hst. simpl in Hst.
    now injection Hst as <- _.
  - intros Hend. rewrite Hend in Hsnd. rewrite Hsnd in Hen.
    unfold or_now in Hen. simpl in Hen. now injection Hen as <- _.
Qed.

(** On an active session [compute_summary] raises exactly when the
    timestamps that parse mix offset-naive and offset-aware values. *)
Lemma compute_summary_raises_iff (user sid : string) (sess : Session) (w : World) :
  session_lookup user sid w = Some sess ->
  (exists e, fst (compute_summary fromisoformat user sid w) = inl e)
  <-> ~ (uniform true (collect_timestamps fromisoformat (sess_events sess))
         \/ uniform false (collect_timestamps fromisoformat (sess_events sess))).
Proof.
  intros Hlook.
  pose proof (compute_summary_active fromisoformat user sid sess w Hlook) as H.
  rewrite <- sort_datetimes_raises.
  destruct (compute_summary fromisoformat user sid w) as [[e|s] w'] eqn:Hc; simpl.
  - destruct H as (_ & _ & Hs). split; [auto|eauto].
  - split; [intros (e & He); discriminate|].
    intros Hs. exfalso.
    destruct H as (times & w1 & Hd & _).
    apply derive_times_returns in Hd as [_ Hd].
    destruct (collect_timestamps fromisoformat (sess_events sess));
      [discriminate|].
    destruct Hd as (sorted & _ & _ & Hsort & _). congruence.
Qed.

End SummaryTimes.

(** C3, on the code: an event stamped 14:05 at UTC+05:00 happened at
    09:05 UTC.  [record_event] accepts it, and [compute_summary] reports
    both [start_time] and [end_time] as 14:05 UTC, five hours after the
    event.  The string that denotes the event's instant in UTC is
    ["2026-02-12T09:05:00+00:00"]. *)
Theorem offset_timestamp_is_relabelled :
  fst (handle fromisoformat_std
         (RecordEvent "tok" (Some "alice")
            (mkEventIn "s1" "bet" 10 (Some "2026-02-12T14:05:00+05:00")))
         (boot example_clock))
  = inr (Message "Event recorded")
  /\ exists s event shown expected,
       fst (compute_summary fromisoformat_std "alice" "s1" offset_world) = inr s
       /\ start_time s = "2026-02-12T14:05:00+00:00"
       /\ end_time s = "2026-02-12T14:05:00+00:00"
       /\ parse_iso fromisoformat_std "2026-02-12T14:05:00+05:00" = Some event
       /\ parse_iso fromisoformat_std (start_time s) = Some shown
       /\ parse_iso fromisoformat_std "2026-02-12T09:05:00+00:00" = Some expected
       /\ same_instant_to_second event expected
       /\ ~ same_instant_to_second event shown
       /\ (exists i, utc_micros event = Some i
                     /\ utc_micros shown = Some (i + 5 * 3600 * 1000000)%Z).
Proof.
  split; [vm_compute; reflexivity|].
  do 4 eexists.
  split; [vm_compute; reflexivity|].
  split; [reflexivity|]. split; [reflexivity|].
  split; [vm_compute; reflexivity|].
  split; [vm_compute; reflexivity|].
  split; [vm_compute; reflexivity|].
  split; [vm_compute; reflexivity|].
  split; [vm_compute; intros H; discriminate|].
  eexists. split; vm_compute; reflexivity.
Qed.

(** The same defect, seen from outside: a session whose reported start
    lies after its reported end. *)
Example offset_start_after_end :
  exists s,
    fst (compute_summary fromisoformat_std "alice" "s1" offset_world_two) = inr s
    /\ start_time s = "2026-02-12T14:05:00+00:00"
    /\ end_time s = "2026-02-12T10:00:00+00:00"
    /\ String.ltb (end_time s) (start_time s) = true.
Proof. eexists. repeat split; vm_compute; reflexivity. Qed.

(** C4, on the code: two events of one session, one stamped with a [Z] and
    one without an offset.  [record_event] accepts both, and from then on
    [compute_summary] raises [TypeError] for that session, and with it
    [end_session] and [export_session]: no summary is available. *)
Theorem mixed_timestamps_raise :
  fst (handle fromisoformat_std
         (RecordEvent "tok" (Some "alice")
            (mkEventIn "s1" "bet" 10 (Some "2026-02-12T14:05:00Z")))
         (boot example_clock))
  = inr (Message "Event recorded")
  /\ fst (handle fromisoformat_std
            (RecordEvent "tok" None
               (mkEventIn "s1" "win" 15 (Some "2026-02-12T14:06:00")))
            (serve fromisoformat_std (firstn 1 mixed_requests) (boot example_clock)))
     = inr (Message "Event recorded")
  /\ is_Some (session_lookup "alice" "s1" mixed_world)
  /\ fst (compute_summary fromisoformat_std "alice" "s1" mixed_world) = inl TypeError
  /\ fst (end_session fromisoformat_std "tok" None "s1" mixed_world) = inl TypeError
  /\ fst (export_session fromisoformat_std "tok" None (Some "s1") None mixed_world)
     = inl TypeError.
Proof.
  split; [vm_compute; reflexivity|].
  split; [vm_compute; reflexivity|].
  split; [vm_compute; eexists; reflexivity|].
  repeat split; vm_compute; reflexivity.
Qed.

(* ===================================================================== *)
(** * Further properties: numbers *)
(* ===================================================================== *)

Lemma is_integer_int_of_float (f : float) :
  is_integer f = true -> exists z, int_of_float f = Some z.
Proof.
  unfold is_integer, int_of_float.
  destruct (Prim2SF f); try discriminate; eauto.
Qed.

(** X1: [_int_if_whole] is a normal form.  Applying it twice is applying it
    once, an [int] goes through untouched, and a [float] that comes out is
    never whole: a summary holds no number like [10.0]. *)
Theorem int_if_whole_normal_form (x : pynum) :
  _int_if_whole (_int_if_whole x) = _int_if_whole x
  /\ (forall z, x = PyInt z -> _int_if_whole x = PyInt z)
  /\ (forall f, _int_if_whole x = PyFloat f -> is_integer f = false /\ x = PyFloat f).
Proof.
  destruct x as [z|f]; simpl.
  - split; [reflexivity|]. split; [intros z0 Hz; exact Hz|]. intros g Hg. discriminate.
  - destruct (is_integer f) eqn:Hi.
    + destruct (is_integer_int_of_float f Hi) as (z & ->). simpl.
      split; [reflexivity|]. split; [discriminate|]. intros g Hg. discriminate.
    + simpl. rewrite Hi. split; [reflexivity|]. split; [discriminate|].
      intros g [= <-]. split; [exact Hi|reflexivity].
Qed.




Lemma sum_amounts_none (ty : string) (events : list Event) (acc : pynum) :
  (forall e, e ∈ events -> event_type e <> ty) -> sum_amounts ty acc events = acc.
Proof.
  revert acc. induction events as [|e rest IH]; intros acc Hnone; simpl; [reflexivity|].
  destruct (String.eqb_spec (event_type e) ty) as [Heq|Hne].
  - exfalso. apply (Hnone e); [left|exact Heq].
  - apply IH. intros x Hx. apply Hnone. now right.
Qed.

(** X3: the numbers of a session without bets or without wins.  The round
    count lies between 0 and the number of events.  With no bet event the
    rounds are 0 and the bets the [int] 0, with no win event the wins are
    the [int] 0, and with neither the net change is the [int] 0: an empty
    sum is an [int], not [0.0]. *)
Theorem numbers_of_missing_types (events : list Event) :
  (0 <= rounds_of events <= Z.of_nat (length events))%Z
  /\ ((forall e, e ∈ events -> event_type e <> "bet") ->
      rounds_of events = 0%Z /\ _int_if_whole (total_bets_of events) = PyInt 0)
  /\ ((forall e, e ∈ events -> event_type e <> "win") ->
      _int_if_whole (total_wins_of events) = PyInt 0)
  /\ ((forall e, e ∈ events -> event_type e <> "bet" /\ event_type e <> "win") ->
      _int_if_whole (net_change_of events) = PyInt 0).
Proof.
  unfold rounds_of, net_change_of, total_bets_of, total_wins_of.
  split.
  - rewrite count_rounds_spec. unfold events_of_type.
    pose proof (length_filter (fun e => event_type e = "bet") events). lia.
  - split; [|split].
    + intros Hnone. rewrite count_rounds_spec, sum_amounts_none by exact Hnone.
      split; [|reflexivity].
      unfold events_of_type.
      replace (filter (fun e => event_type e = "bet") events) with (@nil Event);
        [reflexivity|].
      symmetry. induction events as [|e rest IH]; [reflexivity|].
      rewrite filter_cons, decide_False by (apply Hnone; left).
      apply IH. intros x Hx. apply Hnone. now right.
    + intros Hnone. now rewrite sum_amounts_none.
    + intros Hnone. rewrite !sum_amounts_none; [reflexivity| |];
        intros e He; now apply Hnone.
Qed.

(* ===================================================================== *)
(** * Further properties: timestamps *)
(* ===================================================================== *)

Lemma endswith_Z_snoc (s : string) : endswith_Z (s ++ "Z") = true.
Proof.
  induction s as [|c s IH]; [reflexivity|].
  simpl. destruct (s ++ "Z")%string eqn:Hs; [|exact IH].
  destruct s; discriminate.
Qed.

Lemma replace_Z_app (s t : string) :
  replace_Z (s ++ t) = (replace_Z s ++ replace_Z t)%string.
Proof.
  induction s as [|c s IH]; [reflexivity|].
  simpl. destruct (Ascii.eqb c "Z"); simpl; now rewrite IH.
Qed.

Lemma replace_Z_free (s : string) :
  (forall c, In c (list_ascii_of_string s) -> c <> "Z"%char) -> replace_Z s = s.
Proof.
  induction s as [|c s IH]; intros Hfree; [reflexivity|].
  simpl. destruct (Ascii.eqb_spec c "Z") as [->|Hne].
  - exfalso. apply (Hfree "Z"%char); [left|]; reflexivity.
  - f_equal. apply IH. intros x Hx. apply Hfree. now right.
Qed.

(** X4: [parse_iso] and the trailing [Z].  A timestamp that does not end in
    [Z] goes to [fromisoformat] as it is.  One that ends in [Z] has every
    [Z] replaced by [+00:00], not only the last, so for a text [s] without
    a [Z], [s ++ "Z"] is read as [s ++ "+00:00"]. *)
Theorem parse_iso_trailing_Z (fromisoformat : string -> option datetime) (s : string) :
  (endswith_Z s = false -> parse_iso fromisoformat s = fromisoformat s)
  /\ parse_iso fromisoformat (s ++ "Z")
     = fromisoformat (replace_Z s ++ "+00:00")%string
  /\ ((forall c, In c (list_ascii_of_string s) -> c <> "Z"%char) ->
      parse_iso fromisoformat (s ++ "Z") = fromisoformat (s ++ "+00:00")%string).
Proof.
  unfold parse_iso. split; [intros ->; reflexivity|].
  rewrite endswith_Z_snoc, replace_Z_app. split; [reflexivity|].
  intros Hfree. now rewrite replace_Z_free.
Qed.

Example parse_iso_inner_Z :
  parse_iso fromisoformat_std "2026-02-12Z14:05:00Z" = None
  /\ parse_iso fromisoformat_std "2026-02-12Z14:05:00" <> None.
Proof. split; vm_compute; [reflexivity|discriminate]. Qed.

Lemma digit_char_is_digit (d : Z) :
  In (digit_char d)
     ["0"; "1"; "2"; "3"; "4"; "5"; "6"; "7"; "8"; "9"]%char.
Proof.
  unfold digit_char.
  assert (Hk : (Z.to_nat (d mod 10) < 10)%nat).
  { pose proof (Z.mod_pos_bound d 10 ltac:(lia)). lia. }
  destruct (Z.to_nat (d mod 10)) as [|k]; [simpl; tauto|].
  do 9 (destruct k as [|k]; [simpl; tauto|]). lia.
Qed.

Lemma digit_val_digit_char (d : Z) : digit_val (digit_char d) = Some (d mod 10)%Z.
Proof.
  unfold digit_val, digit_char.
  pose proof (Z.mod_pos_bound d 10 ltac:(lia)) as Hd.
  rewrite nat_ascii_embedding by lia.
  replace ((48 <=? 48 + Z.to_nat (d mod 10))%nat
           && (48 + Z.to_nat (d mod 10) <=? 57)%nat) with true.
  - f_equal. lia.
  - symmetry. apply andb_true_intro. split; apply Nat.leb_le; lia.
Qed.

Lemma parse_digits_digit_char (acc d : Z) (rest : list ascii) :
  parse_digits acc (digit_char d :: rest)
  = parse_digits (acc * 10 + d mod 10)%Z rest.
Proof. cbn [parse_digits]. now rewrite digit_val_digit_char. Qed.

Lemma parse_two_digits (n : Z) :
  (0 <= n < 100)%Z ->
  parse_digits 0 [digit_char (n / 10); digit_char (n / 1)] = Some n.
Proof.
  intros Hn. rewrite !parse_digits_digit_char. cbn [parse_digits]. f_equal.
  rewrite Z.div_1_r. Z.to_euclidean_division_equations. lia.
Qed.

Lemma parse_four_digits (n : Z) :
  (0 <= n < 10000)%Z ->
  parse_digits 0 [digit_char (n / 1000); digit_char (n / 100);
                  digit_char (n / 10); digit_char (n / 1)] = Some n.
Proof.
  intros Hn. rewrite !parse_digits_digit_char. cbn [parse_digits]. f_equal.
  rewrite Z.div_1_r. Z.to_euclidean_division_equations. lia.
Qed.

Lemma split_at_absent (c : ascii) (cs : list ascii) :
  ~ In c cs -> split_at c cs = None.
Proof.
  induction cs as [|x rest IH]; intros Hnot; simpl; [reflexivity|].
  destruct (Ascii.eqb_spec x c) as [->|Hne].
  - exfalso. apply Hnot. now left.
  - rewrite IH; [reflexivity|]. intros Hin. apply Hnot. now right.
Qed.

Lemma split_at_first (c : ascii) (pre post : list ascii) :
  ~ In c pre -> split_at c (pre ++ c :: post) = Some (pre, post).
Proof.
  induction pre as [|x rest IH]; intros Hnot; simpl.
  - now rewrite Ascii.eqb_refl.
  - destruct (Ascii.eqb_spec x c) as [->|Hne].
    + exfalso. apply Hnot. now left.
    + rewrite IH; [reflexivity|]. intros Hin. apply Hnot. now right.
Qed.

(** The time of day as [isoformat] writes it holds neither sign. *)
Lemma clock_chars_no_sign (c : ascii) (h1 h2 m1 m2 s1 s2 : Z) :
  c = "-"%char \/ c = "+"%char ->
  ~ In c [digit_char h1; digit_char h2; ":"%char; digit_char m1; digit_char m2;
          ":"%char; digit_char s1; digit_char s2].
Proof.
  intros Hc Hin.
  assert (Hd : forall d, digit_char d <> c).
  { intros d Heq. pose proof (digit_char_is_digit d) as H. rewrite Heq in H.
    destruct Hc as [-> | ->]; simpl in H; intuition discriminate. }
  simpl in Hin.
  destruct Hin as [H|[H|[H|[H|[H|[H|[H|[H|[]]]]]]]]];
    try (now apply (Hd _ H));
    destruct Hc as [-> | ->]; discriminate.
Qed.

(** [isoformat] of a UTC value without microseconds, written out. *)
Lemma isoformat_utc_second (y mo d h mi s : Z) :
  isoformat (mkdatetime y mo d h mi s 0 timezone_utc)
  = String (digit_char (y / 1000)) (String (digit_char (y / 100))
    (String (digit_char (y / 10)) (String (digit_char (y / 1))
    (String "-" (String (digit_char (mo / 10)) (String (digit_char (mo / 1))
    (String "-" (String (digit_char (d / 10)) (String (digit_char (d / 1))
    (String "T" (String (digit_char (h / 10)) (String (digit_char (h / 1))
    (String ":" (String (digit_char (mi / 10)) (String (digit_char (mi / 1))
    (String ":" (String (digit_char (s / 10)) (String (digit_char (s / 1))
    "+00:00")))))))))))))))))).
Proof. reflexivity. Qed.

(** Reading back what [isoformat] wrote for a valid UTC value without
    microseconds gives the value. *)
Lemma fromisoformat_isoformat_utc (y mo d h mi s : Z) :
  valid_fields y mo d h mi s 0 = true ->
  fromisoformat_std (isoformat (mkdatetime y mo d h mi s 0 timezone_utc))
  = Some (mkdatetime y mo d h mi s 0 timezone_utc)
  /\ endswith_Z (isoformat (mkdatetime y mo d h mi s 0 timezone_utc)) = false.
Proof.
  intros Hvalid. rewrite isoformat_utc_second. split; [|reflexivity].
  assert (Hr : (1 <= y <= 9999 /\ 1 <= mo <= 12 /\ 1 <= d <= 31 /\ 0 <= h <= 23
                /\ 0 <= mi <= 59 /\ 0 <= s <= 59)%Z).
  { unfold valid_fields in Hvalid.
    repeat (apply andb_prop in Hvalid as [Hvalid ?]).
    repeat match goal with H : (_ <=? _)%Z = true |- _ => apply Z.leb_le in H end.
    assert (days_in_month y mo <= 31)%Z.
    { unfold days_in_month.
      destruct (mo =? 2)%Z; [destruct (is_leap y); lia|].
      destruct ((mo =? 4) || (mo =? 6) || (mo =? 9) || (mo =? 11))%Z; lia. }
    lia. }
  unfold fromisoformat_std.
  cbn [list_ascii_of_string firstn skipn].
  rewrite (parse_four_digits y), (parse_two_digits mo), (parse_two_digits d) by lia.
  unfold parse_isoformat_time.
  rewrite (split_at_absent "-"%char)
    by (intros Hin;
        apply (clock_chars_no_sign "-" (h / 10) (h / 1) (mi / 10) (mi / 1)
                 (s / 10) (s / 1) ltac:(now left));
        simpl in Hin; simpl; intuition discriminate).
  change (split_at "+"%char
            [digit_char (h / 10); digit_char (h / 1); ":"%char; digit_char (mi / 10);
             digit_char (mi / 1); ":"%char; digit_char (s / 10); digit_char (s / 1);
             "+"%char; "0"%char; "0"%char; ":"%char; "0"%char; "0"%char])
    with (split_at "+"%char
            ([digit_char (h / 10); digit_char (h / 1); ":"%char; digit_char (mi / 10);
              digit_char (mi / 1); ":"%char; digit_char (s / 10); digit_char (s / 1)]
             ++ "+"%char :: ["0"%char; "0"%char; ":"%char; "0"%char; "0"%char])).
  rewrite split_at_first
    by (apply clock_chars_no_sign; now right).
  cbn [length Nat.eqb orb negb].
  unfold parse_hh_mm_ss_ff.
  rewrite (parse_two_digits h), (parse_two_digits mi), (parse_two_digits s) by lia.
  change (parse_fraction []) with (Some 0%Z).
  change (parse_digits 0 ["0"%char; "0"%char]) with (Some 0%Z).
  cbv beta iota.
  change ((((0 * 60 + 0) * 60 + 0) * 1000000 + 0 <? 86400000000)%Z) with true.
  cbv beta iota. rewrite Hvalid. reflexivity.
Qed.

Lemma valid_fields_second (y mo d h mi s us : Z) :
  valid_fields y mo d h mi s us = true -> valid_fields y mo d h mi s 0 = true.
Proof.
  unfold valid_fields. intros H.
  repeat (apply andb_prop in H as [H ?]).
  repeat (apply andb_true_intro; split); auto.
Qed.

Lemma now_reading_parses (w : World) :
  valid_datetime (clock w (ticks w)) = true ->
  parse_iso fromisoformat_std (isoformat (now_reading w)) = Some (now_reading w).
Proof.
  intros Hvalid.
  unfold valid_datetime in Hvalid. apply valid_fields_second in Hvalid.
  unfold now_reading.
  destruct (fromisoformat_isoformat_utc _ _ _ _ _ _ Hvalid) as [Hparse Hz].
  unfold parse_iso. rewrite Hz. exact Hparse.
Qed.

(** X5: the timestamp [now_iso] writes can be read back.  For a valid
    clock reading, [now_iso] returns a string that [parse_iso] accepts and
    that denotes the reading in UTC cut to the second; so an event recorded
    without a timestamp carries one that [compute_summary] will not skip. *)
Theorem now_iso_parses (w : World) :
  valid_datetime (clock w (ticks w)) = true ->
  now_iso w = (inr (isoformat (now_reading w)), tick w)
  /\ parse_iso fromisoformat_std (isoformat (now_reading w)) = Some (now_reading w)
  /\ utc_micros (now_reading w)
     = Some (wall_micros (clock w (ticks w)) - microsecond (clock w (ticks w)))%Z.
Proof.
  intros Hvalid. split; [reflexivity|].
  split; [now apply now_reading_parses|].
  unfold now_reading, utc_micros, wall_micros, timezone_utc. simpl. f_equal. lia.
Qed.

Lemma now_iso_parses_witness :
  valid_datetime (clock (boot example_clock) (ticks (boot example_clock))) = true
  /\ now_iso (boot example_clock)
     = (inr (isoformat (now_reading (boot example_clock))), tick (boot example_clock))
  /\ parse_iso fromisoformat_std (isoformat (now_reading (boot example_clock)))
     = Some (now_reading (boot example_clock))
  /\ utc_micros (now_reading (boot example_clock))
     = Some (wall_micros (clock (boot example_clock) (ticks (boot example_clock)))
             - microsecond (clock (boot example_clock) (ticks (boot example_clock))))%Z.
Proof.
  split; [reflexivity|].
  apply (now_iso_parses (boot example_clock)). reflexivity.
Defined.

(* ===================================================================== *)
(** * Further properties: persistence *)
(* ===================================================================== *)

(** X6: [save_finished] writes through a temporary file and leaves none.
    After it, [DATA_FILE] holds the archive's document, the temporary file
    does not exist (a stale one is gone too), every other file and all
    tables are as before, and saving again changes nothing. *)
Theorem save_finished_atomic (w : World) :
  let w' := snd (save_finished w) in
  files w' !! DATA_FILE = Some (Parsed (finished_to_json (FINISHED w)))
  /\ files w' !! TMP_FILE = None
  /\ (forall path, path <> DATA_FILE -> path <> TMP_FILE ->
        files w' !! path = files w !! path)
  /\ TOKEN_USER w' = TOKEN_USER w /\ ACTIVE w' = ACTIVE w /\ FINISHED w' = FINISHED w
  /\ snd (save_finished w') = w'.
Proof.
  unfold save_finished, modify. cbn [snd]. fold TMP_FILE.
  assert (Hne : DATA_FILE <> TMP_FILE) by discriminate.
  repeat apply conj; try reflexivity.
  - apply lookup_insert_eq.
  - cbn [files set_files]. rewrite lookup_insert_ne by exact Hne.
    apply lookup_delete_eq.
  - intros path Hd Ht. cbn [files set_files].
    rewrite lookup_insert_ne by congruence.
    rewrite lookup_delete_ne by congruence.
    now rewrite lookup_insert_ne by congruence.
  - unfold set_files. cbn [TOKEN_USER ACTIVE FINISHED files clock ticks]. f_equal.
    apply map_eq. intros path.
    destruct (decide (DATA_FILE = path)) as [<-|Hd].
    + now rewrite !lookup_insert_eq.
    + rewrite !(lookup_insert_ne _ DATA_FILE) by exact Hd.
      destruct (decide (TMP_FILE = path)) as [<-|Ht].
      * now rewrite !lookup_delete_eq.
      * rewrite !lookup_delete_ne by exact Ht.
        rewrite !(lookup_insert_ne _ TMP_FILE) by exact Ht.
        rewrite lookup_insert_ne by exact Hd.
        now rewrite lookup_delete_ne, lookup_insert_ne by exact Ht.
Qed.

Lemma restart_files (w1 w2 : World) :
  files w1 = files w2 ->
  option_map FINISHED (restart w1) = option_map FINISHED (restart w2).
Proof.
  intros Hf. unfold restart, load_finished. cbn [files]. rewrite Hf.
  destruct (files w2 !! DATA_FILE) as [[|j]|]; try reflexivity.
  destruct j; try reflexivity.
  destruct (finished_of_members ∅ l); reflexivity.
Qed.

Lemma disk_in_sync_same (w w' : World) :
  FINISHED w' = FINISHED w -> files w' = files w ->
  disk_in_sync w -> disk_in_sync w'.
Proof.
  unfold disk_in_sync. intros Hfin Hfiles H.
  now rewrite (restart_files w' w Hfiles), Hfin.
Qed.

Lemma disk_in_sync_saved (w : World) : disk_in_sync (snd (save_finished w)).
Proof.
  unfold disk_in_sync, restart.
  rewrite (load_finished_written _ (FINISHED w)); [reflexivity|].
  unfold save_finished, modify. simpl. apply lookup_insert_eq.
Qed.

(* ===================================================================== *)
(** * Further properties: the handlers, run *)
(* ===================================================================== *)

Lemma now_iso_run (w : World) :
  now_iso w = (inr (isoformat (now_reading w)), tick w).
Proof. reflexivity. Qed.

(** A handler whose identity resolution fails does nothing else. *)
Lemma bind_identity_fails {A : Type} (token : string) (hint : option string)
      (k : string -> M A) (w w' : World) (e : exn) :
  current_user_id token hint w = (inl e, w') ->
  bind (current_user_id token hint) k w = (inl e, w) /\ w' = w.
Proof.
  intros H. unfold bind. rewrite H.
  assert (Hw : w' = w).
  { rewrite current_user_id_run in H. cbv zeta in H.
    destruct (TOKEN_USER w !! token) as [bound|].
    - destruct (str_truthy bound).
      + destruct hint as [h|]; [|discriminate].
        destruct (str_truthy h && negb (String.eqb h bound)); congruence.
      + destruct hint as [h|]; [|congruence]. destruct (str_truthy h); congruence.
    - destruct hint as [h|]; [|congruence]. destruct (str_truthy h); congruence. }
  now subst w'.
Qed.

Section HandlersRun.

Variable fromisoformat : string -> option datetime.

Lemma record_event_run (token : string) (hint : option string) (req : EventIn)
      (user : string) (w wa : World) :
  current_user_id token hint w = (inr user, wa) ->
  record_event fromisoformat token hint req w
  = match in_timestamp req with
    | None =>
        (inr "Event recorded",
         append_event user req (isoformat (now_reading wa)) (tick wa))
    | Some ts =>
        match parse_iso fromisoformat ts with
        | Some _ => (inr "Event recorded", append_event user req ts wa)
        | None => (inl bad_timestamp, wa)
        end
    end.
Proof.
  intros Hid. unfold record_event. unfold bind at 1. rewrite Hid.
  destruct (in_timestamp req) as [ts|].
  - destruct (parse_iso fromisoformat ts); reflexivity.
  - reflexivity.
Qed.

Lemma end_session_run (token : string) (hint : option string) (sid user : string)
      (w wa : World) :
  current_user_id token hint w = (inr user, wa) ->
  end_session fromisoformat token hint sid w
  = match session_lookup user sid wa with
    | None => (inl not_found, wa)
    | Some sess =>
        let wb := match sess_end_time sess with
                  | None => set_end_time user sid (isoformat (now_reading wa)) (tick wa)
                  | Some _ => wa
                  end in
        match compute_summary fromisoformat user sid wb with
        | (inr s, wc) => (inr s, snd (save_finished (store_finished user sid s wc)))
        | (inl e, wc) => (inl e, wc)
        end
    end.
Proof.
  intros Hid. unfold end_session. unfold bind at 1. rewrite Hid.
  unfold bind at 1. unfold gets at 1.
  destruct (session_lookup user sid wa) as [sess|]; [|reflexivity].
  cbv zeta. unfold bind at 1.
  destruct (sess_end_time sess) as [stored|].
  - unfold ret at 1. unfold bind at 1.
    destruct (compute_summary fromisoformat user sid wa) as [[e|s0] wc]; reflexivity.
  - unfold bind at 1. rewrite now_iso_run. unfold modify at 1. unfold bind at 1.
    destruct (compute_summary fromisoformat user sid _) as [[e|s0] wc]; reflexivity.
Qed.

Lemma get_latest_run (token : string) (hint : option string) (user : string)
      (w wa : World) :
  current_user_id token hint w = (inr user, wa) ->
  snd (get_latest token hint w) = wa.
Proof.
  intros Hid. unfold get_latest, bind, gets. rewrite Hid.
  destruct (finished_lookup user wa); reflexivity.
Qed.

(** [compute_summary] reads the clock and nothing else changes. *)
Lemma compute_summary_tables (user sid : string) (w : World) :
  let w' := snd (compute_summary fromisoformat user sid w) in
  TOKEN_USER w' = TOKEN_USER w /\ ACTIVE w' = ACTIVE w
  /\ FINISHED w' = FINISHED w /\ files w' = files w /\ clock w' = clock w.
Proof.
  cbv zeta.
  repeat split; apply (keeps_compute_summary fromisoformat); reflexivity.
Qed.

End HandlersRun.

(* ===================================================================== *)
(** * Further properties: the session store *)
(* ===================================================================== *)

Lemma append_event_lookup (user : string) (req : EventIn) (ts : string) (w : World) :
  session_lookup user (in_session_id req) (append_event user req ts w)
  = Some (match session_lookup user (in_session_id req) w with
          | Some old =>
              mkSession (sess_start_time old) (sess_end_time old)
                (sess_events old
                 ++ [mkEvent (in_event_type req) (in_amount req) ts])
          | None =>
              mkSession (Some ts) None
                [mkEvent (in_event_type req) (in_amount req) ts]
          end).
Proof.
  unfold session_lookup, append_event. simpl.
  rewrite lookup_insert_eq. simpl. rewrite lookup_insert_eq.
  destruct (default ∅ (ACTIVE w !! user) !! in_session_id req); reflexivity.
Qed.

Lemma append_event_other (user : string) (req : EventIn) (ts : string) (w : World)
      (u i : string) :
  u <> user \/ i <> in_session_id req ->
  session_lookup u i (append_event user req ts w) = session_lookup u i w.
Proof.
  intros Hne. unfold session_lookup, append_event. simpl.
  destruct (decide (user = u)) as [<-|Hu].
  - rewrite lookup_insert_eq. simpl.
    rewrite lookup_insert_ne; [reflexivity|]. destruct Hne; congruence.
  - now rewrite lookup_insert_ne.
Qed.

Lemma set_end_time_other (user sid now : string) (w : World) (u i : string) :
  u <> user \/ i <> sid ->
  session_lookup u i (set_end_time user sid now w) = session_lookup u i w.
Proof.
  intros Hne. unfold set_end_time.
  destruct (default ∅ (ACTIVE w !! user) !! sid) as [sess|]; [|reflexivity].
  unfold session_lookup. simpl.
  destruct (decide (user = u)) as [<-|Hu].
  - rewrite lookup_insert_eq. simpl.
    rewrite lookup_insert_ne; [reflexivity|]. destruct Hne; congruence.
  - now rewrite lookup_insert_ne.
Qed.

(** X7: what a successful [record_event] stores.  Once the caller is
    identified and the supplied timestamp (if any) parses, the call
    succeeds.  The event, stamped with the supplied timestamp or else with
    the clock reading, is appended to the session, which is created with
    that timestamp as [start_time] and no [end_time] if it did not exist;
    an existing session keeps its [start_time] and its [end_time], so an
    ended session still takes events.  No other session, no archive and no
    file changes. *)
Theorem record_event_appends (fromisoformat : string -> option datetime)
        (token : string) (hint : option string) (req : EventIn) (user : string)
        (w wa : World) :
  current_user_id token hint w = (inr user, wa) ->
  (forall ts, in_timestamp req = Some ts -> parse_iso fromisoformat ts <> None) ->
  exists w',
    record_event fromisoformat token hint req w = (inr "Event recorded", w')
    /\ let ts := default (isoformat (now_reading wa)) (in_timestamp req) in
       let ev := mkEvent (in_event_type req) (in_amount req) ts in
       session_lookup user (in_session_id req) w'
       = Some (match session_lookup user (in_session_id req) w with
               | Some old =>
                   mkSession (sess_start_time old) (sess_end_time old)
                             (sess_events old ++ [ev])
               | None => mkSession (Some ts) None [ev]
               end)
    /\ (forall u i, u <> user \/ i <> in_session_id req ->
          session_lookup u i w' = session_lookup u i w)
    /\ FINISHED w' = FINISHED w /\ files w' = files w.
Proof.
  intros Hid Hparse.
  destruct (current_user_id_returns _ _ _ _ _ Hid)
    as (_ & _ & _ & Hact & Hfin & Hfiles & _).
  rewrite (record_event_run fromisoformat _ _ _ _ _ _ Hid).
  assert (Hlook : forall u i, session_lookup u i wa = session_lookup u i w)
    by (intros; now apply session_lookup_ACTIVE).
  destruct (in_timestamp req) as [ts|] eqn:Hts.
  - destruct (parse_iso fromisoformat ts) eqn:Hp; [|now destruct (Hparse ts)].
    eexists. split; [reflexivity|]. cbn [default].
    rewrite append_event_lookup, Hlook. split; [reflexivity|].
    split; [|split; assumption].
    intros u i Hne. now rewrite append_event_other, Hlook.
  - eexists. split; [reflexivity|]. cbn [default].
    rewrite append_event_lookup.
    change (session_lookup user (in_session_id req) (tick wa))
      with (session_lookup user (in_session_id req) wa).
    rewrite Hlook. split; [reflexivity|].
    split; [|split; assumption].
    intros u i Hne. rewrite append_event_other by exact Hne.
    change (session_lookup u i (tick wa)) with (session_lookup u i wa).
    apply Hlook.
Qed.

Lemma record_event_appends_witness :
  current_user_id "tok" None example_world = (inr "alice", example_world)
  /\ (forall ts, in_timestamp example_event_in = Some ts ->
        parse_iso fromisoformat_std ts <> None)
  /\ exists w',
       record_event fromisoformat_std "tok" None example_event_in example_world
       = (inr "Event recorded", w')
       /\ let ts := default (isoformat (now_reading example_world))
                            (in_timestamp example_event_in) in
          let ev := mkEvent (in_event_type example_event_in)
                            (in_amount example_event_in) ts in
          session_lookup "alice" (in_session_id example_event_in) w'
          = Some (match session_lookup "alice" (in_session_id example_event_in)
                          example_world with
                  | Some old =>
                      mkSession (sess_start_time old) (sess_end_time old)
                                (sess_events old ++ [ev])
                  | None => mkSession (Some ts) None [ev]
                  end)
       /\ (forall u i, u <> "alice" \/ i <> in_session_id example_event_in ->
             session_lookup u i w' = session_lookup u i example_world)
       /\ FINISHED w' = FINISHED example_world /\ files w' = files example_world.
Proof.
  assert (Hid : current_user_id "tok" None example_world
                = (inr "alice", example_world)) by (vm_compute; reflexivity).
  assert (Hts : forall ts, in_timestamp example_event_in = Some ts ->
                  parse_iso fromisoformat_std ts <> None).
  { intros ts [= <-]. vm_compute. discriminate. }
  split; [exact Hid|]. split; [exact Hts|].
  exact (record_event_appends fromisoformat_std "tok" None example_event_in "alice"
           example_world example_world Hid Hts).
Defined.

(** X8: a timestamp that does not parse.  [record_event] answers 400 and
    leaves the state as identity resolution left it: no session is created
    or changed, the clock is not read, and a token that the same request
    bound stays bound. *)
Theorem record_event_bad_timestamp (fromisoformat : string -> option datetime)
        (token : string) (hint : option string) (req : EventIn) (user ts : string)
        (w wa : World) :
  current_user_id token hint w = (inr user, wa) ->
  in_timestamp req = Some ts ->
  parse_iso fromisoformat ts = None ->
  record_event fromisoformat token hint req w = (inl bad_timestamp, wa)
  /\ TOKEN_USER wa !! token = Some user
  /\ ACTIVE wa = ACTIVE w /\ FINISHED wa = FINISHED w /\ files wa = files w
  /\ ticks wa = ticks w.
Proof.
  intros Hid Hts Hp.
  rewrite (record_event_run fromisoformat _ _ _ _ _ _ Hid), Hts, Hp.
  destruct (current_user_id_returns _ _ _ _ _ Hid)
    as (Htok & _ & _ & Hact & Hfin & Hfiles & _ & Hticks).
  auto 10.
Qed.

Lemma record_event_bad_timestamp_witness :
  current_user_id "tok" None example_world = (inr "alice", example_world)
  /\ in_timestamp bad_event_in = Some "yesterday"
  /\ parse_iso fromisoformat_std "yesterday" = None
  /\ record_event fromisoformat_std "tok" None bad_event_in example_world
     = (inl bad_timestamp, example_world)
  /\ TOKEN_USER example_world !! "tok" = Some "alice"
  /\ ACTIVE example_world = ACTIVE example_world
  /\ FINISHED example_world = FINISHED example_world
  /\ files example_world = files example_world
  /\ ticks example_world = ticks example_world.
Proof.
  assert (Hid : current_user_id "tok" None example_world
                = (inr "alice", example_world)) by (vm_compute; reflexivity).
  assert (Hp : parse_iso fromisoformat_std "yesterday" = None)
    by (vm_compute; reflexivity).
  split; [exact Hid|]. split; [reflexivity|]. split; [exact Hp|].
  exact (record_event_bad_timestamp fromisoformat_std "tok" None bad_event_in "alice"
           "yesterday" example_world example_world Hid eq_refl Hp).
Defined.

(* ===================================================================== *)
(** * Further properties: requests as sequences of state changes *)
(* ===================================================================== *)

Lemma identity_steps (accepted : string -> Prop) (u : option string)
      (token : string) (hint : option string) (user : string) (w wa : World) :
  current_user_id token hint w = (inr user, wa) -> rtc (step accepted u) w wa.
Proof.
  rewrite current_user_id_run. cbv zeta.
  assert (Hfirst :
    match hint with
    | Some h =>
        if str_truthy h
        then (inr h, set_TOKEN_USER (<[token := h]> (TOKEN_USER w)) w)
        else (inl unauthenticated, w)
    | None => (inl unauthenticated, w)
    end = (inr user, wa) -> rtc (step accepted u) w wa).
  { destruct hint as [h|]; [|discriminate].
    destruct (str_truthy h) eqn:Hh; [|discriminate].
    intros [= <- <-]. apply rtc_once. constructor. now apply str_truthy_true. }
  destruct (TOKEN_USER w !! token) as [bound|]; [|exact Hfirst].
  destruct (str_truthy bound); [|exact Hfirst].
  destruct hint as [h|].
  - destruct (str_truthy h && negb (String.eqb h bound)); [discriminate|].
    intros [= <- <-]. apply rtc_refl.
  - intros [= <- <-]. apply rtc_refl.
Qed.

Lemma or_now_steps (accepted : string -> Prop) (u : option string)
      (x : option string) (w : World) :
  rtc (step accepted u) w (snd (or_now x w)).
Proof.
  unfold or_now. destruct (opt_truthy x); simpl.
  - apply rtc_refl.
  - apply rtc_once. constructor.
Qed.

Lemma or_now_given (s : string) (w : World) :
  s <> "" -> or_now (Some s) w = (inr s, w).
Proof.
  intros Hs. unfold or_now, opt_truthy.
  apply str_truthy_true in Hs. now rewrite Hs.
Qed.

Lemma or_now_truthy (x : option string) (w w' : World) (s : string) :
  or_now x w = (inr s, w') -> s <> "".
Proof.
  intros H. destruct (or_now_returns x w) as (s0 & w0 & H0 & Hs & _).
  rewrite H in H0. injection H0 as <- <-. now apply str_truthy_true.
Qed.

Section Steps.

Variable fromisoformat : string -> option datetime.

Lemma compute_summary_summarises (user sid : string) (stored : Session) (w : World) :
  session_lookup user sid w = Some stored ->
  match compute_summary fromisoformat user sid w with
  | (inr s, _) => summarises user sid stored s
  | (inl _, _) => True
  end.
Proof.
  intros Hlook.
  pose proof (compute_summary_active fromisoformat user sid stored w Hlook) as H.
  destruct (compute_summary fromisoformat user sid w) as [[e|s] w']; [exact I|].
  destruct H as (times & w1 & Hd & Hst & Hen & Hs).
  split; [exact Hs|]. split; [exact (or_now_truthy _ _ _ _ Hst)|].
  split; [exact (or_now_truthy _ _ _ _ Hen)|].
  intros e Hstored He.
  rewrite (derive_times_stored_end _ _ _ _ _ _ Hstored Hd) in Hen.
  rewrite or_now_given in Hen by exact He. now injection Hen as <- _.
Qed.

Lemma compute_summary_steps (accepted : string -> Prop) (u : option string)
      (user sid : string) (w : World) :
  rtc (step accepted u) w (snd (compute_summary fromisoformat user sid w)).
Proof.
  unfold compute_summary, bind, gets.
  destruct (session_lookup user sid w) as [sess|].
  - destruct (derive_times_any_world sess
                (collect_timestamps fromisoformat (sess_events sess)) w w) as [_ Hw].
    destruct (derive_times sess _ w) as [[e|times] w0]; simpl in Hw; subst w0;
      [apply rtc_refl|].
    pose proof (or_now_steps accepted u (fst times) w) as H1.
    destruct (or_now (fst times) w) as [[e|start] w1]; simpl in H1; [exact H1|].
    pose proof (or_now_steps accepted u (snd times) w1) as H2.
    destruct (or_now (snd times) w1) as [[e|finish] w2]; simpl in H2;
      (etrans; [exact H1|exact H2]).
  - destruct (find_summary sid (finished_lookup user w)); apply rtc_refl.
Qed.

(** Serving a request is a sequence of elementary changes on behalf of the
    user the request is identified as. *)
Lemma handle_steps (r : Request) (w : World) :
  rtc (step (fun ts => parse_iso fromisoformat ts <> None) (request_user r w))
      w (snd (handle fromisoformat r w)).
Proof.
  destruct r as [token hint req|token hint sid|token hint|token hint sid legacy|msg];
    simpl handle; rewrite ?bind_ret_world; [| | | |apply rtc_refl];
    unfold request_user;
    destruct (current_user_id token hint w) as [[e|user] wa] eqn:Hid; simpl fst.
  - unfold record_event.
    rewrite (proj1 (bind_identity_fails token hint _ w wa e Hid)). apply rtc_refl.
  - etrans; [exact (identity_steps _ _ _ _ _ _ _ Hid)|].
    rewrite (record_event_run fromisoformat _ _ _ _ _ _ Hid).
    destruct (in_timestamp req) as [ts|].
    + destruct (parse_iso fromisoformat ts) eqn:Hts; simpl; [|apply rtc_refl].
      apply rtc_once. apply step_append; [reflexivity|]. now rewrite Hts.
    + simpl. apply rtc_once. now apply step_append_now.
  - unfold end_session.
    rewrite (proj1 (bind_identity_fails token hint _ w wa e Hid)). apply rtc_refl.
  - etrans; [exact (identity_steps _ _ _ _ _ _ _ Hid)|].
    rewrite (end_session_run fromisoformat _ _ _ _ _ _ Hid).
    destruct (session_lookup user sid wa) as [sess|] eqn:Hsess; [|apply rtc_refl].
    cbv zeta.
    set (wb := match sess_end_time sess with
               | Some _ => wa
               | None => set_end_time user sid (isoformat (now_reading wa)) (tick wa)
               end).
    assert (Hb : rtc (step (fun ts => parse_iso fromisoformat ts <> None) (Some user))
                     wa wb).
    { subst wb. destruct (sess_end_time sess) eqn:Hend; [apply rtc_refl|].
      apply rtc_once.
      apply (step_end _ _ _ _ _ sess); [reflexivity|exact Hsess|exact Hend]. }
    assert (Hst : exists stored, session_lookup user sid wb = Some stored
                                 /\ sess_end_time stored <> None).
    { subst wb. destruct (sess_end_time sess) eqn:Hend.
      - exists sess. split; [exact Hsess|congruence].
      - eexists. split; [exact (set_end_time_lookup _ _ _ sess (tick wa) Hsess)|].
        discriminate. }
    destruct Hst as (stored & Hstored & Hended).
    etrans; [exact Hb|].
    pose proof (compute_summary_steps (fun ts => parse_iso fromisoformat ts <> None)
                  (Some user) user sid wb) as Hc.
    pose proof (compute_summary_summarises user sid stored wb Hstored) as Hsum.
    pose proof (keeps_compute_summary fromisoformat ACTIVE user sid
                  ltac:(reflexivity) wb) as Hact.
    destruct (compute_summary fromisoformat user sid wb) as [[e|s] wc];
      simpl in Hc, Hact; simpl; [exact Hc|].
    etrans; [exact Hc|].
    apply rtc_once.
    apply (step_store _ _ _ _ _ stored); [reflexivity| |exact Hended|exact Hsum].
    now rewrite (session_lookup_ACTIVE user sid wb wc Hact).
  - unfold get_latest.
    rewrite (proj1 (bind_identity_fails token hint _ w wa e Hid)). apply rtc_refl.
  - rewrite (get_latest_run _ _ _ _ _ Hid).
    exact (identity_steps _ _ _ _ _ _ _ Hid).
  - unfold export_session.
    rewrite (proj1 (bind_identity_fails token hint _ w wa e Hid)). apply rtc_refl.
  - etrans; [exact (identity_steps _ _ _ _ _ _ _ Hid)|].
    rewrite (export_session_identified fromisoformat _ _ _ _ _ _ _ Hid).
    destruct (opt_truthy (py_or sid legacy)); [|apply rtc_refl].
    destruct (find_summary _ _); [rewrite JSONResponse_world; apply rtc_refl|].
    pose proof (compute_summary_steps (fun ts => parse_iso fromisoformat ts <> None)
                  (request_user (ExportSession token hint sid legacy) w) user
                  (default "" (py_or sid legacy)) wa) as Hc.
    unfold request_user in Hc. rewrite Hid in Hc. simpl fst in Hc.
    unfold bind.
    destruct (compute_summary fromisoformat user _ wa) as [[e|s] wc]; simpl in Hc;
      [exact Hc|].
    rewrite JSONResponse_world. exact Hc.
Qed.

End Steps.

(* ===================================================================== *)
(** * Further properties: what every request preserves *)
(* ===================================================================== *)

Lemma continues_refl (s : Session) : continues s s.
Proof.
  split; [reflexivity|]. split; [|auto].
  exists []. now rewrite app_nil_r.
Qed.

Lemma continues_trans (a b c : Session) :
  continues a b -> continues b c -> continues a c.
Proof.
  intros (Hs1 & (m1 & He1) & Hend1) (Hs2 & (m2 & He2) & Hend2).
  split; [congruence|]. split.
  - exists (m1 ++ m2). now rewrite He2, He1, app_assoc.
  - auto.
Qed.

Lemma append_event_continued (user sid : string) (sess : Session)
      (u : string) (req : EventIn) (ts : string) (w : World) :
  continued user sid sess w -> continued user sid sess (append_event u req ts w).
Proof.
  intros (later & Hlook & Hcont).
  destruct (decide (user = u)) as [->|Hu];
    [destruct (decide (sid = in_session_id req)) as [->|Hi]|].
  - eexists. split; [rewrite append_event_lookup, Hlook; reflexivity|].
    apply (continues_trans _ later); [exact Hcont|].
    split; [reflexivity|]. split; [eexists; reflexivity|auto].
  - exists later. split; [|exact Hcont].
    rewrite append_event_other; [exact Hlook|now right].
  - exists later. split; [|exact Hcont].
    rewrite append_event_other; [exact Hlook|now left].
Qed.

Lemma set_end_time_continued (user sid : string) (sess : Session)
      (u i now : string) (open : Session) (w : World) :
  session_lookup u i w = Some open -> sess_end_time open = None ->
  continued user sid sess w -> continued user sid sess (set_end_time u i now w).
Proof.
  intros Hopen Hnone (later & Hlook & Hcont).
  destruct (decide (user = u)) as [->|Hu];
    [destruct (decide (sid = i)) as [->|Hi]|].
  - assert (later = open) as -> by congruence.
    eexists. split; [exact (set_end_time_lookup _ _ _ open _ Hopen)|].
    destruct Hcont as (Hs & He & Hend).
    split; [exact Hs|]. split; [exact He|].
    intros e Hsome. apply Hend in Hsome. congruence.
  - exists later. split; [|exact Hcont].
    rewrite set_end_time_other; [exact Hlook|now right].
  - exists later. split; [|exact Hcont].
    rewrite set_end_time_other; [exact Hlook|now left].
Qed.

Lemma step_continued (accepted : string -> Prop) (u : option string)
      (user sid : string) (sess : Session) (w w' : World) :
  step accepted u w w' -> continued user sid sess w -> continued user sid sess w'.
Proof.
  intros Hstep Hc.
  destruct Hstep as [w token h Hh|w|w u' req ts Hu Hts|w u' req Hu
                    |w u' i open Hu Hopen Hnone|w u' i stored s Hu Hstored Hended Hsum].
  - exact Hc.
  - exact Hc.
  - now apply append_event_continued.
  - apply append_event_continued. exact Hc.
  - apply (set_end_time_continued _ _ _ _ _ _ open); [exact Hopen|exact Hnone|exact Hc].
  - exact Hc.
Qed.

Lemma steps_continued (accepted : string -> Prop) (u : option string)
      (user sid : string) (sess : Session) (w w' : World) :
  rtc (step accepted u) w w' ->
  continued user sid sess w -> continued user sid sess w'.
Proof.
  induction 1 as [|w1 w2 w3 Hstep _ IH]; [auto|].
  intros Hc. apply IH. eapply step_continued; eassumption.
Qed.

(** What a step does to the tables of a user it is not made for. *)
Lemma step_other_user (accepted : string -> Prop) (u : option string)
      (other : string) (w w' : World) :
  step accepted u w w' -> u <> Some other ->
  ACTIVE w' !! other = ACTIVE w !! other
  /\ FINISHED w' !! other = FINISHED w !! other.
Proof.
  intros Hstep Hne.
  destruct Hstep as [w token h Hh|w|w u' req ts Hu Hts|w u' req Hu
                    |w u' i open Hu Hopen Hnone|w u' i stored s Hu Hstored Hended Hsum];
    try (split; reflexivity);
    assert (Hu' : u' <> other) by congruence.
  - split; [|reflexivity]. unfold append_event. simpl.
    now rewrite lookup_insert_ne.
  - split; [|reflexivity]. unfold append_event. simpl.
    now rewrite lookup_insert_ne.
  - unfold set_end_time.
    destruct (default ∅ (ACTIVE (tick w) !! u') !! i); [|split; reflexivity].
    split; [|reflexivity]. simpl. now rewrite lookup_insert_ne.
  - split; [reflexivity|]. unfold save_finished, modify, store_finished. simpl.
    now rewrite lookup_insert_ne.
Qed.

Lemma steps_other_user (accepted : string -> Prop) (u : option string)
      (other : string) (w w' : World) :
  rtc (step accepted u) w w' -> u <> Some other ->
  ACTIVE w' !! other = ACTIVE w !! other
  /\ FINISHED w' !! other = FINISHED w !! other.
Proof.
  induction 1 as [|w1 w2 w3 Hstep _ IH]; [auto|].
  intros Hne. destruct (IH Hne) as [Ha Hf].
  destruct (step_other_user _ _ _ _ _ Hstep Hne) as [Ha' Hf'].
  split; congruence.
Qed.

(** The archive on disk follows the archive in memory. *)
Lemma step_disk_in_sync (accepted : string -> Prop) (u : option string)
      (w w' : World) :
  step accepted u w w' -> disk_in_sync w -> disk_in_sync w'.
Proof.
  intros Hstep Hd.
  destruct Hstep as [w token h Hh|w|w u' req ts Hu Hts|w u' req Hu
                    |w u' i open Hu Hopen Hnone|w u' i stored s Hu Hstored Hended Hsum].
  - apply (disk_in_sync_same w); [reflexivity|reflexivity|exact Hd].
  - apply (disk_in_sync_same w); [reflexivity|reflexivity|exact Hd].
  - apply (disk_in_sync_same w); [reflexivity|reflexivity|exact Hd].
  - apply (disk_in_sync_same w); [reflexivity|reflexivity|exact Hd].
  - apply (disk_in_sync_same w); [| |exact Hd];
      unfold set_end_time; destruct (_ !! i); reflexivity.
  - apply disk_in_sync_saved.
Qed.

Lemma steps_disk_in_sync (accepted : string -> Prop) (u : option string)
      (w w' : World) :
  rtc (step accepted u) w w' -> disk_in_sync w -> disk_in_sync w'.
Proof.
  induction 1 as [|w1 w2 w3 Hstep _ IH]; [auto|].
  intros Hd. apply IH. eapply step_disk_in_sync; eassumption.
Qed.

Lemma append_event_started (u : string) (req : EventIn) (ts : string) (w : World) :
  sessions_started w -> sessions_started (append_event u req ts w).
Proof.
  intros Hst user sid sess.
  destruct (decide (user = u)) as [->|Hu];
    [destruct (decide (sid = in_session_id req)) as [->|Hi]|].
  - rewrite append_event_lookup.
    destruct (session_lookup u (in_session_id req) w) as [old|] eqn:Hold.
    + intros [= <-]. destruct (Hst _ _ _ Hold) as (first & rest & He & Hs).
      simpl. rewrite He. exists first, (rest ++ [mkEvent (in_event_type req) (in_amount req) ts]).
      split; [reflexivity|exact Hs].
    + intros [= <-]. simpl. do 2 eexists. split; reflexivity.
  - rewrite append_event_other by now right. apply Hst.
  - rewrite append_event_other by now left. apply Hst.
Qed.

Lemma set_end_time_started (u i now : string) (w : World) :
  sessions_started w -> sessions_started (set_end_time u i now w).
Proof.
  intros Hst user sid sess.
  destruct (decide (user = u)) as [->|Hu];
    [destruct (decide (sid = i)) as [->|Hi]|].
  - destruct (session_lookup u i w) as [old|] eqn:Hold.
    + rewrite (set_end_time_lookup _ _ _ old) by exact Hold.
      intros [= <-]. apply (Hst _ _ _ Hold).
    + unfold set_end_time. unfold session_lookup in Hold. rewrite Hold.
      unfold session_lookup. rewrite Hold. discriminate.
  - rewrite set_end_time_other by now right. apply Hst.
  - rewrite set_end_time_other by now left. apply Hst.
Qed.

Lemma step_started (accepted : string -> Prop) (u : option string) (w w' : World) :
  step accepted u w w' -> sessions_started w -> sessions_started w'.
Proof.
  intros Hstep Hst.
  destruct Hstep as [w token h Hh|w|w u' req ts Hu Hts|w u' req Hu
                    |w u' i open Hu Hopen Hnone|w u' i stored s Hu Hstored Hended Hsum].
  - exact Hst.
  - exact Hst.
  - now apply append_event_started.
  - apply append_event_started. exact Hst.
  - apply set_end_time_started. exact Hst.
  - exact Hst.
Qed.

Lemma steps_started (accepted : string -> Prop) (u : option string) (w w' : World) :
  rtc (step accepted u) w w' -> sessions_started w -> sessions_started w'.
Proof.
  induction 1 as [|w1 w2 w3 Hstep _ IH]; [auto|].
  intros Hd. apply IH. eapply step_started; eassumption.
Qed.

Lemma boot_started (clk : nat -> datetime) : sessions_started (boot clk).
Proof.
  intros u i x. unfold session_lookup, boot. simpl.
  rewrite lookup_empty. simpl. now rewrite lookup_empty.
Qed.

Lemma boot_disk_in_sync (clk : nat -> datetime) : disk_in_sync (boot clk).
Proof. reflexivity. Qed.

Section Preserved.

Variable fromisoformat : string -> option datetime.

Lemma serve_continued (user sid : string) (sess : Session)
      (requests : list Request) (w : World) :
  continued user sid sess w ->
  continued user sid sess (serve fromisoformat requests w).
Proof.
  revert w. induction requests as [|r rest IH]; intros w Hc; simpl; [exact Hc|].
  apply IH. exact (steps_continued _ _ _ _ _ _ _ (handle_steps fromisoformat r w) Hc).
Qed.

Lemma serve_started (requests : list Request) (w : World) :
  sessions_started w -> sessions_started (serve fromisoformat requests w).
Proof.
  revert w. induction requests as [|r rest IH]; intros w Hc; simpl; [exact Hc|].
  apply IH. exact (steps_started _ _ _ _ (handle_steps fromisoformat r w) Hc).
Qed.

Lemma serve_disk_in_sync (requests : list Request) (w : World) :
  disk_in_sync w -> disk_in_sync (serve fromisoformat requests w).
Proof.
  revert w. induction requests as [|r rest IH]; intros w Hc; simpl; [exact Hc|].
  apply IH. exact (steps_disk_in_sync _ _ _ _ (handle_steps fromisoformat r w) Hc).
Qed.

End Preserved.

(** X9: a stored session is never deleted and only grows.  Whatever
    requests follow, by whatever callers, a session that is stored stays
    stored under the same user and id, with the same [start_time], with its
    events still there in the same order followed by those recorded since,
    and with the [end_time] it had if it had one. *)
Theorem session_history (fromisoformat : string -> option datetime)
        (user sid : string) (sess : Session) (w : World) (requests : list Request) :
  session_lookup user sid w = Some sess ->
  exists later more,
    session_lookup user sid (serve fromisoformat requests w) = Some later
    /\ sess_start_time later = sess_start_time sess
    /\ sess_events later = sess_events sess ++ more
    /\ (forall e, sess_end_time sess = Some e -> sess_end_time later = Some e).
Proof.
  intros Hlook.
  destruct (serve_continued fromisoformat user sid sess requests w)
    as (later & Hlater & Hs & (more & He) & Hend).
  - exists sess. split; [exact Hlook|apply continues_refl].
  - exists later, more. auto.
Qed.

Lemma session_history_witness :
  session_lookup "alice" "s1" example_world = Some example_session
  /\ exists later more,
       session_lookup "alice" "s1"
         (serve fromisoformat_std
            [EndSession "tok" None "s1";
             RecordEvent "tok" None (mkEventIn "s1" "bet" 1 None)]
            example_world) = Some later
       /\ sess_start_time later = sess_start_time example_session
       /\ sess_events later = sess_events example_session ++ more
       /\ (forall e, sess_end_time example_session = Some e ->
                     sess_end_time later = Some e).
Proof.
  assert (H : session_lookup "alice" "s1" example_world = Some example_session)
    by (vm_compute; reflexivity).
  split; [exact H|].
  exact (session_history fromisoformat_std "alice" "s1" example_session example_world
           [EndSession "tok" None "s1";
            RecordEvent "tok" None (mkEventIn "s1" "bet" 1 None)] H).
Defined.

(** X10: a request touches the tables of one user only.  Serving a request
    leaves the sessions and the archive of every user other than the one
    the request is identified as exactly as they were; a request that is
    not identified (or [ping]) leaves those of every user. *)
Theorem other_users_untouched (fromisoformat : string -> option datetime)
        (r : Request) (w : World) (other : string) :
  request_user r w <> Some other ->
  ACTIVE (snd (handle fromisoformat r w)) !! other = ACTIVE w !! other
  /\ FINISHED (snd (handle fromisoformat r w)) !! other = FINISHED w !! other.
Proof.
  intros Hne.
  exact (steps_other_user _ _ _ _ _ (handle_steps fromisoformat r w) Hne).
Qed.

Lemma other_users_untouched_witness :
  request_user (EndSession "tok2" (Some "bob") "s1") example_world <> Some "alice"
  /\ ACTIVE (snd (handle fromisoformat_std (EndSession "tok2" (Some "bob") "s1")
                         example_world)) !! "alice"
     = ACTIVE example_world !! "alice"
  /\ FINISHED (snd (handle fromisoformat_std (EndSession "tok2" (Some "bob") "s1")
                           example_world)) !! "alice"
     = FINISHED example_world !! "alice".
Proof.
  assert (H : request_user (EndSession "tok2" (Some "bob") "s1") example_world
              <> Some "alice") by (vm_compute; discriminate).
  split; [exact H|].
  exact (other_users_untouched fromisoformat_std (EndSession "tok2" (Some "bob") "s1")
           example_world "alice" H).
Defined.

(** X11: the archive survives a restart, and nothing else does.  After any
    requests served by a process started on an empty disk, a fresh process
    started on the disk that is left loads exactly the archive the old
    process had in memory; its token bindings and its sessions are empty. *)
Theorem archive_is_durable (fromisoformat : string -> option datetime)
        (clk : nat -> datetime) (requests : list Request) :
  exists w',
    restart (serve fromisoformat requests (boot clk)) = Some w'
    /\ FINISHED w' = FINISHED (serve fromisoformat requests (boot clk))
    /\ TOKEN_USER w' = ∅ /\ ACTIVE w' = ∅.
Proof.
  pose proof (serve_disk_in_sync fromisoformat requests (boot clk)
                (boot_disk_in_sync clk)) as Hd.
  unfold disk_in_sync in Hd.
  destruct (restart (serve fromisoformat requests (boot clk))) as [w'|] eqn:Hre;
    [|discriminate].
  exists w'. split; [reflexivity|]. split; [now injection Hd|].
  unfold restart, load_finished in Hre. cbn [files] in Hre.
  destruct (files _ !! DATA_FILE) as [[|[]]|]; try (injection Hre as <-; auto).
  destruct (finished_of_members ∅ _); [|discriminate].
  injection Hre as <-. auto.
Qed.

(** X12: every stored session has a first event and a start.  In every
    state the service reaches from an empty process, a stored session has
    at least one event, and its [start_time] is the timestamp stored with
    its first event: there is no stored session without events, and no
    stored session without a [start_time]. *)
Theorem sessions_have_started (fromisoformat : string -> option datetime)
        (clk : nat -> datetime) (requests : list Request)
        (user sid : string) (sess : Session) :
  session_lookup user sid (serve fromisoformat requests (boot clk)) = Some sess ->
  exists first rest,
    sess_events sess = first :: rest
    /\ sess_start_time sess = Some (timestamp first).
Proof.
  apply (serve_started fromisoformat requests (boot clk) (boot_started clk)).
Qed.

Lemma sessions_have_started_witness :
  session_lookup "alice" "s1"
    (serve fromisoformat_std example_requests (boot example_clock))
  = Some example_session
  /\ exists first rest,
       sess_events example_session = first :: rest
       /\ sess_start_time example_session = Some (timestamp first).
Proof.
  assert (H : session_lookup "alice" "s1"
                (serve fromisoformat_std example_requests (boot example_clock))
              = Some example_session) by (vm_compute; reflexivity).
  split; [exact H|].
  exact (sessions_have_started fromisoformat_std example_clock example_requests
           "alice" "s1" example_session H).
Defined.

(* ===================================================================== *)
(** * Further properties: stored timestamps and the clock *)
(* ===================================================================== *)

Lemma hour_clock_valid : valid_clock hour_clock.
Proof.
  intros n. unfold valid_datetime, hour_clock, valid_fields.
  cbn [year month day hour minute second microsecond].
  pose proof (Z.mod_pos_bound (Z.of_nat n / 60) 60 ltac:(lia)) as Hm.
  pose proof (Z.mod_pos_bound (Z.of_nat n) 60 ltac:(lia)) as Hs.
  change (days_in_month 2026 11) with 30%Z.
  repeat (apply andb_true_intro; split); apply Z.leb_le; lia.
Qed.

Lemma collect_timestamps_all (fromisoformat : string -> option datetime)
      (events : list Event) :
  Forall (fun e => parse_iso fromisoformat (timestamp e) <> None) events ->
  length (collect_timestamps fromisoformat events) = length events.
Proof.
  induction 1 as [|e rest He _ IH]; simpl; [reflexivity|].
  destruct (parse_iso fromisoformat (timestamp e)); [simpl; now rewrite IH|congruence].
Qed.

Lemma append_event_timestamps (fromisoformat : string -> option datetime)
      (u : string) (req : EventIn) (ts : string) (w : World) :
  parse_iso fromisoformat ts <> None ->
  timestamps_parse fromisoformat w ->
  timestamps_parse fromisoformat (append_event u req ts w).
Proof.
  intros Hts Hp user sid sess.
  destruct (decide (user = u)) as [->|Hu];
    [destruct (decide (sid = in_session_id req)) as [->|Hi]|].
  - rewrite append_event_lookup.
    destruct (session_lookup u (in_session_id req) w) as [old|] eqn:Hold;
      intros [= <-]; simpl.
    + apply Forall_app. split; [exact (Hp _ _ _ Hold)|].
      constructor; [exact Hts|constructor].
    + constructor; [exact Hts|constructor].
  - rewrite append_event_other by now right. apply Hp.
  - rewrite append_event_other by now left. apply Hp.
Qed.

Lemma set_end_time_timestamps (fromisoformat : string -> option datetime)
      (u i now : string) (w : World) :
  timestamps_parse fromisoformat w ->
  timestamps_parse fromisoformat (set_end_time u i now w).
Proof.
  intros Hp user sid sess.
  destruct (decide (user = u)) as [->|Hu];
    [destruct (decide (sid = i)) as [->|Hi]|].
  - destruct (session_lookup u i w) as [old|] eqn:Hold.
    + rewrite (set_end_time_lookup _ _ _ old) by exact Hold.
      intros [= <-]. apply (Hp _ _ _ Hold).
    + unfold set_end_time. unfold session_lookup in Hold. rewrite Hold.
      unfold session_lookup. rewrite Hold. discriminate.
  - rewrite set_end_time_other by now right. apply Hp.
  - rewrite set_end_time_other by now left. apply Hp.
Qed.

Lemma step_clock (accepted : string -> Prop) (u : option string) (w w' : World) :
  step accepted u w w' -> clock w' = clock w.
Proof.
  intros Hstep.
  destruct Hstep as [w token h Hh|w|w u' req ts Hu Hts|w u' req Hu
                    |w u' i open Hu Hopen Hnone|w u' i stored s Hu Hstored Hended Hsum];
    try reflexivity.
  unfold set_end_time. destruct (_ !! i); reflexivity.
Qed.

Lemma step_timestamps (fromisoformat : string -> option datetime)
      (u : option string) (w w' : World) :
  step (fun ts => parse_iso fromisoformat ts <> None) u w w' ->
  reads_back fromisoformat (clock w) -> timestamps_parse fromisoformat w ->
  timestamps_parse fromisoformat w'.
Proof.
  intros Hstep Hclk Hp.
  destruct Hstep as [w token h Hh|w|w u' req ts Hu Hts|w u' req Hu
                    |w u' i open Hu Hopen Hnone|w u' i stored s Hu Hstored Hended Hsum].
  - exact Hp.
  - exact Hp.
  - now apply append_event_timestamps.
  - apply append_event_timestamps; [|exact Hp]. apply (Hclk (ticks w)).
  - apply set_end_time_timestamps. exact Hp.
  - exact Hp.
Qed.

Lemma steps_timestamps (fromisoformat : string -> option datetime)
      (u : option string) (w w' : World) :
  rtc (step (fun ts => parse_iso fromisoformat ts <> None) u) w w' ->
  reads_back fromisoformat (clock w) -> timestamps_parse fromisoformat w ->
  reads_back fromisoformat (clock w') /\ timestamps_parse fromisoformat w'.
Proof.
  induction 1 as [|w1 w2 w3 Hstep _ IH]; [auto|].
  intros Hclk Hp. apply IH.
  - now rewrite (step_clock _ _ _ _ Hstep).
  - eapply step_timestamps; eassumption.
Qed.

Lemma serve_timestamps (fromisoformat : string -> option datetime)
      (requests : list Request) (w : World) :
  reads_back fromisoformat (clock w) -> timestamps_parse fromisoformat w ->
  reads_back fromisoformat (clock (serve fromisoformat requests w))
  /\ timestamps_parse fromisoformat (serve fromisoformat requests w).
Proof.
  revert w. induction requests as [|r rest IH]; intros w Hclk Hp; simpl; [auto|].
  destruct (steps_timestamps _ _ _ _ (handle_steps fromisoformat r w) Hclk Hp).
  now apply IH.
Qed.

Lemma boot_timestamps (fromisoformat : string -> option datetime)
      (clk : nat -> datetime) :
  timestamps_parse fromisoformat (boot clk).
Proof.
  intros u i x. unfold session_lookup, boot. simpl.
  rewrite lookup_empty. simpl. now rewrite lookup_empty.
Qed.

(** The standard [fromisoformat] reads back what [now_iso] writes for a
    clock that gives valid readings. *)
Lemma std_reads_back (clk : nat -> datetime) :
  valid_clock clk -> reads_back fromisoformat_std clk.
Proof.
  intros Hclk n.
  pose proof (now_reading_parses (mkWorld ∅ ∅ ∅ ∅ clk n) (Hclk n)) as H.
  change (now_reading (mkWorld ∅ ∅ ∅ ∅ clk n))
    with (replace_microsecond0_utc (clk n)) in H.
  rewrite H. discriminate.
Qed.

(** X13: no stored timestamp is ever skipped.  For any [fromisoformat]
    that reads back what [now_iso] writes for the readings of the clock,
    in every state the service reaches from an empty process each event
    of each stored session carries a timestamp that [parse_iso] accepts,
    whether the caller supplied it or [now_iso] wrote it; so the timestamp
    loop of [compute_summary] collects one time per event, and at least
    one. *)
Theorem stored_timestamps_parse (fromisoformat : string -> option datetime)
        (clk : nat -> datetime) (requests : list Request)
        (user sid : string) (sess : Session) :
  reads_back fromisoformat clk ->
  session_lookup user sid (serve fromisoformat requests (boot clk)) = Some sess ->
  Forall (fun e => parse_iso fromisoformat (timestamp e) <> None) (sess_events sess)
  /\ length (collect_timestamps fromisoformat (sess_events sess))
     = length (sess_events sess)
  /\ collect_timestamps fromisoformat (sess_events sess) <> [].
Proof.
  intros Hclk Hlook.
  destruct (serve_timestamps fromisoformat requests (boot clk) Hclk
              (boot_timestamps _ clk)) as [_ Hp].
  specialize (Hp _ _ _ Hlook).
  pose proof (collect_timestamps_all _ _ Hp) as Hlen.
  split; [exact Hp|]. split; [exact Hlen|].
  destruct (serve_started fromisoformat requests (boot clk) (boot_started clk)
              _ _ _ Hlook) as (first & rest & He & _).
  intros Hnil. rewrite Hnil, He in Hlen. discriminate.
Qed.

Lemma stored_timestamps_parse_witness :
  reads_back fromisoformat_std hour_clock
  /\ session_lookup "alice" "s1"
       (serve fromisoformat_std
          [RecordEvent "tok" (Some "alice") (mkEventIn "s1" "bet" 10 None)]
          (boot hour_clock))
     = Some (mkSession (Some "2026-11-04T12:00:00+00:00") None
               [mkEvent "bet" 10 "2026-11-04T12:00:00+00:00"])
  /\ Forall (fun e => parse_iso fromisoformat_std (timestamp e) <> None)
       (sess_events (mkSession (Some "2026-11-04T12:00:00+00:00") None
                       [mkEvent "bet" 10 "2026-11-04T12:00:00+00:00"]))
  /\ length (collect_timestamps fromisoformat_std
               (sess_events (mkSession (Some "2026-11-04T12:00:00+00:00") None
                               [mkEvent "bet" 10 "2026-11-04T12:00:00+00:00"])))
     = length (sess_events (mkSession (Some "2026-11-04T12:00:00+00:00") None
                              [mkEvent "bet" 10 "2026-11-04T12:00:00+00:00"]))
  /\ collect_timestamps fromisoformat_std
       (sess_events (mkSession (Some "2026-11-04T12:00:00+00:00") None
                       [mkEvent "bet" 10 "2026-11-04T12:00:00+00:00"])) <> [].
Proof.
  assert (H : session_lookup "alice" "s1"
                (serve fromisoformat_std
                   [RecordEvent "tok" (Some "alice") (mkEventIn "s1" "bet" 10 None)]
                   (boot hour_clock))
              = Some (mkSession (Some "2026-11-04T12:00:00+00:00") None
                        [mkEvent "bet" 10 "2026-11-04T12:00:00+00:00"]))
    by (vm_compute; reflexivity).
  split; [exact (std_reads_back hour_clock hour_clock_valid)|]. split; [exact H|].
  exact (stored_timestamps_parse fromisoformat_std hour_clock _ "alice" "s1" _
           (std_reads_back hour_clock hour_clock_valid) H).
Defined.

(** X14: [compute_summary] never falls back on the clock.  For any
    [fromisoformat] that reads back what [now_iso] writes for the readings
    of the clock, in every state the service reaches from an empty process
    [compute_summary] leaves the state as it is, for every user and session
    id and whether it returns or raises: neither [start_time or now_iso()]
    nor [end_time or now_iso()] reads the clock. *)
Theorem compute_summary_reads_no_clock (fromisoformat : string -> option datetime)
        (clk : nat -> datetime) (requests : list Request) (user sid : string) :
  reads_back fromisoformat clk ->
  snd (compute_summary fromisoformat user sid
         (serve fromisoformat requests (boot clk)))
  = serve fromisoformat requests (boot clk).
Proof.
  intros Hclk.
  set (w := serve fromisoformat requests (boot clk)).
  destruct (session_lookup user sid w) as [sess|] eqn:Hlook.
  - pose proof (compute_summary_active fromisoformat user sid sess w Hlook) as H.
    destruct (compute_summary fromisoformat user sid w) as [[e|s] w'];
      [now destruct H as (_ & -> & _)|].
    destruct H as (times & w1 & Hd & Hst & Hen & _). simpl.
    apply derive_times_returns in Hd as [_ Hd].
    assert (Hne : collect_timestamps fromisoformat (sess_events sess) <> []).
    { destruct (serve_timestamps fromisoformat requests (boot clk) Hclk
                  (boot_timestamps _ clk)) as [_ Hp].
      pose proof (collect_timestamps_all _ _ (Hp _ _ _ Hlook)) as Hlen.
      destruct (serve_started fromisoformat requests (boot clk) (boot_started clk)
                  _ _ _ Hlook) as (first & rest & He & _).
      intros Hnil. rewrite Hnil, He in Hlen. discriminate. }
    destruct (collect_timestamps fromisoformat (sess_events sess)) as [|t ts];
      [contradiction|].
    destruct Hd as (sorted & first & final & _ & _ & _ & Hfst & Hsnd).
    rewrite Hfst in Hst.
    rewrite or_now_given in Hst by (apply str_truthy_true, isoformat_nonempty).
    injection Hst as _ <-.
    assert (Hend : exists e, snd times = Some e /\ e <> "").
    { destruct (sess_end_time sess) as [e|] eqn:Hstored.
      - exists e. split; [exact Hsnd|]. intros ->.
        exact (serve_sessions_ok fromisoformat requests (boot clk)
                 (boot_sessions_ok clk) _ _ _ Hlook Hstored).
      - eexists. split; [exact Hsnd|]. apply str_truthy_true, isoformat_nonempty. }
    destruct Hend as (e & He & Hne'). rewrite He in Hen.
    rewrite or_now_given in Hen by exact Hne'. now injection Hen as _ <-.
  - unfold compute_summary, bind, gets. rewrite Hlook.
    destruct (find_summary sid (finished_lookup user w)); reflexivity.
Qed.

Lemma compute_summary_reads_no_clock_witness :
  reads_back fromisoformat_std hour_clock
  /\ snd (compute_summary fromisoformat_std "alice" "s1"
            (serve fromisoformat_std example_requests (boot hour_clock)))
     = serve fromisoformat_std example_requests (boot hour_clock).
Proof.
  split; [exact (std_reads_back hour_clock hour_clock_valid)|].
  exact (compute_summary_reads_no_clock fromisoformat_std hour_clock example_requests
           "alice" "s1" (std_reads_back hour_clock hour_clock_valid)).
Defined.

(* ===================================================================== *)
(** * Further properties: which requests write what *)
(* ===================================================================== *)

Lemma keeps_current_user_id {X : Type} (part : World -> X) (token : string)
      (hint : option string) :
  (forall t w, part (set_TOKEN_USER t w) = part w) ->
  keeps part (current_user_id token hint).
Proof. intros H. unfold current_user_id. repeat keeps_step; apply H. Qed.

Section Frames.

Variable fromisoformat : string -> option datetime.

Lemma keeps_record_event {X : Type} (part : World -> X) (token : string)
      (hint : option string) (req : EventIn) :
  (forall t w, part (set_TOKEN_USER t w) = part w) ->
  (forall w, part (tick w) = part w) ->
  (forall a w, part (set_ACTIVE a w) = part w) ->
  keeps part (record_event fromisoformat token hint req).
Proof.
  intros Ht Hk Ha. unfold record_event.
  apply keeps_bind; [now apply keeps_current_user_id|]. intros user.
  apply keeps_bind.
  - destruct (in_timestamp req) as [ts|]; [|now apply keeps_now_iso].
    destruct (parse_iso fromisoformat ts); [apply keeps_ret|apply keeps_raise].
  - intros ts. apply keeps_bind; [|intros; apply keeps_ret].
    apply keeps_modify. intros w. unfold append_event. apply Ha.
Qed.

Lemma keeps_get_latest {X : Type} (part : World -> X) (token : string)
      (hint : option string) :
  (forall t w, part (set_TOKEN_USER t w) = part w) ->
  keeps part (get_latest token hint).
Proof.
  intros Ht. unfold get_latest.
  apply keeps_bind; [now apply keeps_current_user_id|]. intros user.
  repeat keeps_step.
Qed.

Lemma keeps_export_session {X : Type} (part : World -> X) (token : string)
      (hint sid legacy : option string) :
  (forall t w, part (set_TOKEN_USER t w) = part w) ->
  (forall w, part (tick w) = part w) ->
  keeps part (export_session fromisoformat token hint sid legacy).
Proof.
  intros Ht Hk. unfold export_session.
  apply keeps_bind; [now apply keeps_current_user_id|]. intros user.
  cbv zeta. destruct (negb (opt_truthy (py_or sid legacy))); [apply keeps_raise|].
  apply keeps_bind; [apply keeps_gets|]. intros items.
  destruct (find_summary _ items); [apply keeps_JSONResponse|].
  apply keeps_bind; [now apply keeps_compute_summary|].
  intros; apply keeps_JSONResponse.
Qed.

Lemma handle_keeps_archive (r : Request) (w : World) :
  is_end_session r = false ->
  FINISHED (snd (handle fromisoformat r w)) = FINISHED w
  /\ files (snd (handle fromisoformat r w)) = files w.
Proof.
  intros Hr.
  destruct r as [token hint req|token hint sid|token hint|token hint sid legacy|msg];
    [|discriminate| | |]; simpl handle; rewrite ?bind_ret_world.
  - split; apply keeps_record_event; reflexivity.
  - split; apply keeps_get_latest; reflexivity.
  - split; apply keeps_export_session; reflexivity.
  - split; reflexivity.
Qed.

Lemma serve_keeps_archive (requests : list Request) (w : World) :
  Forall (fun r => is_end_session r = false) requests ->
  FINISHED (serve fromisoformat requests w) = FINISHED w
  /\ files (serve fromisoformat requests w) = files w.
Proof.
  intros Hall. revert w.
  induction Hall as [|r rest Hr _ IH]; intros w; simpl; [auto|].
  destruct (IH (snd (handle fromisoformat r w))) as [-> ->].
  now apply handle_keeps_archive.
Qed.

End Frames.

(** X15: which requests write what.  Only [end_session] changes the
    archive or the disk: after any other request both are as before.  Only
    [record_event] and [end_session] change the session store: [get_latest],
    [export_session] and [ping] leave it as it was, and with it the archive
    and the disk; what they may change is a token binding and the number of
    clock readings. *)
Theorem request_frames (fromisoformat : string -> option datetime)
        (r : Request) (w : World) :
  (is_end_session r = false ->
     FINISHED (snd (handle fromisoformat r w)) = FINISHED w
     /\ files (snd (handle fromisoformat r w)) = files w)
  /\ (writes_sessions r = false ->
        ACTIVE (snd (handle fromisoformat r w)) = ACTIVE w)
  /\ clock (snd (handle fromisoformat r w)) = clock w.
Proof.
  split; [apply handle_keeps_archive|]. split.
  - destruct r as [token hint req|token hint sid|token hint|token hint sid legacy|msg];
      try discriminate; intros _; simpl handle; rewrite ?bind_ret_world.
    + apply keeps_get_latest; reflexivity.
    + apply keeps_export_session; reflexivity.
    + reflexivity.
  - pose proof (handle_steps fromisoformat r w) as Hsteps.
    induction Hsteps as [|w1 w2 w3 Hstep _ IH]; [reflexivity|].
    rewrite IH. exact (step_clock _ _ _ _ Hstep).
Qed.

(* ===================================================================== *)
(** * Further properties: ending a session *)
(* ===================================================================== *)

(** X16: [end_session] needs an active session.  For an identified caller
    it answers 404 exactly when no session is stored under the caller and
    the session id, also when a summary for that id is in the archive (as
    after a restart); the state is then as identity resolution left it. *)
Theorem end_session_needs_active (fromisoformat : string -> option datetime)
        (token : string) (hint : option string) (sid user : string) (w wa : World) :
  current_user_id token hint w = (inr user, wa) ->
  (fst (end_session fromisoformat token hint sid w) = inl not_found
   <-> session_lookup user sid wa = None)
  /\ (session_lookup user sid wa = None ->
      snd (end_session fromisoformat token hint sid w) = wa).
Proof.
  intros Hid. rewrite (end_session_run fromisoformat _ _ _ _ _ _ Hid).
  destruct (session_lookup user sid wa) as [sess|] eqn:Hlook; cbv zeta.
  - split; [|discriminate]. split; [|discriminate].
    set (wb := match sess_end_time sess with
               | Some _ => wa
               | None => set_end_time user sid (isoformat (now_reading wa)) (tick wa)
               end).
    assert (Hb : exists stored, session_lookup user sid wb = Some stored).
    { subst wb. destruct (sess_end_time sess); [eauto|].
      eexists. exact (set_end_time_lookup _ _ _ sess (tick wa) Hlook). }
    destruct Hb as (stored & Hstored).
    pose proof (compute_summary_active fromisoformat user sid stored wb Hstored) as H.
    destruct (compute_summary fromisoformat user sid wb) as [[e|s] wc]; simpl.
    + destruct H as (-> & _). discriminate.
    + discriminate.
  - split; [split; reflexivity|reflexivity].
Qed.

Lemma end_session_needs_active_witness :
  current_user_id "tok" None example_world = (inr "alice", example_world)
  /\ (fst (end_session fromisoformat_std "tok" None "s9" example_world) = inl not_found
      <-> session_lookup "alice" "s9" example_world = None)
  /\ (session_lookup "alice" "s9" example_world = None ->
      snd (end_session fromisoformat_std "tok" None "s9" example_world) = example_world).
Proof.
  assert (Hid : current_user_id "tok" None example_world
                = (inr "alice", example_world)) by (vm_compute; reflexivity).
  split; [exact Hid|].
  exact (end_session_needs_active fromisoformat_std "tok" None "s9" "alice"
           example_world example_world Hid).
Defined.

(** X17: a session can be stamped as ended without being archived.  When
    the timestamps of an open session cannot be sorted, [end_session] fails
    with [TypeError] after it has written the clock reading as the
    session's [end_time]: the session is left ended, with its events and
    start as they were, and nothing is added to the archive or written to
    disk. *)
Theorem end_session_stamps_before_failing (fromisoformat : string -> option datetime)
        (token : string) (hint : option string) (sid user : string)
        (sess : Session) (w wa : World) :
  current_user_id token hint w = (inr user, wa) ->
  session_lookup user sid wa = Some sess ->
  sess_end_time sess = None ->
  sort_datetimes (collect_timestamps fromisoformat (sess_events sess)) = None ->
  exists wb,
    end_session fromisoformat token hint sid w = (inl TypeError, wb)
    /\ session_lookup user sid wb
       = Some (mkSession (sess_start_time sess) (Some (isoformat (now_reading wa)))
                         (sess_events sess))
    /\ FINISHED wb = FINISHED w /\ files wb = files w.
Proof.
  intros Hid Hlook Hopen Hsort.
  rewrite (end_session_run fromisoformat _ _ _ _ _ _ Hid), Hlook. cbv zeta.
  rewrite Hopen.
  set (wb := set_end_time user sid (isoformat (now_reading wa)) (tick wa)).
  assert (Hstored : session_lookup user sid wb
                    = Some (mkSession (sess_start_time sess)
                              (Some (isoformat (now_reading wa))) (sess_events sess)))
    by exact (set_end_time_lookup _ _ _ sess (tick wa) Hlook).
  destruct (current_user_id_returns _ _ _ _ _ Hid)
    as (_ & _ & _ & _ & Hfin & Hfiles & _).
  assert (Hframe : FINISHED wb = FINISHED w /\ files wb = files w).
  { subst wb. unfold set_end_time. destruct (_ !! sid); simpl; auto. }
  pose proof (compute_summary_active fromisoformat user sid _ wb Hstored) as H.
  destruct (compute_summary fromisoformat user sid wb) as [[e|s] wc].
  - destruct H as (-> & -> & _). exists wb. auto.
  - exfalso. destruct H as (times & w1 & Hd & _).
    apply derive_times_returns in Hd as [_ Hd]. cbn [sess_events] in Hd.
    destruct (collect_timestamps fromisoformat (sess_events sess)) as [|t ts];
      [discriminate|].
    destruct Hd as (sorted & _ & _ & Hs & _). congruence.
Qed.

Lemma end_session_stamps_before_failing_witness :
  current_user_id "tok" None mixed_world = (inr "alice", mixed_world)
  /\ session_lookup "alice" "s1" mixed_world
     = Some (mkSession (Some "2026-02-12T14:05:00Z") None
               [mkEvent "bet" 10 "2026-02-12T14:05:00Z";
                mkEvent "win" 15 "2026-02-12T14:06:00"])
  /\ sess_end_time (mkSession (Some "2026-02-12T14:05:00Z") None
                      [mkEvent "bet" 10 "2026-02-12T14:05:00Z";
                       mkEvent "win" 15 "2026-02-12T14:06:00"]) = None
  /\ sort_datetimes
       (collect_timestamps fromisoformat_std
          (sess_events (mkSession (Some "2026-02-12T14:05:00Z") None
                          [mkEvent "bet" 10 "2026-02-12T14:05:00Z";
                           mkEvent "win" 15 "2026-02-12T14:06:00"]))) = None
  /\ exists wb,
       end_session fromisoformat_std "tok" None "s1" mixed_world = (inl TypeError, wb)
       /\ session_lookup "alice" "s1" wb
          = Some (mkSession
                    (sess_start_time
                       (mkSession (Some "2026-02-12T14:05:00Z") None
                          [mkEvent "bet" 10 "2026-02-12T14:05:00Z";
                           mkEvent "win" 15 "2026-02-12T14:06:00"]))
                    (Some (isoformat (now_reading mixed_world)))
                    (sess_events
                       (mkSession (Some "2026-02-12T14:05:00Z") None
                          [mkEvent "bet" 10 "2026-02-12T14:05:00Z";
                           mkEvent "win" 15 "2026-02-12T14:06:00"])))
       /\ FINISHED wb = FINISHED mixed_world /\ files wb = files mixed_world.
Proof.
  assert (Hid : current_user_id "tok" None mixed_world = (inr "alice", mixed_world))
    by (vm_compute; reflexivity).
  assert (Hlook : session_lookup "alice" "s1" mixed_world
                  = Some (mkSession (Some "2026-02-12T14:05:00Z") None
                            [mkEvent "bet" 10 "2026-02-12T14:05:00Z";
                             mkEvent "win" 15 "2026-02-12T14:06:00"]))
    by (vm_compute; reflexivity).
  assert (Hsort : sort_datetimes
                    (collect_timestamps fromisoformat_std
                       (sess_events (mkSession (Some "2026-02-12T14:05:00Z") None
                                       [mkEvent "bet" 10 "2026-02-12T14:05:00Z";
                                        mkEvent "win" 15 "2026-02-12T14:06:00"])))
                  = None) by (vm_compute; reflexivity).
  split; [exact Hid|]. split; [exact Hlook|]. split; [reflexivity|].
  split; [exact Hsort|].
  exact (end_session_stamps_before_failing fromisoformat_std "tok" None "s1" "alice" _
           mixed_world mixed_world Hid Hlook eq_refl Hsort).
Defined.

(** X18: an ended session's summary is fixed in the archive until it is
    ended again.  Once a summary for a session is in a user's archive,
    [export_session] answers with that summary, whatever requests other
    than [end_session] came in between: events recorded for the session
    after it was ended are stored but do not show in what is exported.
    The answer is the summary itself when its numbers are finite, and the
    [ValueError] of [JSONResponse] when one of them is not. *)
Theorem export_session_after_events (fromisoformat : string -> option datetime)
        (w w1 : World) (requests : list Request) (token : string)
        (hint legacy : option string) (user sid : string) (s : Summary) :
  find_summary sid (finished_lookup user w) = Some s ->
  sid <> "" ->
  Forall (fun r => is_end_session r = false) requests ->
  current_user_id token hint (serve fromisoformat requests w) = (inr user, w1) ->
  export_session fromisoformat token hint (Some sid) legacy
                 (serve fromisoformat requests w)
  = (if json_compliant s then inr s else inl ValueError, w1).
Proof.
  intros Hfind Hsid Hreqs Hid.
  rewrite (export_session_identified fromisoformat _ _ _ _ _ _ _ Hid).
  apply str_truthy_true in Hsid.
  assert (Hor : py_or (Some sid) legacy = Some sid)
    by (unfold py_or; cbn [opt_truthy]; now rewrite Hsid).
  rewrite Hor. cbn [opt_truthy default]. rewrite Hsid.
  destruct (current_user_id_returns _ _ _ _ _ Hid)
    as (_ & _ & _ & _ & Hfin & _).
  destruct (serve_keeps_archive fromisoformat requests w Hreqs) as [Hkeep _].
  rewrite (finished_lookup_FINISHED user w w1) by congruence.
  unfold id. rewrite Hfind. unfold JSONResponse.
  now destruct (json_compliant s).
Qed.

Lemma export_session_after_events_witness :
  find_summary "s1" (finished_lookup "alice" example_ended_world) = Some example_summary
  /\ "s1" <> ""
  /\ Forall (fun r => is_end_session r = false)
       [RecordEvent "tok" None example_event_in]
  /\ current_user_id "tok" None
       (serve fromisoformat_std [RecordEvent "tok" None example_event_in]
              example_ended_world)
     = (inr "alice",
        serve fromisoformat_std [RecordEvent "tok" None example_event_in]
              example_ended_world)
  /\ export_session fromisoformat_std "tok" None (Some "s1") None
       (serve fromisoformat_std [RecordEvent "tok" None example_event_in]
              example_ended_world)
     = (if json_compliant example_summary then inr example_summary
        else inl ValueError,
        serve fromisoformat_std [RecordEvent "tok" None example_event_in]
              example_ended_world).
Proof.
  assert (Hfind : find_summary "s1" (finished_lookup "alice" example_ended_world)
                  = Some example_summary) by (vm_compute; reflexivity).
  assert (Hsid : "s1" <> "") by discriminate.
  assert (Hreqs : Forall (fun r => is_end_session r = false)
                    [RecordEvent "tok" None example_event_in])
    by (constructor; [reflexivity|constructor]).
  assert (Hid : current_user_id "tok" None
                  (serve fromisoformat_std [RecordEvent "tok" None example_event_in]
                         example_ended_world)
                = (inr "alice",
                   serve fromisoformat_std [RecordEvent "tok" None example_event_in]
                         example_ended_world)) by (vm_compute; reflexivity).
  split; [exact Hfind|]. split; [exact Hsid|]. split; [exact Hreqs|].
  split; [exact Hid|].
  exact (export_session_after_events fromisoformat_std example_ended_world _ _
           "tok" None None "alice" "s1" example_summary Hfind Hsid Hreqs Hid).
Defined.

(** X19: an [end_time] that is set is final.  Once a stored session has a
    non-empty [end_time], every summary computed for it later, after any
    requests, reports that [end_time]: neither later events nor ending the
    session again move it. *)
Theorem end_time_is_final (fromisoformat : string -> option datetime)
        (user sid e : string) (sess : Session) (w : World) (requests : list Request) :
  session_lookup user sid w = Some sess ->
  sess_end_time sess = Some e ->
  e <> "" ->
  match fst (compute_summary fromisoformat user sid (serve fromisoformat requests w)) with
  | inr s => end_time s = e
  | inl err => err = TypeError
  end.
Proof.
  intros Hlook Hend He.
  destruct (serve_continued fromisoformat user sid sess requests w)
    as (later & Hlater & _ & _ & Hkept).
  { exists sess. split; [exact Hlook|apply continues_refl]. }
  specialize (Hkept e Hend).
  pose proof (compute_summary_ended fromisoformat user sid e later _ Hlater Hkept He)
    as H.
  pose proof (compute_summary_active fromisoformat user sid later _ Hlater) as Ha.
  destruct (compute_summary fromisoformat user sid (serve fromisoformat requests w))
    as [[err|s] w']; simpl.
  - now destruct Ha as (-> & _).
  - destruct H as (-> & _). reflexivity.
Qed.

Lemma end_time_is_final_witness :
  session_lookup "alice" "s1" example_ended_world
  = Some (mkSession (sess_start_time example_session)
                    (Some "2026-11-04T12:00:00+00:00") (sess_events example_session))
  /\ sess_end_time (mkSession (sess_start_time example_session)
                      (Some "2026-11-04T12:00:00+00:00") (sess_events example_session))
     = Some "2026-11-04T12:00:00+00:00"
  /\ "2026-11-04T12:00:00+00:00" <> ""
  /\ match fst (compute_summary fromisoformat_std "alice" "s1"
                  (serve fromisoformat_std
                     [RecordEvent "tok" None
                        (mkEventIn "s1" "bet" 7 (Some "2027-01-01T00:00:00Z"))]
                     example_ended_world)) with
     | inr s => end_time s = "2026-11-04T12:00:00+00:00"
     | inl err => err = TypeError
     end.
Proof.
  assert (Hlook : session_lookup "alice" "s1" example_ended_world
                  = Some (mkSession (sess_start_time example_session)
                            (Some "2026-11-04T12:00:00+00:00")
                            (sess_events example_session)))
    by (vm_compute; reflexivity).
  assert (He : "2026-11-04T12:00:00+00:00" <> "") by discriminate.
  split; [exact Hlook|]. split; [reflexivity|]. split; [exact He|].
  exact (end_time_is_final fromisoformat_std "alice" "s1" "2026-11-04T12:00:00+00:00" _
           example_ended_world
           [RecordEvent "tok" None
              (mkEventIn "s1" "bet" 7 (Some "2027-01-01T00:00:00Z"))]
           Hlook eq_refl He).
Defined.

(** The stored [end_time] can lie before the session's last event. *)
Example end_time_before_last_event :
  exists s,
    fst (compute_summary fromisoformat_std "alice" "s1"
           (serve fromisoformat_std
              [RecordEvent "tok" None
                 (mkEventIn "s1" "bet" 7 (Some "2027-01-01T00:00:00Z"))]
              example_ended_world)) = inr s
    /\ end_time s = "2026-11-04T12:00:00+00:00"
    /\ rounds s = 3%Z.
Proof. eexists. split; [vm_compute; reflexivity|]. split; reflexivity. Qed.

(* ===================================================================== *)
(** * Further properties: the archive list *)
(* ===================================================================== *)

Lemma find_summary_insert_other (other : string) (new old : Summary)
      (items : list Summary) (i : nat) :
  items !! i = Some old -> session_id old <> other -> session_id new <> other ->
  find_summary other (<[i := new]> items) = find_summary other items.
Proof.
  revert i. induction items as [|x rest IH]; intros [|i] Hi Hold Hnew;
    simpl in *; try discriminate.
  - injection Hi as ->.
    apply String.eqb_neq in Hold, Hnew. now rewrite Hold, Hnew.
  - destruct (String.eqb (session_id x) other); [reflexivity|].
    now apply IH.
Qed.

Lemma find_summary_app_other (other : string) (new : Summary) (items : list Summary) :
  session_id new <> other ->
  find_summary other (items ++ [new]) = find_summary other items.
Proof.
  intros Hnew. induction items as [|x rest IH]; simpl.
  - apply String.eqb_neq in Hnew. now rewrite Hnew.
  - destruct (String.eqb (session_id x) other); [reflexivity|exact IH].
Qed.

(** X20: the upsert touches one session id only.  Replacing or appending
    the summary of one session leaves what the archive holds for every
    other session id as it was. *)
Theorem upsert_keeps_others (sid other : string) (new : Summary)
        (items : list Summary) :
  session_id new = sid -> other <> sid ->
  find_summary other (upsert sid new items) = find_summary other items.
Proof.
  intros Hnew Hne. unfold upsert.
  destruct (find_index sid 0 items) as [i|] eqn:Hfind.
  - destruct (find_index_Some _ _ _ _ Hfind) as (old & _ & Hold & Hsid & _).
    rewrite Nat.sub_0_r in Hold.
    apply (find_summary_insert_other other new old); [exact Hold|congruence|congruence].
  - apply find_summary_app_other. congruence.
Qed.

Lemma upsert_keeps_others_witness :
  session_id example_summary_later = "s1"
  /\ "s2" <> "s1"
  /\ find_summary "s2" (upsert "s1" example_summary_later
                               [example_summary_other; example_summary])
     = find_summary "s2" [example_summary_other; example_summary].
Proof.
  assert (Hne : "s2" <> "s1") by discriminate.
  split; [reflexivity|]. split; [exact Hne|].
  exact (upsert_keeps_others "s1" "s2" example_summary_later
           [example_summary_other; example_summary] eq_refl Hne).
Defined.

Lemma string_ltb_trans (a b c : string) :
  String.ltb a b = true -> String.ltb b c = true -> String.ltb a c = true.
Proof.
  unfold String.ltb.
  destruct (String.compare a b) eqn:Hab; try discriminate.
  destruct (String.compare b c) eqn:Hbc; try discriminate.
  now rewrite (string_compare_trans a b c Hab Hbc).
Qed.

Lemma string_leb_ltb_trans (a b c : string) :
  String.ltb b a = false -> String.ltb b c = true -> String.ltb a c = true.
Proof.
  intros Hab Hbc. apply string_ltb_false_leb in Hab.
  unfold String.leb in Hab. unfold String.ltb in *.
  destruct (String.compare a b) eqn:Hc; try discriminate.
  - apply String.compare_eq_iff in Hc. now subst b.
  - destruct (String.compare b c) eqn:Hbc'; try discriminate.
    now rewrite (string_compare_trans a b c Hc Hbc').
Qed.

Lemma max_from_split (items pre mid : list Summary) (best : Summary) :
  (forall s, s ∈ pre -> String.ltb (end_time s) (end_time best) = true) ->
  (forall s, s ∈ mid -> String.ltb (end_time best) (end_time s) = false) ->
  exists pre' post,
    pre ++ best :: mid ++ items = pre' ++ max_from best items :: post
    /\ (forall s, s ∈ pre' ->
          String.ltb (end_time s) (end_time (max_from best items)) = true)
    /\ (forall s, s ∈ post ->
          String.ltb (end_time (max_from best items)) (end_time s) = false).
Proof.
  revert pre mid best. induction items as [|x rest IH]; intros pre mid best Hpre Hmid.
  - exists pre, mid. rewrite app_nil_r. auto.
  - cbn [max_from]. rewrite !end_time_key_eq.
    destruct (String.ltb (end_time best) (end_time x)) eqn:Hlt.
    + destruct (IH (pre ++ best :: mid) [] x) as (pre' & post & Heq & H1 & H2).
      * intros s Hs. apply elem_of_app in Hs as [Hs|Hs].
        -- apply (string_ltb_trans _ (end_time best)); auto.
        -- apply elem_of_cons in Hs as [->|Hs]; [exact Hlt|].
           apply (string_leb_ltb_trans _ (end_time best)); auto.
      * intros s Hs. inversion Hs.
      * exists pre', post. split; [|auto].
        rewrite <- Heq. rewrite <- !app_assoc. reflexivity.
    + destruct (IH pre (mid ++ [x]) best) as (pre' & post & Heq & H1 & H2).
      * exact Hpre.
      * intros s Hs. apply elem_of_app in Hs as [Hs|Hs]; [auto|].
        apply elem_of_cons in Hs as [->|Hs]; [exact Hlt|inversion Hs].
      * exists pre', post. split; [|auto].
        rewrite <- Heq. rewrite <- !app_assoc. reflexivity.
Qed.

(** X21: which summary [max] picks among equals.  [max(items, key=...)]
    returns the first item with the greatest [end_time]: every item before
    it has a strictly smaller [end_time], and no item after it has a
    greater one.  So of two summaries with the same [end_time], [get_latest]
    returns the one that entered the archive first. *)
Theorem max_from_first_maximal (best : Summary) (items : list Summary) :
  exists pre post,
    best :: items = pre ++ max_from best items :: post
    /\ (forall s, s ∈ pre ->
          String.ltb (end_time s) (end_time (max_from best items)) = true)
    /\ (forall s, s ∈ post ->
          String.ltb (end_time (max_from best items)) (end_time s) = false).
Proof.
  apply (max_from_split items [] [] best); intros s Hs; inversion Hs.
Qed.

(* ===================================================================== *)
(** * Further properties: the disk *)
(* ===================================================================== *)

Lemma step_disk_mirrors (accepted : string -> Prop) (u : option string)
      (w w' : World) :
  step accepted u w w' -> disk_mirrors w -> disk_mirrors w'.
Proof.
  intros Hstep Hd.
  destruct Hstep as [w token h Hh|w|w u' req ts Hu Hts|w u' req Hu
                    |w u' i open Hu Hopen Hnone|w u' i stored s Hu Hstored Hended Hsum].
  - exact Hd.
  - exact Hd.
  - exact Hd.
  - exact Hd.
  - unfold set_end_time. destruct (_ !! i); exact Hd.
  - intros path doc. unfold save_finished, modify. cbn [snd files set_files FINISHED].
    destruct (decide (DATA_FILE = path)) as [<-|Hp].
    + rewrite lookup_insert_eq. intros [= <-]. split; reflexivity.
    + rewrite lookup_insert_ne by exact Hp.
      destruct (decide ((DATA_FILE ++ ".tmp")%string = path)) as [<-|Ht].
      * now rewrite lookup_delete_eq.
      * rewrite lookup_delete_ne, lookup_insert_ne by exact Ht.
        intros Hfile. destruct (Hd _ _ Hfile) as [-> _]. contradiction.
Qed.

Lemma steps_disk_mirrors (accepted : string -> Prop) (u : option string)
      (w w' : World) :
  rtc (step accepted u) w w' -> disk_mirrors w -> disk_mirrors w'.
Proof.
  induction 1 as [|w1 w2 w3 Hstep _ IH]; [auto|].
  intros Hd. apply IH. eapply step_disk_mirrors; eassumption.
Qed.

Lemma serve_disk_mirrors (fromisoformat : string -> option datetime)
      (requests : list Request) (w : World) :
  disk_mirrors w -> disk_mirrors (serve fromisoformat requests w).
Proof.
  revert w. induction requests as [|r rest IH]; intros w Hc; simpl; [exact Hc|].
  apply IH. exact (steps_disk_mirrors _ _ _ _ (handle_steps fromisoformat r w) Hc).
Qed.

(** X22: the service writes one file, and it mirrors the archive.  In
    every state reached from an empty process on an empty disk, a file
    that exists is [DATA_FILE] and holds the document of the archive as it
    is in memory now: no temporary file is left behind, no other file is
    written, and the file never lags behind the archive. *)
Theorem disk_mirrors_archive (fromisoformat : string -> option datetime)
        (clk : nat -> datetime) (requests : list Request)
        (path : string) (doc : file_content) :
  files (serve fromisoformat requests (boot clk)) !! path = Some doc ->
  path = DATA_FILE
  /\ doc = Parsed (finished_to_json
                     (FINISHED (serve fromisoformat requests (boot clk)))).
Proof.
  apply (serve_disk_mirrors fromisoformat requests (boot clk)).
  intros p d H. unfold boot in H. simpl in H. now rewrite lookup_empty in H.
Qed.

Lemma disk_mirrors_archive_witness :
  files (serve fromisoformat_std (example_requests ++ [EndSession "tok" None "s1"])
               (boot example_clock)) !! "summaries.json"
  = Some (Parsed (finished_to_json {["alice" := [example_summary]]}))
  /\ "summaries.json" = DATA_FILE
  /\ Parsed (finished_to_json {["alice" := [example_summary]]})
     = Parsed (finished_to_json
                 (FINISHED (serve fromisoformat_std
                              (example_requests ++ [EndSession "tok" None "s1"])
                              (boot example_clock)))).
Proof.
  assert (H : files (serve fromisoformat_std
                       (example_requests ++ [EndSession "tok" None "s1"])
                       (boot example_clock)) !! "summaries.json"
              = Some (Parsed (finished_to_json {["alice" := [example_summary]]})))
    by (vm_compute; reflexivity).
  split; [exact H|].
  exact (disk_mirrors_archive fromisoformat_std example_clock
           (example_requests ++ [EndSession "tok" None "s1"]) "summaries.json" _ H).
Defined.

Lemma json_get_absent (key : string) (members : list (string * json)) :
  key ∉ map fst members -> json_get key members = None.
Proof.
  induction members as [|[k v] rest IH]; intros Hnot; [reflexivity|].
  cbn [json_get]. rewrite IH.
  - destruct (String.eqb_spec k key) as [->|Hne]; [|reflexivity].
    exfalso. apply Hnot. left.
  - intros Hin. apply Hnot. now right.
Qed.

Lemma json_get_member (key : string) (v : json) (members : list (string * json)) :
  NoDup (map fst members) -> (key, v) ∈ members -> json_get key members = Some v.
Proof.
  induction members as [|[k x] rest IH]; intros Hnd Hin; [inversion Hin|].
  cbn [map fst] in Hnd. apply NoDup_cons in Hnd as [Hk Hnd].
  cbn [json_get]. apply elem_of_cons in Hin as [[= <- <-]|Hin].
  - rewrite json_get_absent by exact Hk. now rewrite String.eqb_refl.
  - now rewrite IH.
Qed.

(** The members of a summary may come in any order. *)
Lemma summary_of_members_permuted (s : Summary) (members : list (string * json)) :
  members ≡ₚ summary_members s -> summary_of_members members = Some s.
Proof.
  intros Hp.
  assert (Hnd : NoDup (map fst members)).
  { rewrite Hp. change (NoDup summary_keys). unfold summary_keys.
    repeat (apply NoDup_cons; split;
            [rewrite ?elem_of_cons, elem_of_nil; intuition discriminate|]).
    apply NoDup_nil_2. }
  assert (Hget : forall key v, (key, v) ∈ summary_members s ->
                   json_get key members = Some v).
  { intros key v Hin. apply json_get_member; [exact Hnd|]. now rewrite Hp. }
  unfold summary_of_members.
  assert (Hkeys : forallb (fun kv => existsb (String.eqb (fst kv)) summary_keys)
                    members = true).
  { apply forallb_forall. intros kv Hin.
    apply list_elem_of_In in Hin. rewrite Hp in Hin.
    unfold summary_members in Hin.
    repeat (apply elem_of_cons in Hin as [->|Hin]; [reflexivity|]).
    inversion Hin. }
  rewrite Hkeys.
  rewrite (Hget "session_id" (JString (session_id s)))
    by (unfold summary_members; rewrite !elem_of_cons; tauto).
  rewrite (Hget "user_id" (JString (user_id s)))
    by (unfold summary_members; rewrite !elem_of_cons; tauto).
  rewrite (Hget "start_time" (JString (start_time s)))
    by (unfold summary_members; rewrite !elem_of_cons; tauto).
  rewrite (Hget "end_time" (JString (end_time s)))
    by (unfold summary_members; rewrite !elem_of_cons; tauto).
  rewrite (Hget "rounds" (JInt (rounds s)))
    by (unfold summary_members; rewrite !elem_of_cons; tauto).
  rewrite (Hget "total_bets" (num_to_json (total_bets s)))
    by (unfold summary_members; rewrite !elem_of_cons; tauto).
  rewrite (Hget "total_wins" (num_to_json (total_wins s)))
    by (unfold summary_members; rewrite !elem_of_cons; tauto).
  rewrite (Hget "net_change" (num_to_json (net_change s)))
    by (unfold summary_members; rewrite !elem_of_cons; tauto).
  cbn [option_bind]. rewrite !json_to_num_to_json. now destruct s.
Qed.

(** X23: what [load_finished] installs.  A missing file, an unreadable
    file and a document that is not an object all give the empty archive.
    A document that [save_finished] wrote for an archive gives that
    archive.  In both cases what was in memory before is replaced, not
    merged.  A summary object is read whatever the order of its members.
    Whenever the document is read as an archive of summaries, token
    bindings, sessions and the disk are left as they were. *)
Theorem load_finished_replaces (w : World) :
  ((files w !! DATA_FILE = None \/ files w !! DATA_FILE = Some Unparseable
    \/ exists j, files w !! DATA_FILE = Some (Parsed j)
                 /\ forall members, j <> JObject members) ->
   load_finished w = Some (set_FINISHED ∅ w))
  /\ (forall fin,
        files w !! DATA_FILE = Some (Parsed (finished_to_json fin)) ->
        load_finished w = Some (set_FINISHED fin w))
  /\ (forall s members,
        members ≡ₚ summary_members s -> summary_of_json (JObject members) = Some s)
  /\ (forall w', load_finished w = Some w' ->
        TOKEN_USER w' = TOKEN_USER w /\ ACTIVE w' = ACTIVE w /\ files w' = files w).
Proof.
  split; [apply load_finished_degrades|].
  split; [apply load_finished_written|].
  split; [intros s members; apply summary_of_members_permuted|].
  intros w'. unfold load_finished.
  destruct (files w !! DATA_FILE) as [[|j]|]; try (intros [= <-]; auto).
  destruct j; try (intros [= <-]; auto).
  destruct (finished_of_members ∅ l); [|discriminate].
  intros [= <-]. auto.
Qed.

(** An archive written with the members of a summary in another order is
    loaded as the same archive. *)
Example load_finished_other_order :
  option_map FINISHED
    (load_finished
       (set_files
          {[DATA_FILE :=
              Parsed (JObject
                        [("alice",
                          JArray [JObject (reverse (summary_members example_summary))])])]}
          (boot example_clock)))
  = Some {["alice" := [example_summary]]}.
Proof. vm_compute. reflexivity. Qed.

(* ===================================================================== *)
(** * Further properties: the latest summary after an end *)
(* ===================================================================== *)

(** X24: after a session is ended, the caller has a latest summary.  Once
    [end_session] has returned a summary, [get_latest] for the same user
    returns a summary and not the empty answer, and the one it returns has
    an [end_time] that is not before the ended session's. *)
Theorem get_latest_after_end (fromisoformat : string -> option datetime)
        (token token2 : string) (hint hint2 : option string) (sid user : string)
        (w w' w2 : World) (s : Summary) :
  end_session fromisoformat token hint sid w = (inr s, w') ->
  fst (current_user_id token hint w) = inr user ->
  current_user_id token2 hint2 w' = (inr user, w2) ->
  exists best,
    get_latest token2 hint2 w' = (inr (mkLatestResponse true (Some best) None), w2)
    /\ best ∈ finished_lookup user w'
    /\ String.leb (end_time s) (end_time best) = true.
Proof.
  intros Hend Huser Hid.
  destruct (end_session_archive fromisoformat _ _ _ _ _ _ Hend)
    as (user' & Huser' & Hsid & Hfin & _).
  assert (user' = user) as -> by congruence.
  pose proof (find_summary_upsert sid s (finished_lookup user w) Hsid) as Hfind.
  rewrite <- Hfin in Hfind. apply find_summary_Some in Hfind as [Hin _].
  destruct (current_user_id_returns _ _ _ _ _ Hid) as (_ & _ & _ & _ & Hf2 & _).
  unfold get_latest, bind, gets. rewrite Hid.
  rewrite (finished_lookup_FINISHED user w' w2 Hf2).
  destruct (finished_lookup user w') as [|first rest]; [inversion Hin|].
  destruct (max_from_greatest rest first) as (Hbest & Hfirst & Hall).
  exists (max_from first rest). split; [reflexivity|]. split; [exact Hbest|].
  apply elem_of_cons in Hin as [->|Hin]; [exact Hfirst|now apply Hall].
Qed.

Lemma get_latest_after_end_witness :
  end_session fromisoformat_std "tok" None "s1" example_world
  = (inr example_summary, example_ended_world)
  /\ fst (current_user_id "tok" None example_world) = inr "alice"
  /\ current_user_id "tok" None example_ended_world = (inr "alice", example_ended_world)
  /\ exists best,
       get_latest "tok" None example_ended_world
       = (inr (mkLatestResponse true (Some best) None), example_ended_world)
       /\ best ∈ finished_lookup "alice" example_ended_world
       /\ String.leb (end_time example_summary) (end_time best) = true.
Proof.
  assert (Hend : end_session fromisoformat_std "tok" None "s1" example_world
                 = (inr example_summary, example_ended_world))
    by (vm_compute; reflexivity).
  assert (Huser : fst (current_user_id "tok" None example_world) = inr "alice")
    by (vm_compute; reflexivity).
  assert (Hid : current_user_id "tok" None example_ended_world
                = (inr "alice", example_ended_world)) by (vm_compute; reflexivity).
  split; [exact Hend|]. split; [exact Huser|]. split; [exact Hid|].
  exact (get_latest_after_end fromisoformat_std "tok" "tok" None None "s1" "alice"
           example_world example_ended_world example_ended_world example_summary
           Hend Huser Hid).
Defined.

(* ===================================================================== *)
(** * Further properties: the archive and the sessions it came from *)
(* ===================================================================== *)

Lemma elem_of_insert_new {A : Type} (l : list A) (i : nat) (new x : A) :
  x ∈ <[i := new]> l -> x = new \/ x ∈ l.
Proof.
  revert i. induction l as [|y rest IH]; intros [|i] H; simpl in H.
  - inversion H.
  - inversion H.
  - apply elem_of_cons in H as [->|H]; [now left|right; now right].
  - apply elem_of_cons in H as [->|H]; [right; left|].
    destruct (IH _ H) as [->|Hin]; [now left|right; now right].
Qed.

Lemma elem_of_upsert (sid : string) (new x : Summary) (items : list Summary) :
  x ∈ upsert sid new items -> x = new \/ x ∈ items.
Proof.
  unfold upsert. destruct (find_index sid 0 items) as [i|].
  - apply elem_of_insert_new.
  - intros H. apply elem_of_app in H as [H|H]; [now right|].
    apply elem_of_cons in H as [->|H]; [now left|inversion H].
Qed.

Lemma step_sessions_ok (accepted : string -> Prop) (u : option string) (w w' : World) :
  step accepted u w w' -> sessions_ok w -> sessions_ok w'.
Proof.
  intros Hstep Hok.
  destruct Hstep as [w token h Hh|w|w u' req ts Hu Hts|w u' req Hu
                    |w u' i open Hu Hopen Hnone|w u' i stored s Hu Hstored Hended Hsum].
  - exact Hok.
  - exact Hok.
  - now apply append_event_sessions_ok.
  - apply append_event_sessions_ok. exact Hok.
  - apply set_end_time_sessions_ok; [|exact Hok].
    apply str_truthy_true, isoformat_nonempty.
  - exact Hok.
Qed.

Lemma step_archive_matches (accepted : string -> Prop) (u : option string)
      (w w' : World) :
  step accepted u w w' -> sessions_ok w -> archive_matches w -> archive_matches w'.
Proof.
  intros Hstep Hok Hm.
  assert (Hkeep : forall w2,
            FINISHED w2 = FINISHED w ->
            (forall user sid sess, continued user sid sess w ->
                                   continued user sid sess w2) ->
            archive_matches w2).
  { intros w2 Hfin Hcont user s Hs.
    rewrite (finished_lookup_FINISHED user w w2 Hfin) in Hs.
    destruct (Hm user s Hs) as (Hu & Hst & Hen & sess & Hlook & Hend).
    split; [exact Hu|]. split; [exact Hst|]. split; [exact Hen|].
    destruct (Hcont user (session_id s) sess) as (later & Hlater & _ & _ & Hkept).
    { exists sess. split; [exact Hlook|apply continues_refl]. }
    exists later. split; [exact Hlater|now apply Hkept]. }
  destruct Hstep as [w token h Hh|w|w u' req ts Hu Hts|w u' req Hu
                    |w u' i open Hu Hopen Hnone|w u' i stored s Hu Hstored Hended Hsum].
  - exact Hm.
  - exact Hm.
  - apply Hkeep; [reflexivity|]. intros. now apply append_event_continued.
  - apply Hkeep; [reflexivity|]. intros user sid sess Hc.
    apply append_event_continued. exact Hc.
  - apply Hkeep.
    + unfold set_end_time. destruct (_ !! i); reflexivity.
    + intros user sid sess Hc.
      apply (set_end_time_continued _ _ _ _ _ _ open); [exact Hopen|exact Hnone|exact Hc].
  - intros user x Hx.
    change (finished_lookup user (snd (save_finished (store_finished u' i s w))))
      with (finished_lookup user (store_finished u' i s w)) in Hx.
    change (session_lookup user (session_id x)
              (snd (save_finished (store_finished u' i s w))))
      with (session_lookup user (session_id x) w).
    destruct (decide (user = u')) as [->|Hne].
    + rewrite store_finished_lookup in Hx.
      apply elem_of_upsert in Hx as [->|Hx]; [|exact (Hm _ _ Hx)].
      destruct Hsum as (Hs & Hst & Hen & Hsame).
      assert (Hid : session_id s = i /\ user_id s = u') by (rewrite Hs; auto).
      destruct Hid as [Hsid Huid].
      split; [exact Huid|]. split; [exact Hst|]. split; [exact Hen|].
      exists stored. rewrite Hsid. split; [exact Hstored|].
      destruct (sess_end_time stored) as [e|] eqn:He; [|contradiction].
      f_equal. symmetry. apply Hsame; [reflexivity|].
      intros ->. exact (Hok _ _ _ Hstored He).
    + rewrite store_finished_other in Hx by exact Hne. exact (Hm _ _ Hx).
Qed.

Lemma steps_archive_matches (accepted : string -> Prop) (u : option string)
      (w w' : World) :
  rtc (step accepted u) w w' ->
  sessions_ok w -> archive_matches w -> sessions_ok w' /\ archive_matches w'.
Proof.
  induction 1 as [|w1 w2 w3 Hstep _ IH]; [auto|].
  intros Hok Hm. apply IH.
  - eapply step_sessions_ok; eassumption.
  - eapply step_archive_matches; eassumption.
Qed.

Lemma serve_archive_matches (fromisoformat : string -> option datetime)
      (requests : list Request) (w : World) :
  sessions_ok w -> archive_matches w ->
  sessions_ok (serve fromisoformat requests w)
  /\ archive_matches (serve fromisoformat requests w).
Proof.
  revert w. induction requests as [|r rest IH]; intros w Hok Hm; simpl; [auto|].
  destruct (steps_archive_matches _ _ _ _ (handle_steps fromisoformat r w) Hok Hm).
  now apply IH.
Qed.

Lemma boot_archive_matches (clk : nat -> datetime) : archive_matches (boot clk).
Proof.
  intros user s Hs. unfold finished_lookup, boot in Hs. simpl in Hs.
  rewrite lookup_empty in Hs. inversion Hs.
Qed.

(** X25: an archived summary has its session behind it.  In every state
    reached from an empty process, a summary in a user's archive carries
    that user's id and non-empty times, and the session it summarises is
    still in the session store, ended, with the summary's [end_time] as
    its own: ending supersedes a session but does not remove it, and the
    [or ""] of [get_latest]'s key is never needed. *)
Theorem archived_summary_has_session (fromisoformat : string -> option datetime)
        (clk : nat -> datetime) (requests : list Request) (user : string)
        (s : Summary) :
  s ∈ finished_lookup user (serve fromisoformat requests (boot clk)) ->
  user_id s = user /\ start_time s <> "" /\ end_time s <> ""
  /\ end_time_key s = end_time s
  /\ exists sess,
       session_lookup user (session_id s) (serve fromisoformat requests (boot clk))
       = Some sess
       /\ sess_end_time sess = Some (end_time s).
Proof.
  intros Hs.
  destruct (serve_archive_matches fromisoformat requests (boot clk)
              (boot_sessions_ok clk) (boot_archive_matches clk)) as [_ Hm].
  destruct (Hm user s Hs) as (Hu & Hst & Hen & Hsess).
  split; [exact Hu|]. split; [exact Hst|]. split; [exact Hen|].
  split; [apply end_time_key_eq|exact Hsess].
Qed.

Lemma archived_summary_has_session_witness :
  example_summary
    ∈ finished_lookup "alice"
        (serve fromisoformat_std (example_requests ++ [EndSession "tok" None "s1"])
               (boot example_clock))
  /\ user_id example_summary = "alice"
  /\ start_time example_summary <> "" /\ end_time example_summary <> ""
  /\ end_time_key example_summary = end_time example_summary
  /\ exists sess,
       session_lookup "alice" (session_id example_summary)
         (serve fromisoformat_std (example_requests ++ [EndSession "tok" None "s1"])
                (boot example_clock))
       = Some sess
       /\ sess_end_time sess = Some (end_time example_summary).
Proof.
  assert (H : example_summary
                ∈ finished_lookup "alice"
                    (serve fromisoformat_std
                       (example_requests ++ [EndSession "tok" None "s1"])
                       (boot example_clock))).
  { replace (finished_lookup "alice"
               (serve fromisoformat_std
                  (example_requests ++ [EndSession "tok" None "s1"])
                  (boot example_clock)))
      with [example_summary] by (vm_compute; reflexivity).
    left. }
  split; [exact H|].
  exact (archived_summary_has_session fromisoformat_std example_clock
           (example_requests ++ [EndSession "tok" None "s1"]) "alice"
           example_summary H).
Defined.

(* ===================================================================== *)
(** * Further properties: timestamps as sort keys *)
(* ===================================================================== *)

Lemma N_of_ascii_of_nat (n : nat) :
  (n < 256)%nat -> N_of_ascii (ascii_of_nat n) = N.of_nat n.
Proof.
  intros Hn. rewrite <- (N2Nat.id (N_of_ascii (ascii_of_nat n))).
  change (N.to_nat (N_of_ascii (ascii_of_nat n))) with (nat_of_ascii (ascii_of_nat n)).
  now rewrite nat_ascii_embedding.
Qed.

Lemma digit_char_compare (a b : Z) :
  Ascii.compare (digit_char a) (digit_char b) = (a mod 10 ?= b mod 10)%Z.
Proof.
  unfold Ascii.compare, digit_char.
  pose proof (Z.mod_pos_bound a 10 ltac:(lia)) as Ha.
  pose proof (Z.mod_pos_bound b 10 ltac:(lia)) as Hb.
  rewrite !N_of_ascii_of_nat by lia.
  rewrite <- N2Z.inj_compare, !nat_N_Z, !Nat2Z.inj_add, !Z2Nat.id by lia.
  apply Z.add_compare_mono_l.
Qed.

Lemma then_compare_digits2 (a b : Z) (rest : comparison) :
  (0 <= a < 100)%Z -> (0 <= b < 100)%Z ->
  then_compare ((a / 10) mod 10 ?= (b / 10) mod 10)%Z
    (then_compare ((a / 1) mod 10 ?= (b / 1) mod 10)%Z rest)
  = then_compare (a ?= b)%Z rest.
Proof.
  intros Ha Hb. rewrite !Z.div_1_r. unfold then_compare.
  destruct (Z.compare_spec ((a / 10) mod 10) ((b / 10) mod 10)) as [H1|H1|H1];
    destruct (Z.compare_spec (a mod 10) (b mod 10)) as [H2|H2|H2];
    destruct (Z.compare_spec a b) as [H|H|H];
    try reflexivity; exfalso;
    revert H1 H2 H; Z.to_euclidean_division_equations; lia.
Qed.

Lemma then_compare_digits4 (a b : Z) (rest : comparison) :
  (0 <= a < 10000)%Z -> (0 <= b < 10000)%Z ->
  then_compare ((a / 1000) mod 10 ?= (b / 1000) mod 10)%Z
    (then_compare ((a / 100) mod 10 ?= (b / 100) mod 10)%Z
       (then_compare ((a / 10) mod 10 ?= (b / 10) mod 10)%Z
          (then_compare ((a / 1) mod 10 ?= (b / 1) mod 10)%Z rest)))
  = then_compare (a ?= b)%Z rest.
Proof.
  intros Ha Hb.
  assert (Hq : forall x, (0 <= x < 10000)%Z ->
             ((x / 1000) mod 10 = (x / 100) / 10 mod 10
              /\ (x / 100) mod 10 = (x / 100) / 1 mod 10
              /\ (x / 10) mod 10 = (x mod 100) / 10 mod 10
              /\ (x / 1) mod 10 = (x mod 100) / 1 mod 10
              /\ 0 <= x / 100 < 100 /\ 0 <= x mod 100 < 100)%Z).
  { intros x Hx. rewrite !Z.div_1_r. Z.to_euclidean_division_equations. lia. }
  destruct (Hq a Ha) as (-> & -> & -> & -> & Ha1 & Ha2).
  destruct (Hq b Hb) as (-> & -> & -> & -> & Hb1 & Hb2).
  rewrite (then_compare_digits2 (a mod 100) (b mod 100)) by assumption.
  rewrite (then_compare_digits2 (a / 100) (b / 100)) by assumption.
  unfold then_compare.
  destruct (Z.compare_spec (a / 100) (b / 100)) as [H1|H1|H1];
    destruct (Z.compare_spec (a mod 100) (b mod 100)) as [H2|H2|H2];
    destruct (Z.compare_spec a b) as [H|H|H];
    try reflexivity; exfalso;
    revert H1 H2 H; Z.to_euclidean_division_equations; lia.
Qed.

Lemma compare_digit_cons (a b : Z) (s t : string) :
  String.compare (String (digit_char a) s) (String (digit_char b) t)
  = then_compare (a mod 10 ?= b mod 10)%Z (String.compare s t).
Proof.
  cbn [String.compare]. rewrite digit_char_compare.
  now destruct (a mod 10 ?= b mod 10)%Z.
Qed.

Lemma compare_same_cons (c : ascii) (s t : string) :
  String.compare (String c s) (String c t) = String.compare s t.
Proof.
  cbn [String.compare].
  assert (H : Ascii.compare c c = Eq) by (unfold Ascii.compare; apply N.compare_refl).
  now rewrite H.
Qed.

Lemma then_compare_Eq_r (c : comparison) : then_compare c Eq = c.
Proof. now destruct c. Qed.

(** The strings [isoformat] writes for UTC readings without microseconds
    compare as the readings' calendar fields. *)
Lemma isoformat_compare (a b : datetime) :
  valid_datetime a = true -> valid_datetime b = true ->
  String.compare (isoformat (replace_microsecond0_utc a))
                 (isoformat (replace_microsecond0_utc b))
  = calendar_compare a b.
Proof.
  intros Ha Hb.
  assert (Hr : forall t, valid_datetime t = true ->
             (0 <= year t < 10000 /\ 0 <= month t < 100 /\ 0 <= day t < 100
              /\ 0 <= hour t < 100 /\ 0 <= minute t < 100 /\ 0 <= second t < 100)%Z).
  { intros t Ht. unfold valid_datetime, valid_fields in Ht.
    repeat (apply andb_prop in Ht as [Ht ?]).
    repeat match goal with H : (_ <=? _)%Z = true |- _ => apply Z.leb_le in H end.
    assert (days_in_month (year t) (month t) <= 31)%Z.
    { unfold days_in_month.
      destruct (month t =? 2)%Z; [destruct (is_leap (year t)); lia|].
      destruct ((month t =? 4) || (month t =? 6) || (month t =? 9)
                || (month t =? 11))%Z; lia. }
    lia. }
  destruct (Hr a Ha) as (Ha1 & Ha2 & Ha3 & Ha4 & Ha5 & Ha6).
  destruct (Hr b Hb) as (Hb1 & Hb2 & Hb3 & Hb4 & Hb5 & Hb6).
  unfold replace_microsecond0_utc. rewrite !isoformat_utc_second.
  rewrite !compare_digit_cons, !compare_same_cons.
  rewrite !compare_digit_cons, !compare_same_cons.
  rewrite !compare_digit_cons, !compare_same_cons.
  rewrite !compare_digit_cons, !compare_same_cons.
  rewrite !compare_digit_cons, !compare_same_cons.
  rewrite !compare_digit_cons.
  change (String.compare "+00:00" "+00:00") with Eq.
  rewrite then_compare_Eq_r.
  unfold calendar_compare.
  rewrite <- (then_compare_Eq_r (second a ?= second b)%Z).
  rewrite <- (then_compare_digits2 (second a) (second b)) by assumption.
  rewrite <- (then_compare_digits2 (minute a) (minute b)) by assumption.
  rewrite <- (then_compare_digits2 (hour a) (hour b)) by assumption.
  rewrite <- (then_compare_digits2 (day a) (day b)) by assumption.
  rewrite <- (then_compare_digits2 (month a) (month b)) by assumption.
  rewrite <- (then_compare_digits4 (year a) (year b)) by assumption.
  now rewrite !then_compare_Eq_r.
Qed.

Lemma then_compare_assoc (a b c : comparison) :
  then_compare (then_compare a b) c = then_compare a (then_compare b c).
Proof. now destruct a. Qed.

Lemma then_compare_scale (base k1 k2 a b : Z) :
  (0 <= a < base)%Z -> (0 <= b < base)%Z ->
  (k1 * base + a ?= k2 * base + b)%Z = then_compare (k1 ?= k2)%Z (a ?= b)%Z.
Proof.
  intros Ha Hb. unfold then_compare.
  destruct (Z.compare_spec k1 k2) as [->|Hk|Hk].
  - apply Z.add_compare_mono_l.
  - apply Z.compare_lt_iff. nia.
  - apply Z.compare_gt_iff. nia.
Qed.

Lemma days_before_year_succ (y : Z) :
  days_before_year (y + 1)
  = (days_before_year y + 365 + (if is_leap y then 1 else 0))%Z.
Proof.
  unfold days_before_year, is_leap. cbv zeta.
  replace (y + 1 - 1)%Z with y by lia.
  destruct (Z.eqb_spec (y mod 4) 0) as [H4|H4];
    destruct (Z.eqb_spec (y mod 100) 0) as [H100|H100];
    destruct (Z.eqb_spec (y mod 400) 0) as [H400|H400]; cbn [andb orb negb];
    revert H4 H100 H400; Z.to_euclidean_division_equations; lia.
Qed.

Lemma days_before_year_mono (y1 y2 : Z) :
  (y1 <= y2)%Z -> (days_before_year y1 <= days_before_year y2)%Z.
Proof.
  intros Hle. unfold days_before_year. cbv zeta.
  Z.to_euclidean_division_equations. lia.
Qed.

Lemma days_before_month_aux_mono (y : Z) (k j : nat) :
  (k <= j)%nat -> (days_before_month_aux y k <= days_before_month_aux y j)%Z.
Proof.
  induction 1 as [|j Hle IH]; [lia|].
  cbn [days_before_month_aux].
  assert (0 <= days_in_month y (Z.of_nat (S j)))%Z; [|lia].
  unfold days_in_month.
  destruct (Z.of_nat (S j) =? 2)%Z; [destruct (is_leap y); lia|].
  destruct ((Z.of_nat (S j) =? 4) || (Z.of_nat (S j) =? 6) || (Z.of_nat (S j) =? 9)
            || (Z.of_nat (S j) =? 11))%Z; lia.
Qed.

Lemma days_before_month_mono (y m1 m2 : Z) :
  (m1 <= m2)%Z -> (days_before_month y m1 <= days_before_month y m2)%Z.
Proof.
  intros Hle. unfold days_before_month. apply days_before_month_aux_mono. lia.
Qed.

Lemma days_before_month_succ (y m : Z) :
  (1 <= m)%Z ->
  days_before_month y (m + 1) = (days_before_month y m + days_in_month y m)%Z.
Proof.
  intros Hm. unfold days_before_month.
  replace (Z.to_nat (m + 1 - 1)) with (S (Z.to_nat (m - 1))) by lia.
  cbn [days_before_month_aux]. do 2 f_equal. lia.
Qed.

Lemma days_before_month_13 (y : Z) :
  days_before_month y 13 = (365 + (if is_leap y then 1 else 0))%Z.
Proof.
  unfold days_before_month.
  change (Z.to_nat (13 - 1)) with 12%nat.
  cbn [days_before_month_aux]. unfold days_in_month.
  destruct (is_leap y); reflexivity.
Qed.

(** A valid date is a day of its year. *)
Lemma day_of_year_bounds (y m d : Z) :
  (1 <= m <= 12)%Z -> (1 <= d <= days_in_month y m)%Z ->
  (1 <= days_before_month y m + d <= 365 + (if is_leap y then 1 else 0))%Z.
Proof.
  intros Hm Hd.
  pose proof (days_before_month_mono y 1 m ltac:(lia)) as H1.
  change (days_before_month y 1) with 0%Z in H1.
  pose proof (days_before_month_succ y m ltac:(lia)) as Hs.
  pose proof (days_before_month_mono y (m + 1) 13 ltac:(lia)) as H13.
  rewrite days_before_month_13 in H13. lia.
Qed.

Lemma ymd2ord_compare (y1 m1 d1 y2 m2 d2 : Z) :
  (1 <= m1 <= 12)%Z -> (1 <= d1 <= days_in_month y1 m1)%Z ->
  (1 <= m2 <= 12)%Z -> (1 <= d2 <= days_in_month y2 m2)%Z ->
  (ymd2ord y1 m1 d1 ?= ymd2ord y2 m2 d2)%Z
  = then_compare (y1 ?= y2)%Z (then_compare (m1 ?= m2)%Z (d1 ?= d2)%Z).
Proof.
  intros Hm1 Hd1 Hm2 Hd2. unfold ymd2ord, then_compare.
  pose proof (day_of_year_bounds y1 m1 d1 Hm1 Hd1) as Hb1.
  pose proof (day_of_year_bounds y2 m2 d2 Hm2 Hd2) as Hb2.
  destruct (Z.compare_spec y1 y2) as [->|Hy|Hy].
  - destruct (Z.compare_spec m1 m2) as [->|Hm|Hm].
    + apply Z.add_compare_mono_l.
    + apply Z.compare_lt_iff.
      pose proof (days_before_month_succ y2 m1 ltac:(lia)) as Hs.
      pose proof (days_before_month_mono y2 (m1 + 1) m2 ltac:(lia)). lia.
    + apply Z.compare_gt_iff.
      pose proof (days_before_month_succ y2 m2 ltac:(lia)) as Hs.
      pose proof (days_before_month_mono y2 (m2 + 1) m1 ltac:(lia)). lia.
  - apply Z.compare_lt_iff.
    pose proof (days_before_year_succ y1) as Hs.
    pose proof (days_before_year_mono (y1 + 1) y2 ltac:(lia)). lia.
  - apply Z.compare_gt_iff.
    pose proof (days_before_year_succ y2) as Hs.
    pose proof (days_before_year_mono (y2 + 1) y1 ltac:(lia)). lia.
Qed.

(** The positions on the time line of two valid readings compare as their
    calendar fields. *)
Lemma wall_micros_compare (a b : datetime) :
  valid_datetime a = true -> valid_datetime b = true ->
  (wall_micros (replace_microsecond0_utc a)
   ?= wall_micros (replace_microsecond0_utc b))%Z
  = calendar_compare a b.
Proof.
  intros Ha Hb.
  assert (Hr : forall t, valid_datetime t = true ->
             (1 <= month t <= 12 /\ 1 <= day t <= days_in_month (year t) (month t)
              /\ 0 <= hour t < 24 /\ 0 <= minute t < 60 /\ 0 <= second t < 60)%Z).
  { intros t Ht. unfold valid_datetime, valid_fields in Ht.
    repeat (apply andb_prop in Ht as [Ht ?]).
    repeat match goal with H : (_ <=? _)%Z = true |- _ => apply Z.leb_le in H end.
    lia. }
  destruct (Hr a Ha) as (Ha1 & Ha2 & Ha3 & Ha4 & Ha5).
  destruct (Hr b Hb) as (Hb1 & Hb2 & Hb3 & Hb4 & Hb5).
  unfold wall_micros, replace_microsecond0_utc.
  cbn [year month day hour minute second microsecond].
  rewrite (then_compare_scale 1000000) by lia.
  change (0 ?= 0)%Z with Eq. rewrite then_compare_Eq_r.
  rewrite (then_compare_scale 60) by lia.
  rewrite (then_compare_scale 60) by lia.
  rewrite (then_compare_scale 24) by lia.
  rewrite ymd2ord_compare by assumption.
  unfold calendar_compare. now rewrite !then_compare_assoc.
Qed.

(** X26: the timestamps the service writes sort as text the way they sort
    in time.  For two valid readings, the strings that [now_iso] and
    [compute_summary] render for them (UTC, no microseconds) compare as the
    readings' positions on the time line: in the same order, and equal
    only for the same second.  So comparing [end_time] strings, as
    [get_latest] does, compares times. *)
Theorem isoformat_orders_as_time (a b : datetime) :
  valid_datetime a = true -> valid_datetime b = true ->
  String.compare (isoformat (replace_microsecond0_utc a))
                 (isoformat (replace_microsecond0_utc b))
  = (wall_micros (replace_microsecond0_utc a)
     ?= wall_micros (replace_microsecond0_utc b))%Z
  /\ String.ltb (isoformat (replace_microsecond0_utc a))
                (isoformat (replace_microsecond0_utc b))
     = (wall_micros (replace_microsecond0_utc a)
        <? wall_micros (replace_microsecond0_utc b))%Z
  /\ String.leb (isoformat (replace_microsecond0_utc a))
                (isoformat (replace_microsecond0_utc b))
     = (wall_micros (replace_microsecond0_utc a)
        <=? wall_micros (replace_microsecond0_utc b))%Z.
Proof.
  intros Ha Hb.
  assert (H : String.compare (isoformat (replace_microsecond0_utc a))
                             (isoformat (replace_microsecond0_utc b))
              = (wall_micros (replace_microsecond0_utc a)
                 ?= wall_micros (replace_microsecond0_utc b))%Z)
    by now rewrite isoformat_compare, wall_micros_compare.
  split; [exact H|].
  unfold String.ltb, String.leb, Z.ltb, Z.leb. rewrite H. split; reflexivity.
Qed.

Lemma isoformat_orders_as_time_witness :
  valid_datetime (example_clock 0) = true
  /\ valid_datetime (example_clock 1) = true
  /\ String.compare (isoformat (replace_microsecond0_utc (example_clock 0)))
                    (isoformat (replace_microsecond0_utc (example_clock 1)))
     = (wall_micros (replace_microsecond0_utc (example_clock 0))
        ?= wall_micros (replace_microsecond0_utc (example_clock 1)))%Z
  /\ String.ltb (isoformat (replace_microsecond0_utc (example_clock 0)))
                (isoformat (replace_microsecond0_utc (example_clock 1)))
     = (wall_micros (replace_microsecond0_utc (example_clock 0))
        <? wall_micros (replace_microsecond0_utc (example_clock 1)))%Z
  /\ String.leb (isoformat (replace_microsecond0_utc (example_clock 0)))
                (isoformat (replace_microsecond0_utc (example_clock 1)))
     = (wall_micros (replace_microsecond0_utc (example_clock 0))
        <=? wall_micros (replace_microsecond0_utc (example_clock 1)))%Z.
Proof.
  assert (H0 : valid_datetime (example_clock 0) = true) by reflexivity.
  assert (H1 : valid_datetime (example_clock 1) = true) by reflexivity.
  split; [exact H0|]. split; [exact H1|].
  exact (isoformat_orders_as_time (example_clock 0) (example_clock 1) H0 H1).
Defined.

Lemma step_ticks (accepted : string -> Prop) (u : option string) (w w' : World) :
  step accepted u w w' -> (ticks w <= ticks w')%nat.
Proof.
  intros Hstep.
  destruct Hstep as [w token h Hh|w|w u' req ts Hu Hts|w u' req Hu
                    |w u' i open Hu Hopen Hnone|w u' i stored s Hu Hstored Hended Hsum];
    simpl; try lia.
  unfold set_end_time. destruct (_ !! i); simpl; lia.
Qed.

Lemma append_event_ends_stamped (u : string) (req : EventIn) (ts : string)
      (w : World) :
  ends_stamped w -> ends_stamped (append_event u req ts w).
Proof.
  intros Hst user sid sess e.
  change (ticks (append_event u req ts w)) with (ticks w).
  change (clock (append_event u req ts w)) with (clock w).
  destruct (decide (user = u)) as [->|Hu];
    [destruct (decide (sid = in_session_id req)) as [->|Hi]|].
  - rewrite append_event_lookup.
    destruct (session_lookup u (in_session_id req) w) as [old|] eqn:Hold;
      intros [= <-]; simpl; [|discriminate].
    apply (Hst _ _ _ _ Hold).
  - rewrite append_event_other by now right. apply Hst.
  - rewrite append_event_other by now left. apply Hst.
Qed.

Lemma step_ends_stamped (accepted : string -> Prop) (u : option string)
      (w w' : World) :
  step accepted u w w' -> ends_stamped w -> ends_stamped w'.
Proof.
  intros Hstep Hst.
  destruct Hstep as [w token h Hh|w|w u' req ts Hu Hts|w u' req Hu
                    |w u' i open Hu Hopen Hnone|w u' i stored s Hu Hstored Hended Hsum].
  - exact Hst.
  - intros user sid sess e Hlook He.
    destruct (Hst user sid sess e Hlook He) as (n & Hn & ->).
    exists n. split; [simpl; lia|reflexivity].
  - now apply append_event_ends_stamped.
  - apply append_event_ends_stamped.
    intros user sid sess e Hlook He.
    destruct (Hst user sid sess e Hlook He) as (n & Hn & ->).
    exists n. split; [simpl; lia|reflexivity].
  - intros user sid sess e.
    assert (Hticks : ticks (set_end_time u' i (isoformat (now_reading w)) (tick w))
                     = S (ticks w))
      by (unfold set_end_time; destruct (_ !! i); reflexivity).
    assert (Hclock : clock (set_end_time u' i (isoformat (now_reading w)) (tick w))
                     = clock w)
      by (unfold set_end_time; destruct (_ !! i); reflexivity).
    rewrite Hticks, Hclock.
    destruct (decide (user = u')) as [->|Hne];
      [destruct (decide (sid = i)) as [->|Hi]|].
    + rewrite (set_end_time_lookup _ _ _ open (tick w) Hopen).
      intros [= <-] [= <-]. exists (ticks w). split; [lia|reflexivity].
    + rewrite set_end_time_other by now right. intros Hlook He.
      destruct (Hst u' sid sess e Hlook He) as (n & Hn & ->).
      exists n. split; [lia|reflexivity].
    + rewrite set_end_time_other by now left. intros Hlook He.
      destruct (Hst user sid sess e Hlook He) as (n & Hn & ->).
      exists n. split; [lia|reflexivity].
  - exact Hst.
Qed.

Lemma steps_ends_stamped (accepted : string -> Prop) (u : option string)
      (w w' : World) :
  rtc (step accepted u) w w' -> ends_stamped w -> ends_stamped w'.
Proof.
  induction 1 as [|w1 w2 w3 Hstep _ IH]; [auto|].
  intros Hd. apply IH. eapply step_ends_stamped; eassumption.
Qed.

Lemma steps_clock (accepted : string -> Prop) (u : option string) (w w' : World) :
  rtc (step accepted u) w w' -> clock w' = clock w.
Proof.
  induction 1 as [|w1 w2 w3 Hstep _ IH]; [reflexivity|].
  rewrite IH. exact (step_clock _ _ _ _ Hstep).
Qed.

Lemma serve_ends_stamped (fromisoformat : string -> option datetime)
      (requests : list Request) (w : World) :
  ends_stamped w ->
  ends_stamped (serve fromisoformat requests w)
  /\ clock (serve fromisoformat requests w) = clock w.
Proof.
  revert w. induction requests as [|r rest IH]; intros w Hc; simpl; [auto|].
  destruct (IH (snd (handle fromisoformat r w))) as [Hs Hclk].
  - exact (steps_ends_stamped _ _ _ _ (handle_steps fromisoformat r w) Hc).
  - split; [exact Hs|]. rewrite Hclk.
    exact (steps_clock _ _ _ _ (handle_steps fromisoformat r w)).
Qed.

Lemma boot_ends_stamped (clk : nat -> datetime) : ends_stamped (boot clk).
Proof.
  intros u i x e. unfold session_lookup, boot. simpl.
  rewrite lookup_empty. simpl. now rewrite lookup_empty.
Qed.

(** X27: the latest summary is the one of the session that was ended
    last.  In a process started empty with a clock that gives valid
    readings, every archived [end_time] is a reading of the clock made when
    the session was ended, and the summary [get_latest] returns has the
    reading that no other summary of the user exceeds in time. *)
Theorem get_latest_is_last_ended (fromisoformat : string -> option datetime)
        (clk : nat -> datetime) (requests : list Request) (token : string)
        (hint : option string) (user : string) (wa : World) (best s : Summary) :
  valid_clock clk ->
  current_user_id token hint (serve fromisoformat requests (boot clk)) = (inr user, wa) ->
  fst (get_latest token hint (serve fromisoformat requests (boot clk)))
  = inr (mkLatestResponse true (Some best) None) ->
  s ∈ finished_lookup user (serve fromisoformat requests (boot clk)) ->
  exists n_best n_s,
    end_time best = isoformat (replace_microsecond0_utc (clk n_best))
    /\ end_time s = isoformat (replace_microsecond0_utc (clk n_s))
    /\ (wall_micros (replace_microsecond0_utc (clk n_s))
        <= wall_micros (replace_microsecond0_utc (clk n_best)))%Z.
Proof.
  intros Hclk Hid Hlatest Hs.
  set (w := serve fromisoformat requests (boot clk)) in *.
  destruct (serve_archive_matches fromisoformat requests (boot clk)
              (boot_sessions_ok clk) (boot_archive_matches clk)) as [_ Hm].
  destruct (serve_ends_stamped fromisoformat requests (boot clk)
              (boot_ends_stamped clk)) as [Hst Hclock].
  fold w in Hm, Hst, Hclock. change (clock (boot clk)) with clk in Hclock.
  assert (Hstamp : forall x, x ∈ finished_lookup user w ->
            exists n, end_time x = isoformat (replace_microsecond0_utc (clk n))).
  { intros x Hx. destruct (Hm user x Hx) as (_ & _ & _ & sess & Hlook & Hend).
    destruct (Hst _ _ _ _ Hlook Hend) as (n & _ & He).
    exists n. now rewrite He, Hclock. }
  destruct (current_user_id_returns _ _ _ _ _ Hid) as (_ & _ & _ & _ & Hfin & _).
  unfold get_latest, bind, gets in Hlatest. rewrite Hid in Hlatest.
  rewrite (finished_lookup_FINISHED user w wa Hfin) in Hlatest.
  destruct (finished_lookup user w) as [|first rest] eqn:Hitems;
    [inversion Hs|].
  simpl in Hlatest. injection Hlatest as <-.
  destruct (max_from_greatest rest first) as (Hbest & Hfirst & Hall).
  destruct (Hstamp _ Hbest) as (n_best & Hnb).
  destruct (Hstamp _ Hs) as (n_s & Hns).
  exists n_best, n_s. split; [exact Hnb|]. split; [exact Hns|].
  assert (Hle : String.leb (end_time s) (end_time (max_from first rest)) = true)
    by (apply elem_of_cons in Hs as [->|Hs]; [exact Hfirst|now apply Hall]).
  rewrite Hnb, Hns in Hle. unfold String.leb in Hle.
  rewrite isoformat_compare, <- wall_micros_compare in Hle by apply Hclk.
  apply Z.leb_le. unfold Z.leb. exact Hle.
Qed.

Lemma get_latest_is_last_ended_witness :
  valid_clock hour_clock
  /\ current_user_id "tok" None
       (serve fromisoformat_std (example_requests ++ [EndSession "tok" None "s1"])
              (boot hour_clock))
     = (inr "alice",
        serve fromisoformat_std (example_requests ++ [EndSession "tok" None "s1"])
              (boot hour_clock))
  /\ fst (get_latest "tok" None
            (serve fromisoformat_std (example_requests ++ [EndSession "tok" None "s1"])
                   (boot hour_clock)))
     = inr (mkLatestResponse true (Some example_summary) None)
  /\ example_summary
       ∈ finished_lookup "alice"
           (serve fromisoformat_std (example_requests ++ [EndSession "tok" None "s1"])
                  (boot hour_clock))
  /\ exists n_best n_s,
       end_time example_summary
       = isoformat (replace_microsecond0_utc (hour_clock n_best))
       /\ end_time example_summary
          = isoformat (replace_microsecond0_utc (hour_clock n_s))
       /\ (wall_micros (replace_microsecond0_utc (hour_clock n_s))
           <= wall_micros (replace_microsecond0_utc (hour_clock n_best)))%Z.
Proof.
  assert (Hid : current_user_id "tok" None
                  (serve fromisoformat_std
                     (example_requests ++ [EndSession "tok" None "s1"])
                     (boot hour_clock))
                = (inr "alice",
                   serve fromisoformat_std
                     (example_requests ++ [EndSession "tok" None "s1"])
                     (boot hour_clock))) by (vm_compute; reflexivity).
  assert (Hlatest : fst (get_latest "tok" None
                           (serve fromisoformat_std
                              (example_requests ++ [EndSession "tok" None "s1"])
                              (boot hour_clock)))
                    = inr (mkLatestResponse true (Some example_summary) None))
    by (vm_compute; reflexivity).
  assert (Hin : example_summary
                  ∈ finished_lookup "alice"
                      (serve fromisoformat_std
                         (example_requests ++ [EndSession "tok" None "s1"])
                         (boot hour_clock))).
  { replace (finished_lookup "alice"
               (serve fromisoformat_std
                  (example_requests ++ [EndSession "tok" None "s1"])
                  (boot hour_clock)))
      with [example_summary] by (vm_compute; reflexivity).
    left. }
  split; [exact hour_clock_valid|]. split; [exact Hid|]. split; [exact Hlatest|].
  split; [exact Hin|].
  exact (get_latest_is_last_ended fromisoformat_std hour_clock
           (example_requests ++ [EndSession "tok" None "s1"]) "tok" None "alice" _
           example_summary example_summary hour_clock_valid Hid Hlatest Hin).
Defined.
